(** * HushLane central API: licence validation and fleet registration

    A shallow embedding of [main.py] (the FastAPI service) and
    [generate_license.py] (the offline key generator), and the properties
    of the specification checked against it.

    The two programs share one SQLite file.  Everything outside the
    program text is an explicit part of the state they run in:
      - the committed database and the connection's uncommitted view;
      - the outcome of every call into the sqlite driver (it may raise);
      - the readings of the system clock;
      - the bytes delivered by the operating system's random source;
      - the lines printed on standard output.
    Python [str] values are [string]s holding their UTF-8 encoding, Python
    [int]s are [Z]. *)

From Stdlib Require Import ZArith String List Ascii Bool Lia DecimalString.
From Stdlib Require Import Permutation.
From Stdlib.Strings Require Import Byte.
From Stdlib.Floats Require Import SpecFloat.
Import ListNotations.
Local Open Scope string_scope.
Local Open Scope Z_scope.

Set Implicit Arguments.

(** Equality of two [str] values, Python's [==]. *)
Local Infix "==" := String.eqb (at level 70, no associativity).

(** ** Python values *)

(** The exceptions that the two programs can meet.  [Sqlite3Error] stands
    for [sqlite3.Error] and its subclasses, which [create_license] handles
    apart from the others. *)
Inductive exn : Type :=
| Sqlite3Error (msg : string)
| ValueError (msg : string)
| TypeError (msg : string)
| OverflowError (msg : string)
| HTTPException (status_code : Z) (detail : string)
                (headers : list (string * string)).

(** [str(e)] *)
Definition str_exn (e : exn) : string :=
  match e with
  | Sqlite3Error msg | ValueError msg | TypeError msg | OverflowError msg => msg
  | HTTPException code detail _ =>
      NilZero.string_of_int (Z.to_int code) ++ ": " ++ detail
  end.

(** [isinstance(e, sqlite3.Error)] *)
Definition is_sqlite3_error (e : exn) : bool :=
  match e with Sqlite3Error _ => true | _ => false end.

(** [str(n)] for an [int] *)
Definition str_int (n : Z) : string := NilZero.string_of_int (Z.to_int n).

(** Truth value of a [str]: the empty string is falsy. *)
Definition truthy_str (s : string) : bool :=
  match s with EmptyString => false | String _ _ => true end.

(** Truth value of an [Optional[str]] cell read from a row. *)
Definition truthy_cell (c : option string) : bool :=
  match c with None => false | Some s => truthy_str s end.

(** Truth value of an [Optional[int]]. *)
Definition truthy_int (c : option Z) : bool :=
  match c with None => false | Some n => negb (n =? 0) end.

(** [s * n] *)
Fixpoint str_mul (s : string) (n : nat) : string :=
  match n with O => "" | S k => s ++ str_mul s k end.

Definition nl : string := String (ascii_of_nat 10) "".

(** How a cell is rendered inside an f-string: [None] prints as "None". *)
Definition fmt_cell (c : option string) : string :=
  match c with None => "None" | Some s => s end.

(** A parameter with a default value, as the caller passes it. *)
Inductive arg (A : Type) : Type :=
| Omitted
| Given (a : A).
Arguments Omitted {A}.

Definition with_default {A : Type} (d : A) (a : arg A) : A :=
  match a with Omitted => d | Given x => x end.

(** JSON bodies are dictionaries of scalar values. *)
Inductive json : Type :=
| JNull
| JBool (b : bool)
| JStr (s : string).

Definition json_of_cell (c : option string) : json :=
  match c with None => JNull | Some s => JStr s end.

Record Response : Type := mkResponse {
  status_code : Z;
  content : list (string * json)
}.

(** A handler that returns a plain [dict] answers with HTTP 200. *)
Definition dict_response (d : list (string * json)) : Response :=
  mkResponse 200 d.

Definition JSONResponse (code : Z) (d : list (string * json)) : Response :=
  mkResponse code d.

(** ** Dates and times *)

(** A [datetime] is the number of microseconds since 0001-01-01T00:00:00;
    an aware one also carries its UTC offset.  [datetime.now()] is naive. *)
Inductive datetime : Type :=
| Naive (us : Z)
| Aware (us : Z) (utcoffset : Z).

Definition us_per_day : Z := 86400 * 1000000.

(** [datetime.max] is 9999-12-31T23:59:59.999999, whose date has ordinal
    3652059. *)
Definition datetime_max_us : Z := 3652059 * us_per_day - 1.

(** [timedelta(days=d)], in microseconds.  The number of days is held in
    a C [int] before its magnitude is checked. *)
Definition timedelta_days (d : Z) : exn + Z :=
  if Z.abs d <=? 999999999 then inr (d * us_per_day)
  else if (- 2 ^ 31 <=? d) && (d <? 2 ^ 31) then
    inl (OverflowError
           ("days=" ++ str_int d ++ "; must have magnitude <= 999999999"))
  else inl (OverflowError "Python int too large to convert to C int").

(** [dt + delta] *)
Definition datetime_add (dt : datetime) (delta : Z) : exn + datetime :=
  let us := match dt with Naive t => t | Aware t _ => t end in
  if (0 <=? us + delta) && (us + delta <=? datetime_max_us) then
    inr (match dt with
         | Naive _ => Naive (us + delta)
         | Aware _ off => Aware (us + delta) off
         end)
  else inl (OverflowError "date value out of range").

(** [a > b] *)
Definition datetime_gt (a b : datetime) : exn + bool :=
  match a, b with
  | Naive x, Naive y => inr (y <? x)
  | Aware x ox, Aware y oy => inr (y - oy <? x - ox)
  | _, _ => inl (TypeError "can't compare offset-naive and offset-aware datetimes")
  end.

(** ** SQLite values

    What SQLite keeps in a cell: nothing, a 64-bit integer, a 64-bit
    float or a text; Python reads them back as [None], [int], [float] and
    [str]. *)
Inductive sqlvalue : Type :=
| SqlNull
| SqlInteger (i : Z)
| SqlReal (r : spec_float)
| SqlText (s : string).

(** The value of a nullable cell that holds text. *)
Definition text_cell (c : option string) : sqlvalue :=
  match c with None => SqlNull | Some s => SqlText s end.

(** A column declared [TIMESTAMP] has NUMERIC affinity: a text that is a
    well-formed number literal is stored as that number.  A literal is,
    between optional white space, an optional sign, decimal digits with at
    most one point among them, and an optional exponent. *)
Definition is_space (c : ascii) : bool :=
  let n := N_of_ascii c in
  ((n =? 32) || ((9 <=? n) && (n <=? 13)))%N.

Definition digit_of (c : ascii) : option Z :=
  let n := N_of_ascii c in
  if ((48 <=? n) && (n <=? 57))%N then Some (Z.of_N n - 48) else None.

Fixpoint skip_spaces (s : string) : string :=
  match s with
  | String c rest => if is_space c then skip_spaces rest else s
  | EmptyString => s
  end.

(** The digits that [s] starts with: how many they are, the number they
    write after the digits already read, and the rest of [s]. *)
Fixpoint digits (s : string) (count : nat) (value : Z) : nat * Z * string :=
  match s with
  | String c rest =>
      match digit_of c with
      | Some d => digits rest (S count) (10 * value + d)
      | None => (count, value, s)
      end
  | EmptyString => (count, value, s)
  end.

Definition sign (s : string) : bool * string :=
  match s with
  | String "-" rest => (true, rest)
  | String "+" rest => (false, rest)
  | _ => (false, s)
  end.

(** A literal denotes [significand * 10 ^ exponent10], negated when
    [negative]; it is an integer literal when it has neither point nor
    exponent. *)
Record literal : Type := mkLiteral {
  negative : bool;
  significand : Z;
  exponent10 : Z;
  is_integer : bool
}.

Definition read_exponent (s : string) : option (bool * Z * string) :=
  match s with
  | String c rest =>
      if Ascii.eqb c "e" || Ascii.eqb c "E" then
        let (minus, rest) := sign rest in
        let '(n, e, rest) := digits rest 0 0 in
        if (n =? 0)%nat then None
        else Some (true, if minus then - e else e, rest)
      else Some (false, 0, s)
  | EmptyString => Some (false, 0, s)
  end.

Definition read_literal (s : string) : option literal :=
  let (minus, s) := sign (skip_spaces s) in
  let '(n1, whole, s) := digits s 0 0 in
  let '(point, n2, all, s) :=
    match s with
    | String "." rest =>
        let '(n2, all, rest) := digits rest 0 whole in (true, n2, all, rest)
    | _ => (false, O, whole, s)
    end in
  if (n1 + n2 =? 0)%nat then None
  else
    match read_exponent s with
    | Some (has_exponent, e, s) =>
        match skip_spaces s with
        | EmptyString =>
            Some (mkLiteral minus all (e - Z.of_nat n2)
                    (negb point && negb has_exponent))
        | String _ _ => None
        end
    | None => None
    end.

Definition literal_value (l : literal) : Z :=
  if negative l then - significand l else significand l.

Definition int64_min : Z := - 2 ^ 63.
Definition int64_max : Z := 2 ^ 63 - 1.

(** The whole number that a float is, if it is one. *)
Definition whole_number (r : spec_float) : option Z :=
  match r with
  | S754_zero _ => Some 0
  | S754_finite minus m e =>
      if 0 <=? e then
        Some (if minus then - (Zpos m * 2 ^ e) else Zpos m * 2 ^ e)
      else if Zpos m mod 2 ^ (- e) =? 0 then
        Some (if minus then - (Zpos m / 2 ^ (- e)) else Zpos m / 2 ^ (- e))
      else None
  | S754_infinity _ | S754_nan => None
  end.

(** A float that is a whole number strictly between the least and the
    greatest 64-bit integer is stored as an integer. *)
Definition integer_affinity (r : spec_float) : sqlvalue :=
  match whole_number r with
  | Some i =>
      if (int64_min <? i) && (i <? int64_max) then SqlInteger i
      else SqlReal r
  | None => SqlReal r
  end.

(** The text conversions belong to the Python and SQLite run-times, not to
    this repository; the development is parametric in them.
    [fromisoformat] raises on text it cannot read, in particular on the
    empty string.  [CURRENT_TIMESTAMP] is how SQLite renders a clock
    reading for a column declared [DEFAULT CURRENT_TIMESTAMP].
    [text_to_real] is the float that SQLite reads from a number literal;
    its last digit depends on the version of the library. *)
Class Runtime : Type := {
  isoformat : datetime -> string;
  fromisoformat : string -> exn + datetime;
  strftime_ymd : datetime -> string;
  CURRENT_TIMESTAMP : Z -> string;
  text_to_real : string -> spec_float;
  fromisoformat_empty : forall d, fromisoformat "" <> inr d
}.

(** What a column of NUMERIC affinity stores when it is given a text: an
    integer literal that fits 64 bits is stored as that integer, any other
    number literal as the float read from it, or as an integer when that
    float is a whole number, and any other text as it is. *)
Definition numeric_affinity `{Runtime} (text : string) : sqlvalue :=
  match read_literal text with
  | Some l =>
      if is_integer l && (int64_min <=? literal_value l) &&
         (literal_value l <=? int64_max)
      then SqlInteger (literal_value l)
      else integer_affinity (text_to_real text)
  | None => SqlText text
  end.

(** ** The persisted schema *)

Module CustomerInstance.
Record t : Type := mk {
  customer_id : string;
  version : string;
  url : string;
  health_status : option string;
  last_heartbeat : sqlvalue;
  first_seen : option string;
  total_users : option Z;
  total_messages : option Z
}.
End CustomerInstance.

Module VersionHistory.
Record t : Type := mk {
  id : Z;
  customer_id : option string;
  old_version : option string;
  new_version : option string;
  updated_at : option string
}.
End VersionHistory.

Module License.
Record t : Type := mk {
  license_key : string;
  customer_id : string;
  customer_name : string;
  plan : option string;
  status : option string;
  created_at : option string;
  expires_at : option string;
  last_validated : option string
}.
End License.

(** Tables keep their rows in insertion order.  [version_history_seq] is
    the [AUTOINCREMENT] counter of [version_history].  A column that may be
    null is an [option]; the other columns are [NOT NULL] or primary keys.
    The programs never switch foreign keys on, so SQLite does not enforce
    the [FOREIGN KEY] clauses.  The columns declared [TEXT] hold the text
    that was written.  Of the columns declared [TIMESTAMP],
    [last_heartbeat] receives the text that a client sends, and holds what
    the NUMERIC affinity makes of it; the others receive the times that
    the programs and SQLite write, which hold a [-] and a [:] after their
    first digits and so stay text. *)
Record Database : Type := mkDatabase {
  customer_instances : list CustomerInstance.t;
  version_history : list VersionHistory.t;
  version_history_seq : Z;
  licenses : list License.t
}.

(** ** The world a request runs in *)

(** An oracle answers successive questions put to the environment. *)
Record Oracle (A : Type) : Type := mkOracle {
  feed : nat -> A;
  used : nat
}.

Definition advance {A : Type} (o : Oracle A) : Oracle A :=
  mkOracle (feed o) (S (used o)).

Definition draw {A : Type} (o : Oracle A) : A * Oracle A :=
  (feed o (used o), advance o).

Record World : Type := mkWorld {
  disk : Database;
  session : option Database;
  driver : Oracle (option exn);
  clock : Oracle Z;
  urandom : Oracle byte;
  stdout : list string
}.

Definition set_disk (d : Database) (w : World) : World :=
  mkWorld d (session w) (driver w) (clock w) (urandom w) (stdout w).
Definition set_session (s : option Database) (w : World) : World :=
  mkWorld (disk w) s (driver w) (clock w) (urandom w) (stdout w).
Definition set_driver (o : Oracle (option exn)) (w : World) : World :=
  mkWorld (disk w) (session w) o (clock w) (urandom w) (stdout w).
Definition set_clock (o : Oracle Z) (w : World) : World :=
  mkWorld (disk w) (session w) (driver w) o (urandom w) (stdout w).
Definition set_urandom (o : Oracle byte) (w : World) : World :=
  mkWorld (disk w) (session w) (driver w) (clock w) o (stdout w).
Definition set_stdout (l : list string) (w : World) : World :=
  mkWorld (disk w) (session w) (driver w) (clock w) (urandom w) l.

(** ** Computations: state and exceptions *)

Definition M (A : Type) : Type := World -> (exn + A) * World.

Definition ret {A : Type} (a : A) : M A := fun w => (inr a, w).

Definition bind {A B : Type} (m : M A) (k : A -> M B) : M B :=
  fun w =>
    match m w with
    | (inl e, w') => (inl e, w')
    | (inr a, w') => k a w'
    end.

Definition raise {A : Type} (e : exn) : M A := fun w => (inl e, w).

(** [try: m  except Exception as e: h e] *)
Definition try_except {A : Type} (m : M A) (h : exn -> M A) : M A :=
  fun w =>
    match m w with
    | (inl e, w') => h e w'
    | (inr a, w') => (inr a, w')
    end.

(** A pure library call that may raise. *)
Definition lift {A : Type} (r : exn + A) : M A := fun w => (r, w).

Declare Scope monad_scope.
Delimit Scope monad_scope with monad.
Notation "x <- m ;; k" := (bind m (fun x => k))
  (at level 61, m at next level, right associativity) : monad_scope.
Notation "m ;; k" := (bind m (fun _ => k))
  (at level 61, right associativity) : monad_scope.
Local Open Scope monad_scope.

(** [print(s)] *)
Definition print (s : string) : M unit :=
  fun w => (inr tt, set_stdout (stdout w ++ [s]) w).

(** [datetime.now()] *)
Definition datetime_now : M datetime :=
  fun w => let (t, o) := draw (clock w) in (inr (Naive t), set_clock o w).

(** The clock as SQLite reads it for [DEFAULT CURRENT_TIMESTAMP]. *)
Definition sqlite_now `{Runtime} : M string :=
  fun w => let (t, o) := draw (clock w) in
           (inr (CURRENT_TIMESTAMP t), set_clock o w).

(** ** The sqlite driver *)

(** Every call into the driver first asks the environment whether it
    raises (a locked file, a full disk, a value that cannot be bound...). *)
Definition driver_call : M unit :=
  fun w => let (r, o) := draw (driver w) in
           (match r with Some e => inl e | None => inr tt end, set_driver o w).

Definition closed_error : exn :=
  Sqlite3Error "Cannot operate on a closed database.".

(** [connect(path)]: the connection starts from the committed contents. *)
Definition connect : M unit :=
  driver_call ;; fun w => (inr tt, set_session (Some (disk w)) w).

(** [close()]: what was not committed is lost. *)
Definition close : M unit :=
  fun w => (inr tt, set_session None w).

(** [execute] of a [SELECT]; the result is the cursor's pending rows. *)
Definition execute_query {R : Type} (q : Database -> list R) : M (list R) :=
  driver_call ;;
  fun w => match session w with
           | Some db => (inr (q db), w)
           | None => (inl closed_error, w)
           end.

(** [execute] of an [INSERT] or [UPDATE], inside the open transaction. *)
Definition execute_update (f : Database -> exn + Database) : M unit :=
  driver_call ;;
  fun w => match session w with
           | Some db =>
               match f db with
               | inr db' => (inr tt, set_session (Some db') w)
               | inl e => (inl e, w)
               end
           | None => (inl closed_error, w)
           end.

Definition fetchone {R : Type} (cursor : list R) : M (option R) :=
  driver_call ;; ret (hd_error cursor).

Definition commit : M unit :=
  driver_call ;;
  fun w => match session w with
           | Some db => (inr tt, set_disk db w)
           | None => (inl closed_error, w)
           end.

(** [async with aiosqlite.connect(path) as db: body]: the connection is
    closed however the body is left. *)
Definition async_with_connect {A : Type} (body : M A) : M A :=
  connect ;;
  fun w => let (r, w') := body w in (r, snd (close w')).

(** ** The SQL statements of the two programs *)

(** [SELECT version FROM customer_instances WHERE customer_id = ?] *)
Definition select_instance_version (cid : string) (db : Database)
  : list string :=
  map CustomerInstance.version
      (filter (fun r => CustomerInstance.customer_id r == cid)
              (customer_instances db)).

(** [UPDATE customer_instances SET version = ?, url = ?, health_status = ?,
    last_heartbeat = ?, total_users = ?, total_messages = ?
    WHERE customer_id = ?] *)
Definition update_instance_row `{Runtime}
    (version url health timestamp : string)
    (total_users total_messages : Z) (cid : string)
    (r : CustomerInstance.t) : CustomerInstance.t :=
  if CustomerInstance.customer_id r == cid then
    CustomerInstance.mk (CustomerInstance.customer_id r) version url
      (Some health) (numeric_affinity timestamp)
      (CustomerInstance.first_seen r)
      (Some total_users) (Some total_messages)
  else r.

Definition update_instance `{Runtime}
    (version url health timestamp : string)
    (total_users total_messages : Z) (cid : string) (db : Database)
  : exn + Database :=
  inr (mkDatabase
         (map (update_instance_row version url health timestamp
                 total_users total_messages cid) (customer_instances db))
         (version_history db) (version_history_seq db) (licenses db)).

(** The row id an [AUTOINCREMENT] column gives to the next row: one more
    than the largest id the table has ever held. *)
Definition next_history_id (db : Database) : Z :=
  Z.max (version_history_seq db)
        (fold_right Z.max 0 (map VersionHistory.id (version_history db))) + 1.

(** [INSERT INTO version_history (customer_id, old_version, new_version)
    VALUES (?, ?, ?)]; [updated_at] takes its default. *)
Definition insert_version_history (now cid old_version new_version : string)
    (db : Database) : exn + Database :=
  let id := next_history_id db in
  inr (mkDatabase (customer_instances db)
         (version_history db ++
            [VersionHistory.mk id (Some cid) (Some old_version)
               (Some new_version) (Some now)])
         id (licenses db)).

(** [INSERT INTO customer_instances (customer_id, version, url,
    health_status, last_heartbeat, total_users, total_messages)
    VALUES (?, ?, ?, ?, ?, ?, ?)]; [first_seen] takes its default. *)
Definition insert_instance `{Runtime}
    (now cid version url health timestamp : string)
    (total_users total_messages : Z) (db : Database) : exn + Database :=
  if existsb (fun r => CustomerInstance.customer_id r == cid)
             (customer_instances db)
  then inl (Sqlite3Error
              "UNIQUE constraint failed: customer_instances.customer_id")
  else inr (mkDatabase
              (customer_instances db ++
                 [CustomerInstance.mk cid version url (Some health)
                    (numeric_affinity timestamp) (Some now)
                    (Some total_users) (Some total_messages)])
              (version_history db) (version_history_seq db) (licenses db)).

(** [SELECT * FROM licenses WHERE license_key = ?] *)
Definition select_license (key : string) (db : Database) : list License.t :=
  filter (fun r => License.license_key r == key) (licenses db).

(** [UPDATE licenses SET last_validated = ? WHERE license_key = ?] *)
Definition update_last_validated_row (ts key : string) (r : License.t)
  : License.t :=
  if License.license_key r == key then
    License.mk (License.license_key r) (License.customer_id r)
      (License.customer_name r) (License.plan r) (License.status r)
      (License.created_at r) (License.expires_at r) (Some ts)
  else r.

Definition update_last_validated (ts key : string) (db : Database)
  : exn + Database :=
  inr (mkDatabase (customer_instances db) (version_history db)
         (version_history_seq db)
         (map (update_last_validated_row ts key) (licenses db))).

(** [SELECT license_key FROM licenses WHERE customer_id = ?] *)
Definition select_license_key_of (cid : string) (db : Database)
  : list string :=
  map License.license_key
      (filter (fun r => License.customer_id r == cid) (licenses db)).

(** [INSERT INTO licenses (license_key, customer_id, customer_name, plan,
    status, expires_at) VALUES (?, ?, ?, ?, 'active', ?)]; [license_key] is
    the primary key and [customer_id] is [UNIQUE]; [created_at] takes its
    default and [last_validated] stays null. *)
Definition insert_license (now key cid name plan : string)
    (expires_at : option string) (db : Database) : exn + Database :=
  if existsb (fun r => License.license_key r == key) (licenses db)
  then inl (Sqlite3Error "UNIQUE constraint failed: licenses.license_key")
  else if existsb (fun r => License.customer_id r == cid) (licenses db)
  then inl (Sqlite3Error "UNIQUE constraint failed: licenses.customer_id")
  else inr (mkDatabase (customer_instances db) (version_history db)
              (version_history_seq db)
              (licenses db ++
                 [License.mk key cid name (Some plan) (Some "active")
                    (Some now) expires_at None])).

(** ** main.py *)

Module InstanceRegistration.
Record t : Type := mk {
  customer_id : string;
  version : string;
  url : string;
  health : string;
  timestamp : string;
  total_users : Z;
  total_messages : Z
}.
End InstanceRegistration.

Module LicenseValidation.
Record t : Type := mk {
  license_key : string;
  customer_id : string;
  app_version : string;
  timestamp : string
}.
End LicenseValidation.

Record HTTPBasicCredentials : Type := mkCredentials {
  username : string;
  password : string
}.

(** The module-level configuration. *)
Record Settings : Type := mkSettings {
  LATEST_VERSION : string;
  DATABASE_PATH : string;
  MASTER_ADMIN_USERNAME : string;
  MASTER_ADMIN_PASSWORD : string;
  LICENSE_SECRET : string
}.

(** [os.getenv(name, default)] *)
Fixpoint getenv (environ : list (string * string)) (name default : string)
  : string :=
  match environ with
  | [] => default
  | (k, v) :: rest => if k == name then v else getenv rest name default
  end.

Definition load_settings (environ : list (string * string)) : Settings :=
  mkSettings "1.0.0" "instances.db"
    (getenv environ "MASTER_ADMIN_USERNAME" "admin")
    (getenv environ "MASTER_ADMIN_PASSWORD" "changeme123")
    (getenv environ "LICENSE_SECRET" "change-this-secret-key-in-production").

Section Handlers.
Context `{Runtime}.

Definition register_instance (registration : InstanceRegistration.t)
  : M Response :=
  let customer_id := InstanceRegistration.customer_id registration in
  let version := InstanceRegistration.version registration in
  try_except
    (async_with_connect
       (cursor <- execute_query (select_instance_version customer_id) ;;
        row <- fetchone cursor ;;
        match row with
        | Some old_version =>
            execute_update
              (update_instance version
                 (InstanceRegistration.url registration)
                 (InstanceRegistration.health registration)
                 (InstanceRegistration.timestamp registration)
                 (InstanceRegistration.total_users registration)
                 (InstanceRegistration.total_messages registration)
                 customer_id) ;;
            (if negb (old_version == version) then
               now <- sqlite_now ;;
               execute_update
                 (insert_version_history now customer_id old_version version)
             else ret tt) ;;
            commit
        | None =>
            now <- sqlite_now ;;
            execute_update
              (insert_instance now customer_id version
                 (InstanceRegistration.url registration)
                 (InstanceRegistration.health registration)
                 (InstanceRegistration.timestamp registration)
                 (InstanceRegistration.total_users registration)
                 (InstanceRegistration.total_messages registration)) ;;
            commit
        end) ;;
     ret (dict_response [("status", JStr "success");
                         ("message", JStr "Instance registered")]))
    (fun e =>
       ret (JSONResponse 500 [("status", JStr "error");
                              ("message", JStr (str_exn e))])).

Definition error_body (code message : string) : list (string * json) :=
  [("valid", JBool false); ("error", JStr code); ("message", JStr message)].

(** [license_data['status'] != 'active'] *)
Definition status_inactive (license_data : License.t) : bool :=
  match License.status license_data with
  | Some s => negb (s == "active")
  | None => true
  end.

(** The expiry check: the parsed [expires_at] when the licence is
    expired, [None] when it is not. *)
Definition check_expired (license_data : License.t)
  : M (option datetime) :=
  match License.expires_at license_data with
  | Some text =>
      if truthy_str text then
        expires_at <- lift (fromisoformat text) ;;
        now <- datetime_now ;;
        late <- lift (datetime_gt now expires_at) ;;
        ret (if late then Some expires_at else None)
      else ret None
  | None => ret None
  end.

Definition validate_license (validation : LicenseValidation.t)
  : M Response :=
  let license_key := LicenseValidation.license_key validation in
  try_except
    (async_with_connect
       (cursor <- execute_query (select_license license_key) ;;
        license_row <- fetchone cursor ;;
        match license_row with
        | None =>
            ret (JSONResponse 401
                   (error_body "INVALID_LICENSE" "License key not found"))
        | Some license_data =>
            if status_inactive license_data then
              ret (JSONResponse 401
                     (error_body "LICENSE_INACTIVE"
                        ("License status: " ++
                         fmt_cell (License.status license_data))))
            else
              expired <- check_expired license_data ;;
              match expired with
              | Some expires_at =>
                  ret (JSONResponse 401
                         (error_body "LICENSE_EXPIRED"
                            ("License expired on " ++
                             strftime_ymd expires_at)))
              | None =>
                  if negb (License.customer_id license_data ==
                           LicenseValidation.customer_id validation) then
                    ret (JSONResponse 401
                           (error_body "CUSTOMER_MISMATCH"
                              "License key does not match customer ID"))
                  else
                    now <- datetime_now ;;
                    execute_update
                      (update_last_validated (isoformat now) license_key) ;;
                    commit ;;
                    ret (dict_response
                           [("valid", JBool true);
                            ("customer_name",
                             JStr (License.customer_name license_data));
                            ("plan",
                             json_of_cell (License.plan license_data));
                            ("expires_at",
                             json_of_cell (License.expires_at license_data));
                            ("message", JStr "License valid")])
              end
        end))
    (fun e =>
       ret (JSONResponse 500
              (error_body "VALIDATION_ERROR" (str_exn e)))).

End Handlers.

(** [secrets.compare_digest(a, b)] on two [str]: it refuses text that is
    not plain ASCII. *)
Definition is_ascii (s : string) : bool :=
  forallb (fun c => (N_of_ascii c <? 128)%N) (list_ascii_of_string s).

Definition compare_digest (a b : string) : exn + bool :=
  if is_ascii a && is_ascii b then inr (a == b)
  else inl (TypeError
              "comparing strings with non-ASCII characters is not supported").

Definition verify_master_admin (settings : Settings)
    (credentials : HTTPBasicCredentials) : M string :=
  correct_username <-
    lift (compare_digest (username credentials)
                         (MASTER_ADMIN_USERNAME settings)) ;;
  correct_password <-
    lift (compare_digest (password credentials)
                         (MASTER_ADMIN_PASSWORD settings)) ;;
  if negb (correct_username && correct_password) then
    raise (HTTPException 401 "Incorrect credentials"
             [("WWW-Authenticate", "Basic")])
  else ret (username credentials).

(** ** generate_license.py *)

(** [os.urandom]: the next byte of the system's random source. *)
Definition urandom_byte : M byte :=
  fun w => let (b, o) := draw (urandom w) in (inr b, set_urandom o w).

(** [secrets.token_bytes(n)] *)
Fixpoint token_bytes (n : nat) : M (list byte) :=
  match n with
  | O => ret []
  | S k => b <- urandom_byte ;; bs <- token_bytes k ;; ret (b :: bs)
  end.

Definition hex_digit (n : N) : ascii :=
  match String.get (N.to_nat n) "0123456789abcdef" with
  | Some c => c
  | None => "0"%char
  end.

(** [binascii.hexlify(bs).decode('ascii')]: two digits for each byte. *)
Fixpoint hexlify (bs : list byte) : string :=
  match bs with
  | [] => ""
  | b :: rest =>
      String (hex_digit (Byte.to_N b / 16))
             (String (hex_digit (Byte.to_N b mod 16)) (hexlify rest))
  end.

(** [secrets.token_hex(nbytes)] *)
Definition token_hex (nbytes : nat) : M string :=
  bs <- token_bytes nbytes ;; ret (hexlify bs).

(** [str.upper()], on the ASCII text that [token_hex] returns. *)
Definition upper_char (c : ascii) : ascii :=
  let n := N_of_ascii c in
  if ((97 <=? n) && (n <=? 122))%N then ascii_of_N (n - 32) else c.

Fixpoint upper (s : string) : string :=
  match s with
  | EmptyString => EmptyString
  | String c rest => String (upper_char c) (upper rest)
  end.

(** [[m for _ in range(n)]] *)
Fixpoint comprehension {A : Type} (n : nat) (m : M A) : M (list A) :=
  match n with
  | O => ret []
  | S k => x <- m ;; xs <- comprehension k m ;; ret (x :: xs)
  end.

Definition generate_license_key : M string :=
  parts <- comprehension 4 (t <- token_hex 4 ;; ret (upper t)) ;;
  ret ("HL-" ++ String.concat "-" parts).

(** The plans that the command line accepts. *)
Inductive plan_choice : Type := standard | pro | enterprise.

Definition plan_name (p : plan_choice) : string :=
  match p with
  | standard => "standard"
  | pro => "pro"
  | enterprise => "enterprise"
  end.

Section KeyGenerator.
Context `{Runtime}.

(** The two [except] clauses of [create_license]. *)
Definition create_license_except (e : exn) : M (option string) :=
  if is_sqlite3_error e then
    print ("❌ Database error: " ++ str_exn e) ;; ret None
  else
    print ("❌ Error: " ++ str_exn e) ;; ret None.

(** The expiration that [create_license] computes from [months]. *)
Definition compute_expiration (months : option Z) : M (option string) :=
  match months with
  | Some m =>
      if negb (m =? 0) then
        now <- datetime_now ;;
        delta <- lift (timedelta_days (m * 30)) ;;
        expiry <- lift (datetime_add now delta) ;;
        ret (Some (isoformat expiry))
      else ret None
  | None => ret None
  end.

(** [f"{months}"] *)
Definition fmt_months (months : option Z) : string :=
  match months with Some m => str_int m | None => "None" end.

Definition create_license (customer_id customer_name : string)
    (plan_arg : arg string) (months_arg : arg (option Z))
  : M (option string) :=
  let plan := with_default "standard" plan_arg in
  let months := with_default (Some 12) months_arg in
  try_except
    (connect ;;
     cursor <- execute_query (select_license_key_of customer_id) ;;
     existing <- fetchone cursor ;;
     match existing with
     | Some existing_key =>
         print ("❌ Error: Customer '" ++ customer_id ++
                "' already has a license: " ++ existing_key) ;;
         print "   Use revoke_license.py to revoke it first, or update_license.py to extend." ;;
         close ;;
         ret None
     | None =>
         license_key <- generate_license_key ;;
         expires_at <- compute_expiration months ;;
         now <- sqlite_now ;;
         execute_update
           (insert_license now license_key customer_id customer_name plan
              expires_at) ;;
         commit ;;
         close ;;
         print (nl ++ str_mul "=" 70) ;;
         print "✅ LICENSE CREATED SUCCESSFULLY" ;;
         print (str_mul "=" 70) ;;
         print (nl ++ "Customer ID:   " ++ customer_id) ;;
         print ("Customer Name: " ++ customer_name) ;;
         print ("Plan:          " ++ plan) ;;
         print "Status:        active" ;;
         (if truthy_cell expires_at then
            expiry <- lift (fromisoformat (fmt_cell expires_at)) ;;
            print ("Expires:       " ++ strftime_ymd expiry ++
                   " (" ++ fmt_months months ++ " months)")
          else print "Expires:       Never (lifetime)") ;;
         print (nl ++ "🔑 LICENSE KEY:") ;;
         print ("   " ++ license_key) ;;
         print (nl ++ str_mul "=" 70) ;;
         print (nl ++ "📧 Send this to customer:") ;;
         print (nl ++ "   Welcome to HushLane!") ;;
         print ("   Your License Key: " ++ license_key) ;;
         print ("   Customer ID: " ++ customer_id) ;;
         print (nl ++ "   Add this to your .env file:") ;;
         print ("   LICENSE_KEY=" ++ license_key) ;;
         print ("   CUSTOMER_ID=" ++ customer_id) ;;
         print (nl ++ str_mul "=" 70 ++ nl) ;;
         ret (Some license_key)
     end)
    create_license_except.

(** The arguments of the [create] command, after [argparse] has filled
    in the defaults of [--plan] and [--months]. *)
Record CreateArgs : Type := mkCreateArgs {
  args_customer_id : string;
  args_customer_name : string;
  args_plan : string;
  args_months : Z
}.

Definition parse_create (customer_id customer_name : string)
    (plan : arg plan_choice) (months : arg Z) : CreateArgs :=
  mkCreateArgs customer_id customer_name
    (plan_name (with_default standard plan)) (with_default 12 months).

(** The [create] branch of [main]. *)
Definition main_create (args : CreateArgs) : M unit :=
  let months :=
    if args_months args =? 0 then None else Some (args_months args) in
  create_license (args_customer_id args) (args_customer_name args)
    (Given (args_plan args)) (Given months) ;;
  ret tt.

End KeyGenerator.

(** ** Queries that order their rows

    [ORDER BY column DESC] belongs to SQLite.  The development takes it as
    a parameter: whatever the order of the rows it returns, they are the
    rows of the table. *)
Class SqlEngine : Type := {
  order_by_desc :
    forall R : Type, (R -> sqlvalue) -> list R -> list R;
  order_by_desc_permutation :
    forall (R : Type) (column : R -> sqlvalue) (rows : list R),
      Permutation rows (order_by_desc column rows)
}.

(** [cursor.fetchall()] *)
Definition fetchall {R : Type} (cursor : list R) : M (list R) :=
  driver_call ;; ret cursor.

(** [SELECT * FROM customer_instances ORDER BY last_heartbeat DESC] *)
Definition select_instances_by_heartbeat `{SqlEngine} (db : Database)
  : list CustomerInstance.t :=
  order_by_desc CustomerInstance.last_heartbeat (customer_instances db).

(** [SELECT * FROM version_history ORDER BY updated_at DESC LIMIT 10] *)
Definition select_recent_history `{SqlEngine} (db : Database)
  : list VersionHistory.t :=
  firstn 10
    (order_by_desc (fun r => text_cell (VersionHistory.updated_at r))
       (version_history db)).

(** [SELECT license_key, customer_id, customer_name, plan, status,
    created_at, expires_at, last_validated FROM licenses
    ORDER BY created_at DESC] *)
Definition select_licenses_by_creation `{SqlEngine} (db : Database)
  : list License.t :=
  order_by_desc (fun r => text_cell (License.created_at r)) (licenses db).

(** ** main.py: the administrator's dashboard *)

(** [sum(1 for i in items if p(i))] *)
Fixpoint sum_ones {A : Type} (p : A -> bool) (items : list A) : Z :=
  match items with
  | [] => 0
  | i :: rest => if p i then 1 + sum_ones p rest else sum_ones p rest
  end.

(** [len(items)] *)
Definition len {A : Type} (items : list A) : Z := Z.of_nat (List.length items).

(** The values handed to the template [admin_dashboard.html]. *)
Record DashboardContext : Type := mkDashboardContext {
  instances : list CustomerInstance.t;
  total_customers : Z;
  healthy_count : Z;
  outdated_count : Z;
  recent_updates : list VersionHistory.t;
  latest_version : string
}.

Section Dashboard.
Context `{SqlEngine}.

(** The handler, up to the rendering of its template.  It has no [try]:
    what the driver raises leaves the handler. *)
Definition master_admin_dashboard (settings : Settings) (username : string)
  : M DashboardContext :=
  async_with_connect
    (cursor <- execute_query select_instances_by_heartbeat ;;
     instances_rows <- fetchall cursor ;;
     let instances := instances_rows in
     let total_customers := len instances in
     let healthy_count :=
       sum_ones (fun i => match CustomerInstance.health_status i with
                          | Some h => h == "healthy"
                          | None => false
                          end) instances in
     let outdated_count :=
       sum_ones (fun i => negb (CustomerInstance.version i ==
                                LATEST_VERSION settings)) instances in
     cursor <- execute_query select_recent_history ;;
     updates_rows <- fetchall cursor ;;
     ret (mkDashboardContext instances total_customers healthy_count
            outdated_count updates_rows (LATEST_VERSION settings))).

(** [GET /admin]: the handler depends on [verify_master_admin], which runs
    first and whose result is the handler's [username]. *)
Definition admin_route (settings : Settings)
    (credentials : HTTPBasicCredentials) : M DashboardContext :=
  username <- verify_master_admin settings credentials ;;
  master_admin_dashboard settings username.

End Dashboard.

(** ** generate_license.py: the listing *)

(** [try: m  except sqlite3.Error as e: h e]: any other exception leaves
    the block. *)
Definition try_except_sqlite3 {A : Type} (m : M A) (h : exn -> M A) : M A :=
  fun w =>
    match m w with
    | (inl e, w') => if is_sqlite3_error e then h e w' else (inl e, w')
    | (inr a, w') => (inr a, w')
    end.

(** [len(s)] for a [str]: its code points, the bytes of the UTF-8 encoding
    that do not continue a character. *)
Fixpoint str_len (s : string) : nat :=
  match s with
  | EmptyString => O
  | String c rest =>
      let n := N_of_ascii c in
      if ((128 <=? n) && (n <? 192))%N then str_len rest
      else S (str_len rest)
  end.

(** [f"{s:<width}"] for a [str] *)
Definition ljust (width : nat) (s : string) : string :=
  s ++ str_mul " " (width - str_len s).

(** [f"{c:<width}"] for a cell: [None] has no such format. *)
Definition ljust_cell (width : nat) (c : option string) : exn + string :=
  match c with
  | Some s => inr (ljust width s)
  | None =>
      inl (TypeError
             "unsupported format string passed to NoneType.__format__")
  end.

(** [a - b] on two [datetime]s, in microseconds *)
Definition datetime_sub (a b : datetime) : exn + Z :=
  match a, b with
  | Naive x, Naive y => inr (x - y)
  | Aware x ox, Aware y oy => inr ((x - ox) - (y - oy))
  | _, _ =>
      inl (TypeError "can't subtract offset-naive and offset-aware datetimes")
  end.

(** [delta.days] *)
Definition timedelta_in_days (delta : Z) : Z := delta / us_per_day.

(** [for x in items: body x] *)
Fixpoint for_each {A : Type} (items : list A) (body : A -> M unit) : M unit :=
  match items with
  | [] => ret tt
  | x :: rest => body x ;; for_each rest body
  end.

Section Listing.
Context `{Runtime} `{SqlEngine}.

(** The text of the column Expires for one licence. *)
Definition expires_column (lic : License.t) : M string :=
  match License.expires_at lic with
  | Some text =>
      if truthy_str text then
        exp_date <- lift (fromisoformat text) ;;
        now <- datetime_now ;;
        past <- lift (datetime_gt now exp_date) ;;
        if past then ret ("EXPIRED " ++ strftime_ymd exp_date)
        else
          now <- datetime_now ;;
          delta <- lift (datetime_sub exp_date now) ;;
          let days_left := timedelta_in_days delta in
          ret (strftime_ymd exp_date ++ " (" ++ str_int days_left ++ "d)")
      else ret "Never"
  | None => ret "Never"
  end.

(** The body of the loop of [list_licenses]. *)
Definition print_license (lic : License.t) : M unit :=
  expires <- expires_column lic ;;
  plan <- lift (ljust_cell 12 (License.plan lic)) ;;
  status <- lift (ljust_cell 10 (License.status lic)) ;;
  print (ljust 15 (License.customer_id lic) ++ " " ++
         ljust 25 (License.customer_name lic) ++ " " ++
         plan ++ " " ++ status ++ " " ++
         ljust 12 expires ++ " " ++
         ljust 20 (License.license_key lic)).

Definition list_licenses : M unit :=
  try_except_sqlite3
    (connect ;;
     cursor <- execute_query select_licenses_by_creation ;;
     licenses <- fetchall cursor ;;
     close ;;
     match licenses with
     | [] => print (nl ++ "📋 No licenses found" ++ nl)
     | _ =>
         print (nl ++ str_mul "=" 120) ;;
         print "📋 ALL LICENSES" ;;
         print (str_mul "=" 120) ;;
         print (ljust 15 "Customer ID" ++ " " ++ ljust 25 "Customer Name" ++
                " " ++ ljust 12 "Plan" ++ " " ++ ljust 10 "Status" ++ " " ++
                ljust 12 "Expires" ++ " " ++ ljust 20 "License Key") ;;
         print (str_mul "-" 120) ;;
         for_each licenses print_license ;;
         print (str_mul "=" 120 ++ nl)
     end)
    (fun e => print ("❌ Database error: " ++ str_exn e)).

End Listing.

(** ** A reference run-time

    The proleptic Gregorian calendar and the ISO 8601 text that
    [datetime.isoformat] writes, used to run the model on concrete data. *)
Module Reference.

Definition is_leap (y : Z) : bool :=
  ((y mod 4 =? 0) && negb (y mod 100 =? 0)) || (y mod 400 =? 0).

Definition days_in_month (y m : Z) : Z :=
  if m =? 2 then (if is_leap y then 29 else 28)
  else if (m =? 4) || (m =? 6) || (m =? 9) || (m =? 11) then 30
  else 31.

(** Days before 1 January of year [y], counted from 0001-01-01. *)
Definition days_before_year (y : Z) : Z :=
  let p := y - 1 in p * 365 + p / 4 - p / 100 + p / 400.

(** The year holding day number [n] (0 is 0001-01-01). *)
Definition year_of_day (n : Z) : Z :=
  let guess := n * 400 / 146097 + 1 in
  if n <? days_before_year guess then guess - 1
  else if days_before_year (guess + 1) <=? n then guess + 1
  else guess.

(** Month and day of the [n]-th day (from 0) of year [y]. *)
Fixpoint month_day (fuel : nat) (y m n : Z) : Z * Z :=
  match fuel with
  | O => (m, n + 1)
  | S k =>
      if n <? days_in_month y m then (m, n + 1)
      else month_day k y (m + 1) (n - days_in_month y m)
  end.

Definition ymd (day : Z) : Z * Z * Z :=
  let y := year_of_day day in
  let (m, d) := month_day 11 y 1 (day - days_before_year y) in
  (y, m, d).

Definition digit (n : Z) : ascii := ascii_of_N (48 + Z.to_N (n mod 10)).

(** [n] in decimal, padded with zeros to [width] digits. *)
Fixpoint zero_pad (width : nat) (n : Z) (acc : string) : string :=
  match width with
  | O => acc
  | S k => zero_pad k (n / 10) (String (digit n) acc)
  end.

Definition date_text (day : Z) : string :=
  let '(y, m, d) := ymd day in
  zero_pad 4 y ("-" ++ zero_pad 2 m ("-" ++ zero_pad 2 d "")).

Definition time_text (us : Z) : string :=
  let s := us / 1000000 in
  zero_pad 2 (s / 3600)
    (":" ++ zero_pad 2 (s / 60 mod 60) (":" ++ zero_pad 2 (s mod 60) "")).

Definition naive_us (dt : datetime) : Z :=
  match dt with Naive t => t | Aware t _ => t end.

Definition offset_text (dt : datetime) : string :=
  match dt with
  | Naive _ => ""
  | Aware _ off =>
      let m := Z.abs off / 60000000 in
      (if off <? 0 then "-" else "+") ++
      zero_pad 2 (m / 60) (":" ++ zero_pad 2 (m mod 60) "")
  end.

Definition isoformat (dt : datetime) : string :=
  let t := naive_us dt in
  let frac := t mod 1000000 in
  date_text (t / us_per_day) ++ "T" ++ time_text (t mod us_per_day) ++
  (if frac =? 0 then "" else "." ++ zero_pad 6 frac "") ++ offset_text dt.

Definition strftime_ymd (dt : datetime) : string :=
  date_text (naive_us dt / us_per_day).

Definition CURRENT_TIMESTAMP (t : Z) : string :=
  date_text (t / us_per_day) ++ " " ++ time_text (t mod us_per_day).

(** Reading [YYYY-MM-DDTHH:MM:SS] and [YYYY-MM-DDTHH:MM:SS.ffffff]. *)
Definition digit_value (c : ascii) : option Z :=
  let n := N_of_ascii c in
  if ((48 <=? n) && (n <=? 57))%N then Some (Z.of_N n - 48) else None.

Fixpoint number (width : nat) (acc : Z) (s : string) : option (Z * string) :=
  match width with
  | O => Some (acc, s)
  | S k =>
      match s with
      | String c rest =>
          match digit_value c with
          | Some d => number k (acc * 10 + d) rest
          | None => None
          end
      | EmptyString => None
      end
  end.

Definition expect (c : ascii) (s : string) : option string :=
  match s with
  | String c' rest => if Ascii.eqb c c' then Some rest else None
  | EmptyString => None
  end.

Definition option_bind {A B : Type} (o : option A) (k : A -> option B)
  : option B :=
  match o with Some a => k a | None => None end.

Definition parse (s : string) : option Z :=
  option_bind (number 4 0 s) (fun '(y, s) =>
  option_bind (expect "-" s) (fun s =>
  option_bind (number 2 0 s) (fun '(m, s) =>
  option_bind (expect "-" s) (fun s =>
  option_bind (number 2 0 s) (fun '(d, s) =>
  option_bind (expect "T" s) (fun s =>
  option_bind (number 2 0 s) (fun '(hh, s) =>
  option_bind (expect ":" s) (fun s =>
  option_bind (number 2 0 s) (fun '(mm, s) =>
  option_bind (expect ":" s) (fun s =>
  option_bind (number 2 0 s) (fun '(ss, s) =>
  option_bind
    (match s with
     | EmptyString => Some 0
     | String "." rest =>
         match number 6 0 rest with
         | Some (f, EmptyString) => Some f
         | _ => None
         end
     | _ => None
     end) (fun frac =>
  if (1 <=? y) && (1 <=? m) && (m <=? 12) && (1 <=? d) &&
     (d <=? days_in_month y m) && (hh <? 24) && (mm <? 60) && (ss <? 60)
  then
    let before :=
      fold_right Z.add 0
        (map (days_in_month y) (map Z.of_nat (seq 1 (Z.to_nat m - 1)))) in
    Some ((days_before_year y + before + d - 1) * us_per_day +
          ((hh * 60 + mm) * 60 + ss) * 1000000 + frac)
  else None)))))))))))).

Definition fromisoformat (s : string) : exn + datetime :=
  match parse s with
  | Some t => inr (Naive t)
  | None => inl (ValueError ("Invalid isoformat string: '" ++ s ++ "'"))
  end.

Lemma fromisoformat_empty : forall d, fromisoformat "" <> inr d.
Proof. intros d; discriminate. Qed.

(** The 64-bit float nearest to [m * 10 ^ e], ties to even.  A number
    that lies above every float is read as infinity, one below every
    float but zero as zero; the guards only spare the large powers. *)
Definition nearest_double (minus : bool) (m e : Z) : spec_float :=
  match m with
  | Zpos p =>
      if 400 <? e then S754_infinity minus
      else if e + Z.log2 m / 3 <? - 400 then S754_zero minus
      else if 0 <=? e then
        binary_normalize 53 1024 (if minus then - (m * 10 ^ e) else m * 10 ^ e)
          0 minus
      else
        SFdiv 53 1024 (S754_finite minus p 0)
          (S754_finite false (Z.to_pos (10 ^ (- e))) 0)
  | _ => S754_zero minus
  end.

(** Reading a number literal as the nearest float, as recent versions of
    SQLite do. *)
Definition text_to_real (s : string) : spec_float :=
  match read_literal s with
  | Some l => nearest_double (negative l) (significand l) (exponent10 l)
  | None => S754_zero false
  end.

Definition runtime : Runtime :=
  Build_Runtime isoformat fromisoformat strftime_ymd CURRENT_TIMESTAMP
    text_to_real fromisoformat_empty.

End Reference.

(** ** A reference ordering

    An insertion sort on SQLite's order of values: [NULL] is the smallest,
    then come the numbers by their value, then the texts, which compare
    byte by byte. *)
Module ReferenceOrder.

(** A number as a signed multiple of a power of two, or an infinity. *)
Inductive number : Type :=
| Finite (m e : Z)
| Infinite (minus : bool).

Definition number_of_real (r : spec_float) : number :=
  match r with
  | S754_zero _ | S754_nan => Finite 0 0
  | S754_infinity minus => Infinite minus
  | S754_finite minus m e => Finite (if minus then Zneg m else Zpos m) e
  end.

Definition number_ge (a b : number) : bool :=
  match a, b with
  | Infinite false, _ => true
  | _, Infinite true => true
  | Infinite true, _ => false
  | _, Infinite false => false
  | Finite m1 e1, Finite m2 e2 =>
      let e := Z.min e1 e2 in
      m2 * 2 ^ (e2 - e) <=? m1 * 2 ^ (e1 - e)
  end.

Definition number_of (v : sqlvalue) : option number :=
  match v with
  | SqlInteger i => Some (Finite i 0)
  | SqlReal r => Some (number_of_real r)
  | _ => None
  end.

Definition cell_ge (a b : sqlvalue) : bool :=
  match a, b with
  | _, SqlNull => true
  | SqlNull, _ => false
  | SqlText x, SqlText y => String.leb y x
  | SqlText _, _ => true
  | _, SqlText _ => false
  | _, _ =>
      match number_of a, number_of b with
      | Some x, Some y => number_ge x y
      | _, _ => true
      end
  end.

Fixpoint insert_desc {R : Type} (column : R -> sqlvalue) (x : R)
    (rows : list R) : list R :=
  match rows with
  | [] => [x]
  | y :: rest =>
      if cell_ge (column x) (column y) then x :: y :: rest
      else y :: insert_desc column x rest
  end.

Definition order_by_desc (R : Type) (column : R -> sqlvalue)
    (rows : list R) : list R :=
  fold_right (insert_desc column) [] rows.

Lemma insert_desc_permutation {R : Type} (column : R -> sqlvalue)
    (x : R) (rows : list R) :
  Permutation (x :: rows) (insert_desc column x rows).
Proof.
  induction rows as [|y rest IH]; cbn; [reflexivity|].
  destruct (cell_ge (column x) (column y)); [reflexivity|].
  rewrite perm_swap. now constructor.
Qed.

Lemma order_by_desc_permutation (R : Type) (column : R -> sqlvalue)
    (rows : list R) :
  Permutation rows (order_by_desc column rows).
Proof.
  induction rows as [|x rest IH]; cbn; [constructor|].
  rewrite <- insert_desc_permutation. now constructor.
Qed.

Definition engine : SqlEngine :=
  Build_SqlEngine order_by_desc order_by_desc_permutation.

End ReferenceOrder.

(** ** Sample data *)
Module Sample.

(** An oracle that always gives the same answer. *)
Definition always {A : Type} (a : A) : Oracle A := mkOracle (fun _ => a) 0.

(** 2025-11-03T15:26:00, then one reading every millisecond. *)
Definition now : Z := 63897780360000000.
Definition ticking : Oracle Z := mkOracle (fun n => now + Z.of_nat n * 1000) 0.

Definition noise : Oracle byte :=
  mkOracle (fun n => nth (n mod 5) [x0f; x3a; x9c; x21; xe4] x00) 0.

Definition acme : License.t :=
  License.mk "HL-0F3A9C21-77B0E4D2-5A6C1F08-C4E19B3D" "acme" "Acme Corp"
    (Some "standard") (Some "active") (Some "2025-01-10 09:00:00")
    (Some "2026-01-05T09:00:00.250000") None.

Definition globex : License.t :=
  License.mk "HL-11112222-33334444-55556666-77778888" "globex" "Globex"
    (Some "pro") (Some "revoked") (Some "2024-03-01 12:00:00")
    (Some "2025-02-24T12:00:00") (Some "2025-02-01T08:30:00").

Definition initech : License.t :=
  License.mk "HL-AAAABBBB-CCCCDDDD-EEEEFFFF-00001111" "initech" "Initech"
    (Some "enterprise") (Some "active") (Some "2024-07-05 10:00:00")
    (Some "2025-06-30T10:00:00") None.

Definition umbrella : License.t :=
  License.mk "HL-DEADBEEF-0BADF00D-CAFEBABE-8BADF00D" "umbrella" "Umbrella"
    (Some "standard") (Some "active") (Some "2025-05-05 05:05:05")
    None None.

Definition acme_instance : CustomerInstance.t :=
  CustomerInstance.mk "acme" "1.0.0" "https://chat.acme.example"
    (Some "healthy") (SqlText "2025-11-03T15:00:00")
    (Some "2025-01-11 08:00:00") (Some 42) (Some 1000).

Definition globex_instance : CustomerInstance.t :=
  CustomerInstance.mk "globex" "0.9.0" "https://globex.example"
    (Some "degraded") (SqlText "2025-02-01T08:30:00")
    (Some "2024-03-02 07:00:00") (Some 7) (Some 120).

Definition db : Database :=
  mkDatabase [acme_instance; globex_instance] [] 0
    [acme; globex; initech; umbrella].

Definition world : World :=
  mkWorld db None (always None) ticking noise [].

(** The same, with the driver raising at its [k]-th call. *)
Definition failing_at (k : nat) (e : exn) : World :=
  mkWorld db None
    (mkOracle (fun n => if Nat.eqb n k then Some e else None) 0)
    ticking noise [].

Definition request (key cid : string) : LicenseValidation.t :=
  LicenseValidation.mk key cid "1.0.0" "2025-11-03T15:26:00".

End Sample.

(** ** A reference run-time that reads UTC offsets

    As [Reference], and a text ending in "+00:00" is read as an aware
    [datetime] of offset zero. *)
Module ReferenceOffset.

Definition fromisoformat (s : string) : exn + datetime :=
  let n := String.length s in
  if (6 <=? n)%nat && (String.substring (n - 6) 6 s == "+00:00") then
    match Reference.parse (String.substring 0 (n - 6) s) with
    | Some t => inr (Aware t 0)
    | None => inl (ValueError ("Invalid isoformat string: '" ++ s ++ "'"))
    end
  else Reference.fromisoformat s.

Lemma fromisoformat_offset_empty : forall d, fromisoformat "" <> inr d.
Proof. intros d; discriminate. Qed.

Definition runtime : Runtime :=
  Build_Runtime Reference.isoformat fromisoformat Reference.strftime_ymd
    Reference.CURRENT_TIMESTAMP Reference.text_to_real
    fromisoformat_offset_empty.

End ReferenceOffset.

(** ** Sample scenarios *)
Module Scenario.

(** The world in which the next request or command runs: what was
    committed stays, and no connection is open. *)
Definition next (w : World) : World :=
  mkWorld (disk w) None (driver w) (clock w) (urandom w) (stdout w).

Definition world_of (db : Database) : World :=
  mkWorld db None (Sample.always None) Sample.ticking Sample.noise [].

(** A licence whose expiry was typed by hand. *)
Definition handwritten : License.t :=
  License.mk "HL-12345678-12345678-12345678-12345678" "hooli" "Hooli"
    (Some "pro") (Some "active") (Some "2025-02-02 02:02:02")
    (Some "next year") None.

(** A licence whose expiry carries a UTC offset. *)
Definition with_offset : License.t :=
  License.mk "HL-87654321-87654321-87654321-87654321" "pied" "Pied Piper"
    (Some "pro") (Some "active") (Some "2025-02-02 02:02:02")
    (Some "2026-01-05T09:00:00+00:00") None.

(** A licence that holds the key which the sample random source yields. *)
Definition taken : License.t :=
  License.mk "HL-0F3A9C21-E40F3A9C-21E40F3A-9C21E40F" "stark" "Stark"
    (Some "standard") (Some "active") (Some "2025-03-03 03:03:03")
    None None.

Definition odd_db : Database :=
  mkDatabase [] [] 0 [handwritten; with_offset; taken].

Definition empty_db : Database := mkDatabase [] [] 0 [].

Definition acme_again : InstanceRegistration.t :=
  InstanceRegistration.mk "acme" "1.1.0" "https://chat.acme.example"
    "healthy" "2025-11-03T15:26:00" 45 1100.

Definition hooli_first : InstanceRegistration.t :=
  InstanceRegistration.mk "hooli" "1.0.0" "https://hooli.example"
    "healthy" "2025-11-03T15:26:00" 3 17.

(** Two clients that send the seconds since 1970 as their timestamp. *)
Definition acme_epoch : InstanceRegistration.t :=
  InstanceRegistration.mk "acme" "1.1.0" "https://chat.acme.example"
    "healthy" "1762183560" 45 1100.

Definition hooli_epoch : InstanceRegistration.t :=
  InstanceRegistration.mk "hooli" "1.0.0" "https://hooli.example"
    "healthy" "1762183560" 3 17.

End Scenario.

(** ** Vocabulary of the statements *)

(** The driver raises nowhere. *)
Definition healthy (w : World) : Prop :=
  forall n, feed (driver w) n = None.

(** The [k]-th reading of the clock from now on. *)
Definition reading (w : World) (k : nat) : Z :=
  feed (clock w) (k + used (clock w)).

(** The outcome of the [k]-th call into the driver from now on. *)
Definition outcome (w : World) (k : nat) : option exn :=
  feed (driver w) (k + used (driver w)).

(** The licence that a key denotes, and the licence of a customer. *)
Definition lookup_license (key : string) (db : Database) : option License.t :=
  hd_error (select_license key db).

Definition license_key_of (cid : string) (db : Database) : option string :=
  hd_error (select_license_key_of cid db).

(** The stored version of a customer's instance. *)
Definition stored_version (cid : string) (db : Database) : option string :=
  hd_error (select_instance_version cid db).

(** A licence that does not expire, or whose expiry has not passed at
    time [now]. *)
Definition unexpired `{Runtime} (row : License.t) (now : Z) : Prop :=
  match License.expires_at row with
  | None => True
  | Some text =>
      text = "" \/
      exists t, fromisoformat text = inr (Naive t) /\ now <= t
  end.

(** The success payload built from a stored licence. *)
Definition success_payload (row : License.t) : Response :=
  dict_response
    [("valid", JBool true);
     ("customer_name", JStr (License.customer_name row));
     ("plan", json_of_cell (License.plan row));
     ("expires_at", json_of_cell (License.expires_at row));
     ("message", JStr "License valid")].

(** The clock reading that a passing validation writes: the expiry check
    reads the clock first when the licence has an expiry. *)
Definition write_reading (row : License.t) (w : World) : Z :=
  reading w (if truthy_cell (License.expires_at row) then 1 else 0).

(** A computation that leaves the committed database as it is. *)
Definition keeps_disk {A : Type} (m : M A) : Prop :=
  forall w, disk (snd (m w)) = disk w.

(** A handler body that leaves the committed database as it is unless it
    ends in an HTTP 200 answer. *)
Definition writes_only_on_success (m : M Response) : Prop :=
  forall w,
    disk (snd (m w)) = disk w \/
    exists resp, fst (m w) = inr resp /\ status_code resp = 200.

(** The key format of the specification, HL-XXXX-XXXX-XXXX-XXXX: an X
    stands for one uppercase hexadecimal digit, any other character for
    itself. *)
Definition is_upper_hex (c : ascii) : bool :=
  let n := N_of_ascii c in
  (((48 <=? n) && (n <=? 57)) || ((65 <=? n) && (n <=? 70)))%N.

Fixpoint matches_template (template s : string) : bool :=
  match template, s with
  | EmptyString, EmptyString => true
  | String t template', String c s' =>
      (if Ascii.eqb t "X" then is_upper_hex c else Ascii.eqb t c) &&
      matches_template template' s'
  | _, _ => false
  end.

Definition key_format : string := "HL-XXXX-XXXX-XXXX-XXXX".

(** The shape of the keys that [generate_license_key] returns. *)
Definition generated_format : string :=
  "HL-XXXXXXXX-XXXXXXXX-XXXXXXXX-XXXXXXXX".

(** A computation that always returns, with a result satisfying [P]. *)
Definition returns {A : Type} (P : A -> Prop) (m : M A) : Prop :=
  forall w, exists a w', m w = (inr a, w') /\ P a.

(** The world once a connection has been opened and one row fetched from a
    query, on a driver that let the three calls through. *)
Definition fetched (w : World) : World :=
  mkWorld (disk w) (Some (disk w))
    (mkOracle (feed (driver w)) (3 + used (driver w)))
    (clock w) (urandom w) (stdout w).

(** A computation that always returns and touches nothing but the random
    source, on which alone its result depends. *)
Definition urandom_only {A : Type} (m : M A) : Prop :=
  forall w, exists a o,
    forall w2, urandom w2 = urandom w -> m w2 = (inr a, set_urandom o w2).

(** The expiry that the specification gives to a licence created at time
    [now] for [months] months: [now] plus thirty days for each month, and
    none for a duration that is absent or zero. *)
Definition expected_expiry (months : option Z) (now : Z) : option Z :=
  match months with
  | Some m => if m =? 0 then None else Some (now + m * 30 * us_per_day)
  | None => None
  end.

(** The durations whose expiry is a [datetime]: the number of days fits a
    [timedelta] and the sum does not leave the years 1 to 9999. *)
Definition representable (months : option Z) (now : Z) : Prop :=
  match months with
  | Some m =>
      m = 0 \/
      (Z.abs (m * 30) <= 999999999 /\
       0 <= now + m * 30 * us_per_day <= datetime_max_us)
  | None => True
  end.

(** How many times [create_license] reads the clock before the [INSERT]. *)
Definition clock_reads (months : option Z) : nat :=
  if truthy_int months then 1%nat else 0%nat.

(** The oracle after [k] more answers. *)
Definition skip {A : Type} (k : nat) (o : Oracle A) : Oracle A :=
  mkOracle (feed o) (k + used o).

(** The row of a customer's instance. *)
Definition lookup_instance (cid : string) (db : Database)
  : option CustomerInstance.t :=
  hd_error (filter (fun r => CustomerInstance.customer_id r == cid)
              (customer_instances db)).

(** The answers of a handler body carry one of the given status codes. *)
Definition answers_within (codes : list Z) (m : M Response) : Prop :=
  forall w a, fst (m w) = inr a -> In (status_code a) codes.

(** A relation [R] between the database at the start of a request and its
    later states holds of the committed database and of the connection's
    view. *)
Definition within (R : Database -> Database -> Prop) (d0 : Database)
    (w : World) : Prop :=
  R d0 (disk w) /\ forall s, session w = Some s -> R d0 s.

(** A computation that never leaves [R]. *)
Definition respects (R : Database -> Database -> Prop) {A : Type} (m : M A)
  : Prop :=
  forall d0 w, within R d0 w -> within R d0 (snd (m w)).

(** What a validation may change: the [last_validated] of licences. *)
Definition forget_last_validated (r : License.t) : License.t :=
  License.mk (License.license_key r) (License.customer_id r)
    (License.customer_name r) (License.plan r) (License.status r)
    (License.created_at r) (License.expires_at r) None.

Definition same_but_last_validated (d d' : Database) : Prop :=
  customer_instances d' = customer_instances d /\
  version_history d' = version_history d /\
  version_history_seq d' = version_history_seq d /\
  map forget_last_validated (licenses d') =
  map forget_last_validated (licenses d).

(** What a creation may change: more licences at the end of the table. *)
Definition licenses_extended (d d' : Database) : Prop :=
  customer_instances d' = customer_instances d /\
  version_history d' = version_history d /\
  exists more, licenses d' = List.app (licenses d) more.

(** What a registration may change: the reported fields of the instances;
    it may add instances and history.  The identity of an instance is its
    customer and the time it was first seen. *)
Definition identity_of (r : CustomerInstance.t) : string * option string :=
  (CustomerInstance.customer_id r, CustomerInstance.first_seen r).

Definition registry_extended (d d' : Database) : Prop :=
  licenses d' = licenses d /\
  (exists more, version_history d' = List.app (version_history d) more) /\
  (exists more,
      map identity_of (customer_instances d') =
      List.app (map identity_of (customer_instances d)) more).

(** The next [n] bytes of the random source. *)
Definition next_bytes (n : nat) (w : World) : list byte :=
  map (fun i => feed (urandom w) (i + used (urandom w))) (seq 0 n).

(** The key that [generate_license_key] makes of sixteen random bytes. *)
Definition key_of_bytes (bs : list byte) : string :=
  "HL-" ++
  String.concat "-"
    (map (fun part => upper (hexlify part))
       [firstn 4 bs; firstn 4 (skipn 4 bs); firstn 4 (skipn 8 bs);
        firstn 4 (skipn 12 bs)]).

(** The value of an uppercase hexadecimal digit. *)
Definition hex_value (c : ascii) : N :=
  let n := N_of_ascii c in
  if (n <=? 57)%N then (n - 48)%N else (n - 55)%N.

(** The row that a successful [create_license] stores. *)
Definition created_license `{Runtime} (customer_id customer_name : string)
    (plan : arg string) (months : arg (option Z)) (key : string) (w : World)
  : License.t :=
  License.mk key customer_id customer_name
    (Some (with_default "standard" plan)) (Some "active")
    (Some (CURRENT_TIMESTAMP
             (reading w (clock_reads (with_default (Some 12) months)))))
    (option_map (fun t => isoformat (Naive t))
       (expected_expiry (with_default (Some 12) months) (reading w 0)))
    None.

(** What a computation returns, when it returns, satisfies [P]. *)
Definition yields {A : Type} (P : A -> Prop) (m : M A) : Prop :=
  forall w a, fst (m w) = inr a -> P a.

(** The two tests behind the counters of the dashboard. *)
Definition reports_healthy (i : CustomerInstance.t) : bool :=
  match CustomerInstance.health_status i with
  | Some h => h == "healthy"
  | None => false
  end.

Definition is_outdated (settings : Settings) (i : CustomerInstance.t) : bool :=
  negb (CustomerInstance.version i == LATEST_VERSION settings).

(** * Properties *)

(** Unfolding of the monad and of the driver, then evaluation. *)
Ltac unfold_run :=
  unfold try_except, async_with_connect, bind, ret, raise, lift, connect,
    close, execute_query, execute_update, fetchone, commit, driver_call,
    datetime_now, sqlite_now, print, draw, advance in *.

Ltac run := unfold_run; cbn -[String.append].

(** The same along a run where the driver does not raise. *)
Ltac run_healthy Hh :=
  unfold_run; repeat (progress (cbn -[String.append]; rewrite ?Hh)).

Section ValidateLicense.
Context `{Runtime}.

Lemma status_inactive_true (row : License.t) :
  License.status row <> Some "active" -> status_inactive row = true.
Proof.
  unfold status_inactive. destruct (License.status row) as [s|]; auto.
  intros Hs. destruct (String.eqb_spec s "active"); [subst|]; auto.
Qed.

Lemma status_inactive_false (row : License.t) :
  License.status row = Some "active" -> status_inactive row = false.
Proof. unfold status_inactive. intros ->. reflexivity. Qed.

Lemma parsed_text_truthy (text : string) (d : datetime) :
  fromisoformat text = inr d -> truthy_str text = true.
Proof.
  destruct text; auto. intros E. now apply fromisoformat_empty in E.
Qed.

Lemma check_expired_late (row : License.t) (w : World) text t :
  License.expires_at row = Some text ->
  fromisoformat text = inr (Naive t) ->
  t < reading w 0 ->
  check_expired row w =
  (inr (Some (Naive t)), set_clock (advance (clock w)) w).
Proof.
  intros E P L. unfold check_expired, reading in *. rewrite E.
  rewrite (parsed_text_truthy _ P). run. rewrite P. cbn.
  apply Z.ltb_lt in L. cbn in L. rewrite L. reflexivity.
Qed.

Lemma check_expired_not_yet (row : License.t) (w : World) :
  unexpired row (reading w 0) ->
  check_expired row w =
  (inr None,
   if truthy_cell (License.expires_at row)
   then set_clock (advance (clock w)) w else w).
Proof.
  unfold unexpired, check_expired, reading.
  destruct (License.expires_at row) as [text|]; [|reflexivity].
  intros [-> | (t & P & L)]; [reflexivity|].
  cbn [truthy_cell]. rewrite (parsed_text_truthy _ P). run. rewrite P. cbn.
  apply Z.ltb_ge in L. cbn in L. rewrite L. reflexivity.
Qed.

Lemma invalid_license (v : LicenseValidation.t) (w : World) :
  healthy w ->
  lookup_license (LicenseValidation.license_key v) (disk w) = None ->
  fst (validate_license v w) =
  inr (mkResponse 401
         [("valid", JBool false); ("error", JStr "INVALID_LICENSE");
          ("message", JStr "License key not found")]).
Proof.
  intros Hh Hl. unfold validate_license, lookup_license in *.
  run_healthy Hh. rewrite Hl. reflexivity.
Qed.

Lemma license_inactive (v : LicenseValidation.t) (w : World) row :
  healthy w ->
  lookup_license (LicenseValidation.license_key v) (disk w) = Some row ->
  License.status row <> Some "active" ->
  fst (validate_license v w) =
  inr (mkResponse 401
         [("valid", JBool false); ("error", JStr "LICENSE_INACTIVE");
          ("message",
           JStr ("License status: " ++ fmt_cell (License.status row)))]).
Proof.
  intros Hh Hl Hs. unfold validate_license, lookup_license in *.
  run_healthy Hh. rewrite Hl. cbn -[String.append].
  rewrite (status_inactive_true _ Hs). reflexivity.
Qed.

Lemma license_expired (v : LicenseValidation.t) (w : World) row text t :
  healthy w ->
  lookup_license (LicenseValidation.license_key v) (disk w) = Some row ->
  License.status row = Some "active" ->
  License.expires_at row = Some text ->
  fromisoformat text = inr (Naive t) ->
  t < reading w 0 ->
  fst (validate_license v w) =
  inr (mkResponse 401
         [("valid", JBool false); ("error", JStr "LICENSE_EXPIRED");
          ("message",
           JStr ("License expired on " ++ strftime_ymd (Naive t)))]).
Proof.
  intros Hh Hl Hs He Hp Hlate.
  unfold validate_license, lookup_license in *.
  run_healthy Hh. rewrite Hl. cbn -[String.append].
  rewrite (status_inactive_false _ Hs).
  erewrite check_expired_late by eauto. reflexivity.
Qed.

Lemma customer_mismatch (v : LicenseValidation.t) (w : World) row :
  healthy w ->
  lookup_license (LicenseValidation.license_key v) (disk w) = Some row ->
  License.status row = Some "active" ->
  unexpired row (reading w 0) ->
  License.customer_id row <> LicenseValidation.customer_id v ->
  fst (validate_license v w) =
  inr (mkResponse 401
         [("valid", JBool false); ("error", JStr "CUSTOMER_MISMATCH");
          ("message", JStr "License key does not match customer ID")]).
Proof.
  intros Hh Hl Hs Hu Hc.
  unfold validate_license, lookup_license in *.
  run_healthy Hh. rewrite Hl. cbn -[String.append].
  rewrite (status_inactive_false _ Hs).
  rewrite check_expired_not_yet by exact Hu. cbn -[String.append].
  apply String.eqb_neq in Hc. rewrite Hc. reflexivity.
Qed.

(** C1. Validation checks, in this order, the key, the status, the
    expiry and the customer, and answers HTTP 401 with the code of the
    first check that fails: INVALID_LICENSE for an unknown key;
    LICENSE_INACTIVE for a licence that is not active, whatever its
    expiry and customer; LICENSE_EXPIRED for an active licence whose
    expiry has passed, whatever its customer; CUSTOMER_MISMATCH for an
    active, unexpired licence of another customer.  Each answer is given
    in full: the status 401 and the body with [valid] false, the error
    code and the message of the check. *)
Theorem validate_license_fail_fast
    (v : LicenseValidation.t) (w : World) :
  healthy w ->
  let key := LicenseValidation.license_key v in
  let now := reading w 0 in
  (lookup_license key (disk w) = None ->
   fst (validate_license v w) =
   inr (mkResponse 401
          [("valid", JBool false); ("error", JStr "INVALID_LICENSE");
           ("message", JStr "License key not found")])) /\
  (forall row,
      lookup_license key (disk w) = Some row ->
      License.status row <> Some "active" ->
      fst (validate_license v w) =
      inr (mkResponse 401
             [("valid", JBool false); ("error", JStr "LICENSE_INACTIVE");
              ("message",
               JStr ("License status: " ++
                     fmt_cell (License.status row)))])) /\
  (forall row text t,
      lookup_license key (disk w) = Some row ->
      License.status row = Some "active" ->
      License.expires_at row = Some text ->
      fromisoformat text = inr (Naive t) ->
      t < now ->
      fst (validate_license v w) =
      inr (mkResponse 401
             [("valid", JBool false); ("error", JStr "LICENSE_EXPIRED");
              ("message",
               JStr ("License expired on " ++ strftime_ymd (Naive t)))])) /\
  (forall row,
      lookup_license key (disk w) = Some row ->
      License.status row = Some "active" ->
      unexpired row now ->
      License.customer_id row <> LicenseValidation.customer_id v ->
      fst (validate_license v w) =
      inr (mkResponse 401
             [("valid", JBool false); ("error", JStr "CUSTOMER_MISMATCH");
              ("message",
               JStr "License key does not match customer ID")])).
Proof.
  intros Hh key now. repeat split; intros.
  - now apply invalid_license.
  - eapply license_inactive; eauto.
  - eapply license_expired; eauto.
  - eapply customer_mismatch; eauto.
Qed.

End ValidateLicense.

Lemma sample_world_healthy : healthy Sample.world.
Proof. intros n. reflexivity. Qed.

Lemma validate_license_fail_fast_witness :
  fst (validate_license (H := Reference.runtime)
         (Sample.request "HL-00000000-00000000-00000000-00000000" "acme")
         Sample.world) =
    inr (mkResponse 401
           [("valid", JBool false); ("error", JStr "INVALID_LICENSE");
            ("message", JStr "License key not found")]) /\
  fst (validate_license (H := Reference.runtime)
         (Sample.request (License.license_key Sample.globex) "acme")
         Sample.world) =
    inr (mkResponse 401
           [("valid", JBool false); ("error", JStr "LICENSE_INACTIVE");
            ("message", JStr "License status: revoked")]) /\
  fst (validate_license (H := Reference.runtime)
         (Sample.request (License.license_key Sample.initech) "acme")
         Sample.world) =
    inr (mkResponse 401
           [("valid", JBool false); ("error", JStr "LICENSE_EXPIRED");
            ("message", JStr "License expired on 2025-06-30")]) /\
  fst (validate_license (H := Reference.runtime)
         (Sample.request (License.license_key Sample.umbrella) "acme")
         Sample.world) =
    inr (mkResponse 401
           [("valid", JBool false); ("error", JStr "CUSTOMER_MISMATCH");
            ("message", JStr "License key does not match customer ID")]).
Proof.
  split; [|split; [|split]].
  - apply (@validate_license_fail_fast Reference.runtime
             (Sample.request "HL-00000000-00000000-00000000-00000000" "acme")
             Sample.world sample_world_healthy).
    reflexivity.
  - apply (proj1 (proj2 (@validate_license_fail_fast Reference.runtime
             (Sample.request (License.license_key Sample.globex) "acme")
             Sample.world sample_world_healthy)) Sample.globex).
    + reflexivity.
    + discriminate.
  - apply (proj1 (proj2 (proj2 (@validate_license_fail_fast Reference.runtime
             (Sample.request (License.license_key Sample.initech) "acme")
             Sample.world sample_world_healthy)))
             Sample.initech "2025-06-30T10:00:00" 63886874400000000).
    + reflexivity.
    + reflexivity.
    + reflexivity.
    + vm_compute. reflexivity.
    + vm_compute. reflexivity.
  - apply (proj2 (proj2 (proj2 (@validate_license_fail_fast Reference.runtime
             (Sample.request (License.license_key Sample.umbrella) "acme")
             Sample.world sample_world_healthy)))
             Sample.umbrella).
    + reflexivity.
    + reflexivity.
    + exact I.
    + discriminate.
Defined.

Section ValidationSuccess.
Context `{Runtime}.

Lemma select_license_updated (ts key k : string) (l : list License.t) :
  filter (fun r => License.license_key r == k)
         (map (update_last_validated_row ts key) l) =
  map (update_last_validated_row ts key)
      (filter (fun r => License.license_key r == k) l).
Proof.
  induction l as [|r l IH]; [reflexivity|]. cbn [map filter].
  assert (E : License.license_key (update_last_validated_row ts key r) =
              License.license_key r).
  { unfold update_last_validated_row.
    destruct (License.license_key r == key); reflexivity. }
  rewrite E. destruct (License.license_key r == k); cbn [map];
    now rewrite IH.
Qed.

(** A validation that passes the four checks, when the driver lets the
    connection and the lookup through: what follows depends on the
    [UPDATE] (call 3) and on the [commit] (call 4). *)
Lemma passing_run (v : LicenseValidation.t) (w : World) row :
  outcome w 0 = None -> outcome w 1 = None -> outcome w 2 = None ->
  lookup_license (LicenseValidation.license_key v) (disk w) = Some row ->
  License.status row = Some "active" ->
  unexpired row (reading w 0) ->
  License.customer_id row = LicenseValidation.customer_id v ->
  let r := validate_license v w in
  match outcome w 3, outcome w 4 with
  | None, None =>
      fst r = inr (success_payload row) /\
      update_last_validated
        (isoformat (Naive (write_reading row w)))
        (LicenseValidation.license_key v) (disk w) = inr (disk (snd r))
  | Some e, _ | None, Some e =>
      fst r = inr (JSONResponse 500
                     (error_body "VALIDATION_ERROR" (str_exn e))) /\
      disk (snd r) = disk w
  end.
Proof.
  intros H0 H1 H2 Hl Hs Hu Hc.
  unfold validate_license, lookup_license, write_reading, outcome in *.
  cbn in H0, H1, H2.
  run. rewrite H0. cbn -[String.append]. rewrite H1. cbn -[String.append].
  rewrite H2. cbn -[String.append]. rewrite Hl. cbn -[String.append].
  rewrite (status_inactive_false _ Hs).
  rewrite check_expired_not_yet by exact Hu.
  rewrite Hc, String.eqb_refl. cbn -[String.append].
  destruct (truthy_cell (License.expires_at row));
    cbn -[String.append];
    (destruct (feed (driver w) (S (S (S (used (driver w)))))) as [e|];
     [cbn; split; reflexivity|]);
    cbn -[String.append];
    (destruct (feed (driver w) (S (S (S (S (used (driver w))))))) as [e|];
     cbn; split; reflexivity).
Qed.

Lemma hd_error_filter {A : Type} (p : A -> bool) (l : list A) (x : A) :
  hd_error (filter p l) = Some x -> p x = true /\ In x l.
Proof.
  intros E. assert (I : In x (filter p l)).
  { destruct (filter p l); inversion E; subst; now left. }
  apply filter_In in I. tauto.
Qed.

Lemma lookup_license_key (key : string) (db : Database) row :
  lookup_license key db = Some row -> License.license_key row = key.
Proof.
  intros E. apply hd_error_filter in E. now apply String.eqb_eq.
Qed.

Lemma hd_error_map {A B : Type} (f : A -> B) (l : list A) :
  hd_error (map f l) = option_map f (hd_error l).
Proof. destruct l; reflexivity. Qed.

Lemma lookup_after_update (ts key k : string) (db db' : Database) :
  update_last_validated ts key db = inr db' ->
  lookup_license k db' =
  option_map (update_last_validated_row ts key) (lookup_license k db).
Proof.
  unfold update_last_validated, lookup_license, select_license.
  intros E; inversion E; subst; cbn [licenses].
  now rewrite select_license_updated, hd_error_map.
Qed.

(** C6. When the four checks pass, the licence's [last_validated] becomes
    the current time and the answer is the success payload, with
    [customer_name], [plan] and [expires_at] taken from the stored row. *)
Theorem validate_license_success
    (v : LicenseValidation.t) (w : World) (row : License.t) :
  healthy w ->
  lookup_license (LicenseValidation.license_key v) (disk w) = Some row ->
  License.status row = Some "active" ->
  unexpired row (reading w 0) ->
  License.customer_id row = LicenseValidation.customer_id v ->
  let key := LicenseValidation.license_key v in
  let current_time := isoformat (Naive (write_reading row w)) in
  let w' := snd (validate_license v w) in
  fst (validate_license v w) =
    inr (mkResponse 200
           [("valid", JBool true);
            ("customer_name", JStr (License.customer_name row));
            ("plan", json_of_cell (License.plan row));
            ("expires_at", json_of_cell (License.expires_at row));
            ("message", JStr "License valid")]) /\
  lookup_license key (disk w') =
    Some (License.mk (License.license_key row) (License.customer_id row)
            (License.customer_name row) (License.plan row)
            (License.status row) (License.created_at row)
            (License.expires_at row) (Some current_time)) /\
  (forall k, k <> key ->
             lookup_license k (disk w') = lookup_license k (disk w)) /\
  customer_instances (disk w') = customer_instances (disk w) /\
  version_history (disk w') = version_history (disk w).
Proof.
  intros Hh Hl Hs Hu Hc key current_time w'. subst key current_time w'.
  pose proof (@passing_run v w row (Hh _) (Hh _) (Hh _) Hl Hs Hu Hc) as P.
  unfold outcome in P. rewrite !Hh in P. cbn zeta in P.
  destruct P as [R D].
  split; [exact R|]. split; [|split].
  - rewrite (lookup_after_update _ D), Hl.
    cbn [option_map]. unfold update_last_validated_row.
    rewrite (lookup_license_key _ _ Hl).
    now rewrite String.eqb_refl.
  - intros k Hk. rewrite (lookup_after_update _ D).
    destruct (lookup_license k (disk w)) as [r|] eqn:E; [|reflexivity].
    cbn [option_map]. unfold update_last_validated_row.
    rewrite (lookup_license_key _ _ E).
    apply String.eqb_neq in Hk. now rewrite Hk.
  - unfold update_last_validated in D. inversion D. split; reflexivity.
Qed.

(** C2, as the code has it. The write of [last_validated] belongs to the
    validation: when the four checks pass and the [UPDATE] or its
    [commit] raises, the answer is HTTP 500 with VALIDATION_ERROR and the
    message of the error, and the store is as before; the success payload
    is the answer when both go through. *)
Theorem validate_license_write_outcome
    (v : LicenseValidation.t) (w : World) (row : License.t) :
  outcome w 0 = None -> outcome w 1 = None -> outcome w 2 = None ->
  lookup_license (LicenseValidation.license_key v) (disk w) = Some row ->
  License.status row = Some "active" ->
  unexpired row (reading w 0) ->
  License.customer_id row = LicenseValidation.customer_id v ->
  let r := validate_license v w in
  (outcome w 3 = None -> outcome w 4 = None ->
   fst r = inr (success_payload row)) /\
  (forall e,
      outcome w 3 = Some e \/ (outcome w 3 = None /\ outcome w 4 = Some e) ->
      fst r = inr (mkResponse 500
                     [("valid", JBool false);
                      ("error", JStr "VALIDATION_ERROR");
                      ("message", JStr (str_exn e))]) /\
      disk (snd r) = disk w).
Proof.
  intros H0 H1 H2 Hl Hs Hu Hc r.
  pose proof (@passing_run v w row H0 H1 H2 Hl Hs Hu Hc) as P.
  cbn zeta in P. fold r in P. split.
  - intros E3 E4. rewrite E3, E4 in P. tauto.
  - intros e [E3 | [E3 E4]].
    + rewrite E3 in P. exact P.
    + rewrite E3, E4 in P. exact P.
Qed.

End ValidationSuccess.

Lemma acme_unexpired :
  unexpired (H := Reference.runtime) Sample.acme Sample.now.
Proof.
  right. exists 63903200400250000. split; [reflexivity | discriminate].
Defined.

Lemma validate_license_success_witness :
  fst (validate_license (H := Reference.runtime)
         (Sample.request (License.license_key Sample.acme) "acme")
         Sample.world) =
    inr (mkResponse 200
           [("valid", JBool true); ("customer_name", JStr "Acme Corp");
            ("plan", JStr "standard");
            ("expires_at", JStr "2026-01-05T09:00:00.250000");
            ("message", JStr "License valid")]) /\
  option_map License.last_validated
    (lookup_license (License.license_key Sample.acme)
       (disk (snd (validate_license (H := Reference.runtime)
                     (Sample.request (License.license_key Sample.acme) "acme")
                     Sample.world)))) =
    Some (Some "2025-11-03T15:26:00.001000").
Proof.
  destruct (@validate_license_success Reference.runtime
              (Sample.request (License.license_key Sample.acme) "acme")
              Sample.world Sample.acme sample_world_healthy
              eq_refl eq_refl acme_unexpired eq_refl)
    as (R & L & _).
  split; [exact R|].
  exact (f_equal (option_map License.last_validated) L).
Defined.

(** C2 (counterexample). The checks pass for Acme's licence, the driver
    raises at the [UPDATE], and the answer is not the success payload. *)
Lemma validate_license_best_effort_counterexample :
  ~ (forall (R : Runtime) (v : LicenseValidation.t) (w : World) row,
        outcome w 0 = None -> outcome w 1 = None -> outcome w 2 = None ->
        lookup_license (LicenseValidation.license_key v) (disk w) = Some row ->
        License.status row = Some "active" ->
        unexpired row (reading w 0) ->
        License.customer_id row = LicenseValidation.customer_id v ->
        fst (validate_license v w) = inr (success_payload row)).
Proof.
  intros claim.
  specialize (claim Reference.runtime
                (Sample.request (License.license_key Sample.acme) "acme")
                (Sample.failing_at 3 (Sqlite3Error "database is locked"))
                Sample.acme eq_refl eq_refl eq_refl eq_refl eq_refl
                acme_unexpired eq_refl).
  vm_compute in claim. discriminate claim.
Qed.

Lemma validate_license_write_outcome_witness :
  fst (validate_license (H := Reference.runtime)
         (Sample.request (License.license_key Sample.acme) "acme")
         (Sample.failing_at 3 (Sqlite3Error "database is locked"))) =
    inr (mkResponse 500
           [("valid", JBool false); ("error", JStr "VALIDATION_ERROR");
            ("message", JStr "database is locked")]) /\
  disk (snd (validate_license (H := Reference.runtime)
               (Sample.request (License.license_key Sample.acme) "acme")
               (Sample.failing_at 3 (Sqlite3Error "database is locked")))) =
    Sample.db.
Proof.
  apply (proj2 (@validate_license_write_outcome Reference.runtime
                  (Sample.request (License.license_key Sample.acme) "acme")
                  (Sample.failing_at 3 (Sqlite3Error "database is locked"))
                  Sample.acme eq_refl eq_refl eq_refl eq_refl eq_refl
                  acme_unexpired eq_refl)
               (Sqlite3Error "database is locked")).
  left. reflexivity.
Defined.

Section Frames.

Lemma keeps_disk_ret {A : Type} (a : A) : keeps_disk (ret a).
Proof. intros w; reflexivity. Qed.

Lemma keeps_disk_raise {A : Type} (e : exn) : keeps_disk (@raise A e).
Proof. intros w; reflexivity. Qed.

Lemma keeps_disk_lift {A : Type} (r : exn + A) : keeps_disk (lift r).
Proof. intros w; reflexivity. Qed.

Lemma keeps_disk_bind {A B : Type} (m : M A) (k : A -> M B) :
  keeps_disk m -> (forall a, keeps_disk (k a)) -> keeps_disk (bind m k).
Proof.
  intros Hm Hk w. unfold bind. specialize (Hm w).
  destruct (m w) as [[e|a] w1]; cbn in *; [assumption|].
  now rewrite Hk.
Qed.

Lemma keeps_disk_driver_call : keeps_disk driver_call.
Proof.
  intros w. unfold driver_call, draw.
  destruct (feed (driver w) (used (driver w))); reflexivity.
Qed.

Lemma keeps_disk_connect : keeps_disk connect.
Proof.
  apply keeps_disk_bind; [apply keeps_disk_driver_call|].
  intros _ w; reflexivity.
Qed.

Lemma keeps_disk_close : keeps_disk close.
Proof. intros w; reflexivity. Qed.

Lemma keeps_disk_execute_query {R : Type} (q : Database -> list R) :
  keeps_disk (execute_query q).
Proof.
  apply keeps_disk_bind; [apply keeps_disk_driver_call|].
  intros _ w. destruct (session w); reflexivity.
Qed.

Lemma keeps_disk_execute_update (f : Database -> exn + Database) :
  keeps_disk (execute_update f).
Proof.
  apply keeps_disk_bind; [apply keeps_disk_driver_call|].
  intros _ w. destruct (session w) as [db|]; [|reflexivity].
  destruct (f db); reflexivity.
Qed.

Lemma keeps_disk_fetchone {R : Type} (cursor : list R) :
  keeps_disk (fetchone cursor).
Proof.
  apply keeps_disk_bind; [apply keeps_disk_driver_call|].
  intros _. apply keeps_disk_ret.
Qed.

Lemma keeps_disk_datetime_now : keeps_disk datetime_now.
Proof. intros w; reflexivity. Qed.

Lemma keeps_disk_print (s : string) : keeps_disk (print s).
Proof. intros w; reflexivity. Qed.

Lemma keeps_disk_urandom_byte : keeps_disk urandom_byte.
Proof. intros w; reflexivity. Qed.

Lemma keeps_disk_if {A : Type} (c : bool) (a b : M A) :
  keeps_disk a -> keeps_disk b -> keeps_disk (if c then a else b).
Proof. destruct c; auto. Qed.

Lemma keeps_then_writes {A : Type} (m : M A) (k : A -> M Response) :
  keeps_disk m -> (forall a, writes_only_on_success (k a)) ->
  writes_only_on_success (bind m k).
Proof.
  intros Hm Hk w. unfold bind. specialize (Hm w).
  destruct (m w) as [[e|a] w1]; cbn in *; [now left|].
  destruct (Hk a w1) as [D|S]; [left; congruence | now right].
Qed.

Lemma keeps_writes (m : M Response) :
  keeps_disk m -> writes_only_on_success m.
Proof. intros Hm w. left. apply Hm. Qed.

Lemma writes_try (m : M Response) (h : exn -> M Response) :
  writes_only_on_success m -> (forall e, keeps_disk (h e)) ->
  writes_only_on_success (try_except m h).
Proof.
  intros Hm Hh w. unfold try_except. specialize (Hm w).
  destruct (m w) as [[e|a] w1]; cbn in *.
  - destruct Hm as [D | (resp & E & _)]; [|discriminate].
    left. now rewrite Hh.
  - exact Hm.
Qed.

Lemma writes_async_with (body : M Response) :
  writes_only_on_success body ->
  writes_only_on_success (async_with_connect body).
Proof.
  intros Hb. unfold async_with_connect.
  apply keeps_then_writes; [apply keeps_disk_connect|].
  intros _ w. specialize (Hb w). destruct (body w) as [r w1]. exact Hb.
Qed.

End Frames.

Create HintDb frames.

#[local] Hint Resolve keeps_disk_ret keeps_disk_raise keeps_disk_lift
  keeps_disk_driver_call keeps_disk_connect keeps_disk_close
  keeps_disk_execute_query keeps_disk_execute_update keeps_disk_fetchone
  keeps_disk_datetime_now keeps_disk_print keeps_disk_urandom_byte
  : frames.

Section ValidationFailure.
Context `{Runtime}.

Lemma keeps_disk_check_expired (row : License.t) :
  keeps_disk (check_expired row).
Proof.
  unfold check_expired.
  destruct (License.expires_at row) as [text|]; auto with frames.
  destruct (truthy_str text); auto with frames.
  repeat (apply keeps_disk_bind; [auto with frames|intros]).
  auto with frames.
Qed.

Lemma validate_license_writes (v : LicenseValidation.t) :
  writes_only_on_success (validate_license v).
Proof.
  unfold validate_license.
  apply writes_try; [|auto with frames].
  apply writes_async_with.
  apply keeps_then_writes; [auto with frames|intros cursor].
  apply keeps_then_writes; [auto with frames|intros [row|]].
  2: apply keeps_writes; auto with frames.
  destruct (status_inactive row); [apply keeps_writes; auto with frames|].
  apply keeps_then_writes; [apply keeps_disk_check_expired|intros [d|]].
  1: apply keeps_writes; auto with frames.
  destruct (negb _); [apply keeps_writes; auto with frames|].
  apply keeps_then_writes; [auto with frames|intros now].
  apply keeps_then_writes; [auto with frames|intros _].
  intros w. run.
  destruct (feed (driver w) (used (driver w))); [now left|].
  cbn. destruct (session w); [right; eexists; split; reflexivity|now left].
Qed.

Lemma failure_keeps_disk (v : LicenseValidation.t) (w : World) resp :
  fst (validate_license v w) = inr resp ->
  status_code resp <> 200 ->
  disk (snd (validate_license v w)) = disk w.
Proof.
  intros E N. destruct (validate_license_writes v w) as [D|(r & E' & S)].
  - exact D.
  - rewrite E in E'. inversion E'; subst. contradiction.
Qed.

(** C7. [last_validated] is written on success only: when validation
    answers one of the four HTTP 401 errors, the committed [licenses]
    table, and with it the row of the presented key and its
    [last_validated], is as it was.  The statement covers every HTTP 401
    answer, whatever its code. *)
Theorem validate_license_failure_writes_nothing
    (v : LicenseValidation.t) (w : World) (code message : string) :
  fst (validate_license v w) =
    inr (mkResponse 401
           [("valid", JBool false); ("error", JStr code);
            ("message", JStr message)]) ->
  let w' := snd (validate_license v w) in
  licenses (disk w') = licenses (disk w) /\
  lookup_license (LicenseValidation.license_key v) (disk w') =
    lookup_license (LicenseValidation.license_key v) (disk w) /\
  option_map License.last_validated
    (lookup_license (LicenseValidation.license_key v) (disk w')) =
    option_map License.last_validated
      (lookup_license (LicenseValidation.license_key v) (disk w)).
Proof.
  intros E w'. subst w'.
  rewrite (failure_keeps_disk _ _ E) by (cbn; discriminate).
  repeat split.
Qed.

End ValidationFailure.

Lemma validate_license_failure_writes_nothing_witness :
  licenses
    (disk (snd (validate_license (H := Reference.runtime)
                  (Sample.request (License.license_key Sample.initech)
                     "initech")
                  Sample.world))) =
  licenses Sample.db.
Proof.
  apply (@validate_license_failure_writes_nothing Reference.runtime
           (Sample.request (License.license_key Sample.initech) "initech")
           Sample.world "LICENSE_EXPIRED" "License expired on 2025-06-30").
  reflexivity.
Defined.

Section Registration.
Context `{Runtime}.

(** What [last_heartbeat] keeps of a text that is no number, and of an
    integer literal. *)
Lemma numeric_affinity_text (text : string) :
  read_literal text = None -> numeric_affinity text = SqlText text.
Proof. unfold numeric_affinity. now intros ->. Qed.

Lemma numeric_affinity_integer (text : string) (l : literal) :
  read_literal text = Some l ->
  is_integer l = true ->
  int64_min <= literal_value l <= int64_max ->
  numeric_affinity text = SqlInteger (literal_value l).
Proof.
  unfold numeric_affinity. intros -> -> [Lo Hi].
  apply Z.leb_le in Lo, Hi. now rewrite Lo, Hi.
Qed.

(** An update of a registered instance, on a driver that does not raise. *)
Lemma register_existing_run (reg : InstanceRegistration.t) (w : World) old :
  healthy w ->
  stored_version (InstanceRegistration.customer_id reg) (disk w) = Some old ->
  let cid := InstanceRegistration.customer_id reg in
  let version := InstanceRegistration.version reg in
  let w' := snd (register_instance reg w) in
  fst (register_instance reg w) =
    inr (dict_response [("status", JStr "success");
                        ("message", JStr "Instance registered")]) /\
  customer_instances (disk w') =
    map (update_instance_row version (InstanceRegistration.url reg)
           (InstanceRegistration.health reg)
           (InstanceRegistration.timestamp reg)
           (InstanceRegistration.total_users reg)
           (InstanceRegistration.total_messages reg) cid)
        (customer_instances (disk w)) /\
  licenses (disk w') = licenses (disk w) /\
  version_history (disk w') =
    if old == version then version_history (disk w)
    else (version_history (disk w) ++
          [VersionHistory.mk (next_history_id (disk w)) (Some cid)
             (Some old) (Some version)
             (Some (CURRENT_TIMESTAMP (reading w 0)))])%list.
Proof.
  intros Hh Hv cid version w'. subst cid version w'.
  unfold register_instance, stored_version, reading in *.
  run_healthy Hh. rewrite Hv. run_healthy Hh.
  destruct (old == InstanceRegistration.version reg);
    run_healthy Hh; repeat split; reflexivity.
Qed.

Lemma register_new_history (reg : InstanceRegistration.t) (w : World) :
  stored_version (InstanceRegistration.customer_id reg) (disk w) = None ->
  version_history (disk (snd (register_instance reg w))) =
  version_history (disk w).
Proof.
  intros Hv. unfold register_instance, stored_version in *. run.
  destruct (feed (driver w) (used (driver w))); [reflexivity|].
  cbn -[String.append].
  destruct (feed (driver w) (S (used (driver w)))); [reflexivity|].
  cbn -[String.append].
  destruct (feed (driver w) (S (S (used (driver w))))); [reflexivity|].
  cbn -[String.append]. rewrite Hv. cbn -[String.append].
  destruct (feed (driver w) (S (S (S (used (driver w)))))); [reflexivity|].
  cbn -[String.append]. unfold insert_instance.
  destruct (existsb _ _); [reflexivity|]. cbn -[String.append].
  destruct (feed (driver w) (S (S (S (S (used (driver w))))))); reflexivity.
Qed.

(** C5. Registering a customer that is already registered appends no
    history entry when the submitted version is the stored one, and
    exactly one entry, from the stored version to the submitted one, when
    they differ.  A first registration appends none. *)
Theorem register_instance_version_history
    (reg : InstanceRegistration.t) (w : World) :
  let cid := InstanceRegistration.customer_id reg in
  let submitted := InstanceRegistration.version reg in
  let w' := snd (register_instance reg w) in
  (forall stored,
      healthy w ->
      stored_version cid (disk w) = Some stored ->
      (stored = submitted ->
       version_history (disk w') = version_history (disk w)) /\
      (stored <> submitted ->
       exists entry,
         version_history (disk w') =
           (version_history (disk w) ++ [entry])%list /\
         VersionHistory.customer_id entry = Some cid /\
         VersionHistory.old_version entry = Some stored /\
         VersionHistory.new_version entry = Some submitted)) /\
  (stored_version cid (disk w) = None ->
   version_history (disk w') = version_history (disk w)).
Proof.
  intros cid submitted w'. subst cid submitted w'. split.
  - intros stored Hh Hv.
    destruct (register_existing_run reg Hh Hv) as (_ & _ & _ & E).
    rewrite E. split; intros Hd.
    + subst stored. now rewrite String.eqb_refl.
    + apply String.eqb_neq in Hd. rewrite Hd.
      eexists; repeat split.
  - apply register_new_history.
Qed.

Lemma Forall2_map_self {A : Type} (R : A -> A -> Prop) (f : A -> A)
    (l : list A) :
  (forall x, R x (f x)) -> Forall2 R l (map f l).
Proof. intros Hf. induction l; cbn; constructor; auto. Qed.

(** C8. Registering an existing instance overwrites [version], [url],
    [health_status], [last_heartbeat], [total_users] and [total_messages]
    of that customer's row and nothing else: the row keeps its
    [first_seen], and the rows of the other customers are as before.
    The new [last_heartbeat] is what the column makes of the submitted
    timestamp: the text itself, unless it reads as a number. *)
Theorem register_instance_update_frame
    (reg : InstanceRegistration.t) (w : World) (stored : string) :
  healthy w ->
  stored_version (InstanceRegistration.customer_id reg) (disk w)
    = Some stored ->
  let cid := InstanceRegistration.customer_id reg in
  let w' := snd (register_instance reg w) in
  Forall2
    (fun before after =>
       CustomerInstance.customer_id after =
         CustomerInstance.customer_id before /\
       CustomerInstance.first_seen after =
         CustomerInstance.first_seen before /\
       (CustomerInstance.customer_id before <> cid -> after = before) /\
       (CustomerInstance.customer_id before = cid ->
        CustomerInstance.version after = InstanceRegistration.version reg /\
        CustomerInstance.url after = InstanceRegistration.url reg /\
        CustomerInstance.health_status after =
          Some (InstanceRegistration.health reg) /\
        CustomerInstance.last_heartbeat after =
          numeric_affinity (InstanceRegistration.timestamp reg) /\
        (read_literal (InstanceRegistration.timestamp reg) = None ->
         CustomerInstance.last_heartbeat after =
           SqlText (InstanceRegistration.timestamp reg)) /\
        CustomerInstance.total_users after =
          Some (InstanceRegistration.total_users reg) /\
        CustomerInstance.total_messages after =
          Some (InstanceRegistration.total_messages reg)))
    (customer_instances (disk w)) (customer_instances (disk w')) /\
  licenses (disk w') = licenses (disk w).
Proof.
  intros Hh Hv cid w'. subst cid w'.
  destruct (register_existing_run reg Hh Hv) as (_ & E & L & _).
  rewrite E. split; [|exact L].
  apply Forall2_map_self. intros r. unfold update_instance_row.
  destruct (String.eqb_spec (CustomerInstance.customer_id r)
              (InstanceRegistration.customer_id reg)) as [Y|N];
    cbn [CustomerInstance.customer_id CustomerInstance.first_seen
         CustomerInstance.version CustomerInstance.url
         CustomerInstance.health_status CustomerInstance.last_heartbeat
         CustomerInstance.total_users CustomerInstance.total_messages];
    repeat split; auto; try (intros; congruence).
  apply numeric_affinity_text.
Qed.

End Registration.

Lemma register_instance_version_history_witness :
  exists entry,
    version_history
      (disk (snd (register_instance (H := Reference.runtime)
                    (InstanceRegistration.mk "acme" "1.1.0"
                       "https://chat.acme.example" "healthy"
                       "2025-11-03T15:26:00" 45 1100)
                    Sample.world))) = [entry] /\
    VersionHistory.customer_id entry = Some "acme" /\
    VersionHistory.old_version entry = Some "1.0.0" /\
    VersionHistory.new_version entry = Some "1.1.0".
Proof.
  apply (proj2 (proj1 (@register_instance_version_history
           Reference.runtime
           (InstanceRegistration.mk "acme" "1.1.0"
              "https://chat.acme.example" "healthy"
              "2025-11-03T15:26:00" 45 1100)
           Sample.world) "1.0.0" sample_world_healthy eq_refl)).
  discriminate.
Defined.

Lemma register_instance_update_frame_witness :
  let reg := InstanceRegistration.mk "acme" "1.1.0"
               "https://chat.acme.example" "healthy"
               "2025-11-03T15:26:00" 45 1100 in
  let w' := snd (register_instance (H := Reference.runtime) reg
                   Sample.world) in
  Forall2
    (fun before after =>
       CustomerInstance.customer_id after =
         CustomerInstance.customer_id before /\
       CustomerInstance.first_seen after =
         CustomerInstance.first_seen before /\
       (CustomerInstance.customer_id before <> "acme" -> after = before) /\
       (CustomerInstance.customer_id before = "acme" ->
        CustomerInstance.version after = "1.1.0" /\
        CustomerInstance.url after = "https://chat.acme.example" /\
        CustomerInstance.health_status after = Some "healthy" /\
        CustomerInstance.last_heartbeat after =
          SqlText "2025-11-03T15:26:00" /\
        (read_literal "2025-11-03T15:26:00" = None ->
         CustomerInstance.last_heartbeat after =
           SqlText "2025-11-03T15:26:00") /\
        CustomerInstance.total_users after = Some 45 /\
        CustomerInstance.total_messages after = Some 1100))
    [Sample.acme_instance; Sample.globex_instance]
    (customer_instances (disk w')) /\
  licenses (disk w') = licenses Sample.db.
Proof.
  exact (@register_instance_update_frame Reference.runtime
           (InstanceRegistration.mk "acme" "1.1.0"
              "https://chat.acme.example" "healthy"
              "2025-11-03T15:26:00" 45 1100)
           Sample.world "1.0.0" sample_world_healthy eq_refl).
Defined.

Section KeyFormat.

Lemma upper_hex_digit (n : N) : is_upper_hex (upper_char (hex_digit n)) = true.
Proof.
  unfold hex_digit. generalize (N.to_nat n) as k. intros k.
  do 16 (destruct k as [|k]; [reflexivity|]). reflexivity.
Qed.

Lemma matches_template_length (template s : string) :
  matches_template template s = true ->
  String.length s = String.length template.
Proof.
  revert s. induction template as [|t template IH]; intros [|c s]; cbn;
    try discriminate; [reflexivity|].
  intros E. apply andb_prop in E as [_ E]. now rewrite (IH _ E).
Qed.

Lemma matches_template_app (t1 t2 s1 s2 : string) :
  matches_template t1 s1 = true -> matches_template t2 s2 = true ->
  matches_template (t1 ++ t2) (s1 ++ s2) = true.
Proof.
  revert s1. induction t1 as [|t t1 IH]; intros [|c s1]; cbn;
    try discriminate; [auto|].
  intros E1 E2. apply andb_prop in E1 as [E0 E1].
  rewrite E0. cbn. now apply IH.
Qed.

(** Every byte becomes two uppercase hexadecimal digits. *)
Lemma upper_hexlify_digits (bs : list byte) :
  matches_template (str_mul "XX" (List.length bs)) (upper (hexlify bs)) = true.
Proof.
  induction bs as [|b bs IH]; [reflexivity|].
  cbn -[is_upper_hex upper_char hex_digit Byte.to_N N.div N.modulo].
  now rewrite !upper_hex_digit, IH.
Qed.

Lemma returns_ret {A : Type} (P : A -> Prop) (a : A) :
  P a -> returns P (ret a).
Proof. intros Pa w. now exists a, w. Qed.

Lemma returns_bind {A B : Type} (P : A -> Prop) (Q : B -> Prop)
    (m : M A) (k : A -> M B) :
  returns P m -> (forall a, P a -> returns Q (k a)) ->
  returns Q (bind m k).
Proof.
  intros Hm Hk w. destruct (Hm w) as (a & w1 & E & Pa).
  destruct (Hk a Pa w1) as (b & w2 & E2 & Qb).
  exists b, w2. unfold bind. now rewrite E.
Qed.

Lemma token_bytes_returns (n : nat) :
  returns (fun bs => List.length bs = n) (token_bytes n).
Proof.
  induction n as [|n IH]; cbn [token_bytes].
  - now apply returns_ret.
  - apply returns_bind with (P := fun _ => True).
    + intros w. unfold urandom_byte, draw. eauto.
    + intros b _. apply returns_bind with (1 := IH).
      intros bs L. apply returns_ret. cbn. now rewrite L.
Qed.

Lemma comprehension_returns {A : Type} (P : A -> Prop) (n : nat) (m : M A) :
  returns P m ->
  returns (fun l => List.length l = n /\ Forall P l) (comprehension n m).
Proof.
  intros Hm. induction n as [|n IH]; cbn [comprehension].
  - apply returns_ret. split; [reflexivity|constructor].
  - apply returns_bind with (1 := Hm). intros a Pa.
    apply returns_bind with (1 := IH). intros l [L F].
    apply returns_ret. cbn. split; [now rewrite L | now constructor].
Qed.

Lemma append_empty (s : string) : s ++ "" = s.
Proof. induction s; cbn; congruence. Qed.

(** The generator always returns, and its key is HL followed by four
    groups of eight uppercase hexadecimal digits. *)
Lemma generate_license_key_returns :
  returns (fun key => matches_template generated_format key = true)
          generate_license_key.
Proof.
  unfold generate_license_key.
  apply returns_bind
    with (P := fun l => List.length l = 4%nat /\
                        Forall (fun p => matches_template "XXXXXXXX" p = true) l).
  - apply comprehension_returns.
    apply returns_bind
      with (P := fun t => exists bs, List.length bs = 4%nat /\ t = hexlify bs).
    + unfold token_hex.
      apply returns_bind with (1 := token_bytes_returns 4). intros bs L.
      apply returns_ret. eauto.
    + intros t (bs & L & ->). apply returns_ret.
      pose proof (upper_hexlify_digits bs) as U. now rewrite L in U.
  - intros l [L F]. apply returns_ret.
    destruct l as [|p1 [|p2 [|p3 [|p4 [|p5 l]]]]]; try discriminate L.
    inversion F as [|? ? F1 G1]; subst. inversion G1 as [|? ? F2 G2]; subst.
    inversion G2 as [|? ? F3 G3]; subst. inversion G3 as [|? ? F4 _]; subst.
    change generated_format
      with ("HL-" ++ "XXXXXXXX" ++ "-" ++ "XXXXXXXX" ++ "-" ++
            "XXXXXXXX" ++ "-" ++ "XXXXXXXX" ++ "").
    change (String.concat "-" [p1; p2; p3; p4])
      with (p1 ++ "-" ++ p2 ++ "-" ++ p3 ++ "-" ++ p4).
    rewrite <- (append_empty p4).
    repeat (apply matches_template_app; [assumption || reflexivity|]).
    reflexivity.
Qed.

Lemma generate_license_key_shape (w : World) :
  exists key,
    fst (generate_license_key w) = inr key /\
    matches_template generated_format key = true.
Proof.
  destruct (generate_license_key_returns w) as (key & w' & E & S).
  exists key. rewrite E. split; [reflexivity | exact S].
Qed.

(** C3. The generator was meant to return keys of the format
    HL-XXXX-XXXX-XXXX-XXXX, the prefix HL and four groups of four
    uppercase hexadecimal digits.  As written it never does: every key it
    returns has 38 characters, in groups of eight digits. *)
Theorem generate_license_key_never_in_format (w : World) :
  exists key,
    fst (generate_license_key w) = inr key /\
    String.length key = 38%nat /\
    matches_template key_format key = false.
Proof.
  destruct (generate_license_key_shape w) as (key & E & S).
  exists key. split; [exact E|].
  apply matches_template_length in S. cbn in S. split; [exact S|].
  destruct (matches_template key_format key) eqn:F; [|reflexivity].
  apply matches_template_length in F. rewrite S in F. discriminate F.
Qed.

End KeyFormat.

Example generate_license_key_sample :
  fst (generate_license_key Sample.world) =
  inr "HL-0F3A9C21-E40F3A9C-21E40F3A-9C21E40F".
Proof. reflexivity. Qed.

Section AdminCredentials.

Lemma verify_master_admin_pure (settings : Settings)
    (credentials : HTTPBasicCredentials) (w : World) :
  snd (verify_master_admin settings credentials w) = w.
Proof.
  unfold verify_master_admin. unfold_run.
  destruct (compare_digest _ _) as [e|u]; [reflexivity|].
  destruct (compare_digest _ _) as [e|p]; [reflexivity|].
  destruct (negb (u && p)); reflexivity.
Qed.

(** C10, as the code has it. For credentials and configured values that
    are plain ASCII text, the check grants access (it returns the user
    name) if and only if the supplied user name and password both equal
    the configured ones; otherwise it raises HTTP 401 with the header
    WWW-Authenticate: Basic.  It changes no state. *)
Theorem verify_master_admin_ascii (settings : Settings)
    (credentials : HTTPBasicCredentials) (w : World) :
  is_ascii (username credentials) = true ->
  is_ascii (password credentials) = true ->
  is_ascii (MASTER_ADMIN_USERNAME settings) = true ->
  is_ascii (MASTER_ADMIN_PASSWORD settings) = true ->
  let matching :=
    username credentials = MASTER_ADMIN_USERNAME settings /\
    password credentials = MASTER_ADMIN_PASSWORD settings in
  let r := verify_master_admin settings credentials w in
  (fst r = inr (username credentials) <-> matching) /\
  (~ matching ->
   fst r = inl (HTTPException 401 "Incorrect credentials"
                  [("WWW-Authenticate", "Basic")])) /\
  snd r = w.
Proof.
  intros Au Ap Acu Acp matching r. subst matching r.
  split; [|split]; [| |apply verify_master_admin_pure].
  - unfold verify_master_admin, compare_digest. unfold_run.
    rewrite Au, Ap, Acu, Acp. cbn.
    destruct (String.eqb_spec (username credentials)
                (MASTER_ADMIN_USERNAME settings)) as [U|U];
      destruct (String.eqb_spec (password credentials)
                  (MASTER_ADMIN_PASSWORD settings)) as [P|P];
      cbn; split; try tauto; intros E; discriminate E.
  - intros N. unfold verify_master_admin, compare_digest. unfold_run.
    rewrite Au, Ap, Acu, Acp. cbn.
    destruct (String.eqb_spec (username credentials)
                (MASTER_ADMIN_USERNAME settings)) as [U|U];
      destruct (String.eqb_spec (password credentials)
                  (MASTER_ADMIN_PASSWORD settings)) as [P|P];
      cbn; try reflexivity. tauto.
Qed.

End AdminCredentials.

Lemma verify_master_admin_ascii_witness :
  fst (verify_master_admin (load_settings [])
         (mkCredentials "admin" "letmein") Sample.world) =
  inl (HTTPException 401 "Incorrect credentials"
         [("WWW-Authenticate", "Basic")]).
Proof.
  apply (proj1 (proj2 (@verify_master_admin_ascii (load_settings [])
                         (mkCredentials "admin" "letmein") Sample.world
                         eq_refl eq_refl eq_refl eq_refl))).
  intros [_ P]. discriminate P.
Defined.

(** C10 (counterexample). The administrator's password is configured as
    "pässword"; a request with the credentials admin / changeme123 is not
    answered with HTTP 401: the comparison raises [TypeError]. *)
Lemma verify_master_admin_counterexample :
  ~ (forall (settings : Settings) (credentials : HTTPBasicCredentials)
            (w : World),
        let matching :=
          username credentials = MASTER_ADMIN_USERNAME settings /\
          password credentials = MASTER_ADMIN_PASSWORD settings in
        let r := verify_master_admin settings credentials w in
        (fst r = inr (username credentials) <-> matching) /\
        (~ matching ->
         fst r = inl (HTTPException 401 "Incorrect credentials"
                        [("WWW-Authenticate", "Basic")]))).
Proof.
  intros claim.
  destruct (claim (load_settings [("MASTER_ADMIN_PASSWORD", "pässword")])
                  (mkCredentials "admin" "changeme123") Sample.world)
    as [_ R].
  assert (E : fst (verify_master_admin
                     (load_settings [("MASTER_ADMIN_PASSWORD", "pässword")])
                     (mkCredentials "admin" "changeme123") Sample.world) =
              inl (TypeError
                     "comparing strings with non-ASCII characters is not supported"))
    by reflexivity.
  rewrite E in R. cbn in R.
  assert (F : inl (TypeError
                "comparing strings with non-ASCII characters is not supported")
              = @inl exn string (HTTPException 401 "Incorrect credentials"
                     [("WWW-Authenticate", "Basic")])).
  { apply R. intros [_ P]. discriminate P. }
  discriminate F.
Qed.

Section Stepping.

Lemma bind_inr {A B : Type} (m : M A) (k : A -> M B) (w w1 : World) (a : A) :
  m w = (inr a, w1) -> bind m k w = k a w1.
Proof. intros E. unfold bind. rewrite E. reflexivity. Qed.

Lemma try_except_disk {A : Type} (m : M A) (h : exn -> M A) (w : World) :
  (forall e, keeps_disk (h e)) ->
  disk (snd (try_except m h w)) = disk (snd (m w)).
Proof.
  intros Hh. unfold try_except. destruct (m w) as [[e|a] w1]; [|reflexivity].
  apply Hh.
Qed.

(** Opening the connection, running a query and fetching its first row:
    either one of the three driver calls raises, and nothing is written, or
    the rest of the program runs on the first row. *)
Lemma open_and_fetch {R B : Type} (q : Database -> list R)
    (K : option R -> M B) (w : World) :
  (exists e w1,
      (connect ;; cursor <- execute_query q ;; row <- fetchone cursor ;; K row) w
      = (inl e, w1) /\ disk w1 = disk w) \/
  (connect ;; cursor <- execute_query q ;; row <- fetchone cursor ;; K row) w
  = K (hd_error (q (disk w))) (fetched w).
Proof.
  unfold_run. cbn.
  destruct (feed (driver w) (used (driver w))) as [e|];
    [left; eexists _, _; split; reflexivity|].
  cbn.
  destruct (feed (driver w) (S (used (driver w)))) as [e|];
    [left; eexists _, _; split; reflexivity|].
  cbn.
  destruct (feed (driver w) (S (S (used (driver w))))) as [e|];
    [left; eexists _, _; split; reflexivity|].
  right. reflexivity.
Qed.

Lemma open_and_fetch_healthy {R B : Type} (q : Database -> list R)
    (K : option R -> M B) (w : World) :
  healthy w ->
  (connect ;; cursor <- execute_query q ;; row <- fetchone cursor ;; K row) w
  = K (hd_error (q (disk w))) (fetched w).
Proof.
  intros Hh. unfold_run. repeat (progress (cbn; rewrite ?Hh)). reflexivity.
Qed.

Lemma execute_update_ok (f : Database -> exn + Database) (w : World)
    (db db' : Database) :
  healthy w -> session w = Some db -> f db = inr db' ->
  execute_update f w =
  (inr tt, set_session (Some db') (set_driver (advance (driver w)) w)).
Proof.
  intros Hh Hs Hf. unfold_run. cbn. rewrite Hh. cbn. rewrite Hs, Hf.
  reflexivity.
Qed.

Lemma commit_ok (w : World) (db : Database) :
  healthy w -> session w = Some db ->
  commit w = (inr tt, set_disk db (set_driver (advance (driver w)) w)).
Proof.
  intros Hh Hs. unfold_run. cbn. rewrite Hh. cbn. rewrite Hs. reflexivity.
Qed.

End Stepping.

Section CreateLicense.
Context `{Runtime}.

Lemma create_license_except_run (e : exn) (w : World) :
  fst (create_license_except e w) = inr None /\
  disk (snd (create_license_except e w)) = disk w.
Proof.
  unfold create_license_except.
  destruct (is_sqlite3_error e); split; reflexivity.
Qed.

(** C4. When the customer already has a licence, [create_license] fails:
    it returns no key and leaves the store as it was, so the existing row
    is not altered and no row is added.  On a driver that does not raise,
    what it prints is the duplicate-customer diagnostic. *)
Theorem create_license_duplicate
    (customer_id customer_name : string) (plan : arg string)
    (months : arg (option Z)) (w : World) (existing : string) :
  license_key_of customer_id (disk w) = Some existing ->
  let r := create_license customer_id customer_name plan months w in
  fst r = inr None /\
  disk (snd r) = disk w /\
  (healthy w ->
   stdout (snd r) =
     List.app (stdout w)
       ["❌ Error: Customer '" ++ customer_id ++
        "' already has a license: " ++ existing;
        "   Use revoke_license.py to revoke it first, or update_license.py to extend."]).
Proof.
  intros He r. subst r. unfold license_key_of in He.
  unfold create_license, try_except.
  split; [|split].
  - edestruct (@open_and_fetch string (option string)
                 (select_license_key_of customer_id)) as [(e & w1 & E & D) | E];
      rewrite E.
    + apply create_license_except_run.
    + rewrite He. reflexivity.
  - edestruct (@open_and_fetch string (option string)
                 (select_license_key_of customer_id)) as [(e & w1 & E & D) | E];
      rewrite E.
    + cbn [snd]. rewrite <- D. apply create_license_except_run.
    + rewrite He. reflexivity.
  - intros Hh. rewrite (open_and_fetch_healthy _ _ Hh), He. cbn -[String.append].
    now rewrite <- app_assoc.
Qed.

End CreateLicense.

Lemma create_license_duplicate_witness :
  fst (create_license (H := Reference.runtime) "acme" "Acme Corporation"
         (Given "pro") (Given (Some 6)) Sample.world) = inr None /\
  disk (snd (create_license (H := Reference.runtime) "acme"
               "Acme Corporation" (Given "pro") (Given (Some 6))
               Sample.world)) = disk Sample.world.
Proof.
  destruct (@create_license_duplicate Reference.runtime "acme"
              "Acme Corporation" (Given "pro") (Given (Some 6)) Sample.world
              "HL-0F3A9C21-77B0E4D2-5A6C1F08-C4E19B3D" eq_refl)
    as (R & D & _).
  split; [exact R | exact D].
Defined.

Section KeySource.

Lemma set_urandom_same (w w2 : World) :
  urandom w2 = urandom w -> set_urandom (urandom w) w2 = w2.
Proof. intros E. rewrite <- E. destruct w2; reflexivity. Qed.

Lemma urandom_only_ret {A : Type} (a : A) : urandom_only (ret a).
Proof.
  intros w. exists a, (urandom w). intros w2 E.
  now rewrite set_urandom_same.
Qed.

Lemma urandom_only_bind {A B : Type} (m : M A) (k : A -> M B) :
  urandom_only m -> (forall a, urandom_only (k a)) ->
  urandom_only (bind m k).
Proof.
  intros Hm Hk w. destruct (Hm w) as (a & o & Em).
  destruct (Hk a (set_urandom o w)) as (b & o' & Ek).
  exists b, o'. intros w2 E.
  rewrite (@bind_inr _ _ m k _ _ _ (Em w2 E)).
  rewrite (Ek (set_urandom o w2) eq_refl). reflexivity.
Qed.

Lemma urandom_only_byte : urandom_only urandom_byte.
Proof.
  intros w. exists (feed (urandom w) (used (urandom w))), (advance (urandom w)).
  intros w2 E. unfold urandom_byte, draw. rewrite E. reflexivity.
Qed.

Lemma urandom_only_token_bytes (n : nat) : urandom_only (token_bytes n).
Proof.
  induction n as [|n IH]; cbn [token_bytes].
  - apply urandom_only_ret.
  - apply urandom_only_bind; [apply urandom_only_byte|intros b].
    apply urandom_only_bind; [exact IH|intros bs]. apply urandom_only_ret.
Qed.

Lemma urandom_only_comprehension {A : Type} (n : nat) (m : M A) :
  urandom_only m -> urandom_only (comprehension n m).
Proof.
  intros Hm. induction n as [|n IH]; cbn [comprehension].
  - apply urandom_only_ret.
  - apply urandom_only_bind; [exact Hm|intros a].
    apply urandom_only_bind; [exact IH|intros l]. apply urandom_only_ret.
Qed.

Lemma urandom_only_generate_license_key : urandom_only generate_license_key.
Proof.
  unfold generate_license_key.
  apply urandom_only_bind; [|intros parts; apply urandom_only_ret].
  apply urandom_only_comprehension. unfold token_hex.
  apply urandom_only_bind; [|intros t; apply urandom_only_ret].
  apply urandom_only_bind; [|intros t; apply urandom_only_ret].
  apply urandom_only_token_bytes.
Qed.

(** The key drawn in a world is the key drawn in any world with the same
    random source, and drawing it changes nothing else. *)
Lemma generate_license_key_elsewhere (w w2 : World) (key : string) :
  fst (generate_license_key w) = inr key ->
  urandom w2 = urandom w ->
  exists o, generate_license_key w2 = (inr key, set_urandom o w2).
Proof.
  intros Hk E.
  destruct (urandom_only_generate_license_key w) as (a & o & F).
  rewrite (F w eq_refl) in Hk. cbn [fst] in Hk.
  injection Hk as ->. exists o. exact (F w2 E).
Qed.

End KeySource.

Section CreateLicenseExpiry.
Context `{Runtime}.

Lemma set_clock_skip_0 (w : World) : set_clock (skip 0 (clock w)) w = w.
Proof. destruct w as [d s dr [f u] r o]. reflexivity. Qed.

Lemma compute_expiration_run (months : option Z) (w : World) :
  representable months (reading w 0) ->
  compute_expiration months w =
  (inr (option_map (fun t => isoformat (Naive t))
          (expected_expiry months (reading w 0))),
   set_clock (skip (clock_reads months) (clock w)) w).
Proof.
  unfold representable, compute_expiration, expected_expiry, clock_reads,
    reading.
  destruct months as [m|]; cbn [truthy_int];
    [|intros _; now rewrite set_clock_skip_0].
  destruct (m =? 0) eqn:Z0; cbn [negb];
    [intros _; now rewrite set_clock_skip_0|].
  intros [->|[D R]]; [discriminate Z0|].
  unfold_run. cbn [fst snd clock set_clock feed used Nat.add].
  unfold timedelta_days, datetime_add.
  apply Z.leb_le in D. rewrite D. cbn [option_map].
  replace ((0 <=? feed (clock w) (used (clock w)) + m * 30 * us_per_day) &&
           (feed (clock w) (used (clock w)) + m * 30 * us_per_day
              <=? datetime_max_us)) with true; [reflexivity|].
  symmetry. apply andb_true_intro. split; apply Z.leb_le; apply R.
Qed.

Lemma no_row_no_match {A B : Type} (p : A -> bool) (f : A -> B) (l : list A) :
  hd_error (map f (filter p l)) = None -> existsb p l = false.
Proof.
  induction l as [|x l IH]; [reflexivity|]. cbn.
  destruct (p x); [discriminate|exact IH].
Qed.

Lemma insert_license_fresh (now key cid name plan : string)
    (expires_at : option string) (db : Database) :
  lookup_license key db = None ->
  license_key_of cid db = None ->
  insert_license now key cid name plan expires_at db =
  inr (mkDatabase (customer_instances db) (version_history db)
         (version_history_seq db)
         (licenses db ++
            [License.mk key cid name (Some plan) (Some "active") (Some now)
               expires_at None])).
Proof.
  unfold lookup_license, license_key_of, select_license,
    select_license_key_of, insert_license.
  intros Hk Hc. rewrite <- (map_id (filter _ (licenses db))) in Hk.
  now rewrite (no_row_no_match _ _ _ Hk), (no_row_no_match _ _ _ Hc).
Qed.

Lemma keeps_disk_create_license_except (e : exn) :
  keeps_disk (create_license_except e).
Proof. intros w. apply create_license_except_run. Qed.

(** Closing the connection and printing leave the database alone. *)
Ltac keeps :=
  repeat first
    [ solve [auto with frames]
    | apply keeps_disk_if
    | apply keeps_disk_bind; [|intros ?] ].

(** A creation for a customer without licence, with a fresh key and an
    expiry that is representable, on a driver that does not raise. *)
Lemma create_license_fresh_run
    (customer_id customer_name : string) (plan : arg string)
    (months : arg (option Z)) (w : World) (key : string) :
  healthy w ->
  license_key_of customer_id (disk w) = None ->
  fst (generate_license_key w) = inr key ->
  lookup_license key (disk w) = None ->
  representable (with_default (Some 12) months) (reading w 0) ->
  disk (snd (create_license customer_id customer_name plan months w)) =
  mkDatabase (customer_instances (disk w)) (version_history (disk w))
    (version_history_seq (disk w))
    (licenses (disk w) ++
       [License.mk key customer_id customer_name
          (Some (with_default "standard" plan)) (Some "active")
          (Some (CURRENT_TIMESTAMP
                   (reading w (clock_reads (with_default (Some 12) months)))))
          (option_map (fun t => isoformat (Naive t))
             (expected_expiry (with_default (Some 12) months) (reading w 0)))
          None]).
Proof.
  intros Hh Hc Hk Hf Hr. unfold create_license.
  rewrite try_except_disk by apply keeps_disk_create_license_except.
  rewrite (open_and_fetch_healthy _ _ Hh).
  unfold license_key_of. unfold license_key_of in Hc. rewrite Hc.
  fold (license_key_of customer_id (disk w)) in Hc.
  destruct (generate_license_key_elsewhere (fetched w) Hk eq_refl) as [o Eg].
  rewrite (@bind_inr _ _ generate_license_key _ _ _ _ Eg).
  rewrite (@bind_inr _ _ (compute_expiration _) _ _ _ _
             (compute_expiration_run _ (set_urandom o (fetched w)) Hr)).
  rewrite (@bind_inr _ _ sqlite_now _ _ _ _ eq_refl).
  erewrite (@bind_inr _ _ (execute_update _));
    [|eapply execute_update_ok;
      [intros n; apply Hh | reflexivity
      | apply insert_license_fresh; assumption]].
  erewrite (@bind_inr _ _ commit);
    [|eapply commit_ok; [intros n; apply Hh | reflexivity]].
  match goal with
  | |- disk (snd (?m ?W)) = _ =>
      transitivity (disk W);
      [assert (Kd : keeps_disk m) by keeps; apply Kd|reflexivity]
  end.
Qed.

(** C9, as the code has it. For a customer without licence,
    [create_license] inserts one row with status active.  For a positive
    number of months m whose expiry is within the range of [datetime], its
    [expires_at] is exactly the current time plus m * 30 days; a duration
    that is left out counts as the default of 12 months; for a duration of
    [None] or 0 the stored [expires_at] is null. *)
Theorem create_license_expiry
    (customer_id customer_name : string) (plan : arg string)
    (months : arg (option Z)) (w : World) (key : string) :
  healthy w ->
  license_key_of customer_id (disk w) = None ->
  fst (generate_license_key w) = inr key ->
  lookup_license key (disk w) = None ->
  let now := reading w 0 in
  let duration := with_default (Some 12) months in
  let w' := snd (create_license customer_id customer_name plan months w) in
  let inserted (created : string) (expires : option string) :=
    List.app (licenses (disk w))
      [License.mk key customer_id customer_name
         (Some (with_default "standard" plan)) (Some "active")
         (Some created) expires None] in
  (forall m,
      duration = Some m -> 0 < m ->
      0 <= now -> now + m * 30 * us_per_day <= datetime_max_us ->
      licenses (disk w') =
        inserted (CURRENT_TIMESTAMP (reading w 1))
          (Some (isoformat (Naive (now + m * 30 * us_per_day))))) /\
  (duration = None \/ duration = Some 0 ->
   licenses (disk w') = inserted (CURRENT_TIMESTAMP (reading w 0)) None).
Proof.
  intros Hh Hc Hk Hf now duration w' inserted.
  subst now duration w' inserted. cbv beta. split.
  - intros m Em Pm N0 R.
    rewrite (@create_license_fresh_run customer_id customer_name plan months
               w key Hh Hc Hk Hf).
    + rewrite Em. unfold expected_expiry, clock_reads. cbn [truthy_int].
      replace (m =? 0) with false by (symmetry; apply Z.eqb_neq; lia).
      reflexivity.
    + rewrite Em. right. unfold datetime_max_us, us_per_day in *. lia.
  - intros Ed.
    rewrite (@create_license_fresh_run customer_id customer_name plan months
               w key Hh Hc Hk Hf).
    + destruct Ed as [-> | ->]; reflexivity.
    + destruct Ed as [-> | ->]; [exact I | now left].
Qed.

(** The command line: [--months] left out is 12 months, [--months 0] is no
    duration; the store is then what [create_license] makes of it. *)
Lemma main_create_runs_create_license
    (customer_id customer_name : string) (plan : arg plan_choice)
    (months : arg Z) (w : World) :
  disk (snd (main_create
               (parse_create customer_id customer_name plan months) w)) =
  disk (snd (create_license customer_id customer_name
               (Given (plan_name (with_default standard plan)))
               (Given (if with_default 12 months =? 0 then None
                       else Some (with_default 12 months))) w)).
Proof.
  unfold main_create, parse_create. cbn [args_months args_customer_id
    args_customer_name args_plan].
  unfold bind.
  destruct (create_license _ _ _ _ w) as [[e|k] w1]; reflexivity.
Qed.

End CreateLicenseExpiry.

Lemma create_license_expiry_witness :
  licenses
    (disk (snd (create_license (H := Reference.runtime) "hooli" "Hooli"
                  (Given "pro") (Given (Some 6)) Sample.world))) =
  List.app (licenses Sample.db)
    [License.mk "HL-0F3A9C21-E40F3A9C-21E40F3A-9C21E40F" "hooli" "Hooli"
       (Some "pro") (Some "active") (Some "2025-11-03 15:26:00")
       (Some "2026-05-02T15:26:00") None].
Proof.
  apply (proj1 (@create_license_expiry Reference.runtime "hooli" "Hooli"
                  (Given "pro") (Given (Some 6)) Sample.world
                  "HL-0F3A9C21-E40F3A9C-21E40F3A-9C21E40F"
                  sample_world_healthy eq_refl eq_refl eq_refl) 6 eq_refl).
  - reflexivity.
  - discriminate.
  - discriminate.
Defined.

(** C9 (counterexample). On the sample store: a creation for 120000 months
    stores no row at all, since the expiry would lie after the year 9999;
    and a creation without a duration stores the expiry of the default of
    12 months, not a null one. *)
Lemma create_license_expiry_counterexample :
  ~ (forall (R : Runtime) customer_id customer_name plan (m : Z) w key,
        healthy w ->
        license_key_of customer_id (disk w) = None ->
        fst (generate_license_key w) = inr key ->
        lookup_license key (disk w) = None ->
        0 < m ->
        option_map License.expires_at
          (lookup_license key
             (disk (snd (create_license customer_id customer_name plan
                           (Given (Some m)) w)))) =
        Some (Some (isoformat (Naive (reading w 0 + m * 30 * us_per_day)))))
  /\
  ~ (forall (R : Runtime) customer_id customer_name plan w key,
        healthy w ->
        license_key_of customer_id (disk w) = None ->
        fst (generate_license_key w) = inr key ->
        lookup_license key (disk w) = None ->
        option_map License.expires_at
          (lookup_license key
             (disk (snd (create_license customer_id customer_name plan
                           Omitted w)))) =
        Some None).
Proof.
  split; intros claim.
  - specialize (claim Reference.runtime "hooli" "Hooli" Omitted 120000
                  Sample.world "HL-0F3A9C21-E40F3A9C-21E40F3A-9C21E40F"
                  sample_world_healthy eq_refl eq_refl eq_refl eq_refl).
    vm_compute in claim. discriminate claim.
  - specialize (claim Reference.runtime "hooli" "Hooli" Omitted
                  Sample.world "HL-0F3A9C21-E40F3A9C-21E40F3A-9C21E40F"
                  sample_world_healthy eq_refl eq_refl eq_refl).
    vm_compute in claim. discriminate claim.
Qed.

(** * Further properties of the code *)

Section Within.
Variable R : Database -> Database -> Prop.

Lemma respects_ret {A : Type} (a : A) : respects R (ret a).
Proof. intros d0 w I. exact I. Qed.

Lemma respects_raise {A : Type} (e : exn) : respects R (@raise A e).
Proof. intros d0 w I. exact I. Qed.

Lemma respects_lift {A : Type} (r : exn + A) : respects R (lift r).
Proof. intros d0 w I. exact I. Qed.

Lemma respects_bind {A B : Type} (m : M A) (k : A -> M B) :
  respects R m -> (forall a, respects R (k a)) -> respects R (bind m k).
Proof.
  intros Hm Hk d0 w I. unfold bind. specialize (Hm d0 w I).
  destruct (m w) as [[e|a] w1]; cbn [snd] in *; [exact Hm|].
  now apply Hk.
Qed.

Lemma respects_try {A : Type} (m : M A) (h : exn -> M A) :
  respects R m -> (forall e, respects R (h e)) -> respects R (try_except m h).
Proof.
  intros Hm Hh d0 w I. unfold try_except. specialize (Hm d0 w I).
  destruct (m w) as [[e|a] w1]; cbn [snd] in *; [|exact Hm].
  now apply Hh.
Qed.

Lemma respects_try_sqlite3 {A : Type} (m : M A) (h : exn -> M A) :
  respects R m -> (forall e, respects R (h e)) ->
  respects R (try_except_sqlite3 m h).
Proof.
  intros Hm Hh d0 w I. unfold try_except_sqlite3. specialize (Hm d0 w I).
  destruct (m w) as [[e|a] w1]; cbn [snd] in *; [|exact Hm].
  destruct (is_sqlite3_error e); [now apply Hh|exact Hm].
Qed.

Lemma respects_if {A : Type} (c : bool) (a b : M A) :
  respects R a -> respects R b -> respects R (if c then a else b).
Proof. destruct c; auto. Qed.

Lemma respects_driver_call : respects R driver_call.
Proof.
  intros d0 w I. unfold driver_call, draw.
  destruct (feed (driver w) (used (driver w))); exact I.
Qed.

Lemma respects_connect : respects R connect.
Proof.
  apply respects_bind; [apply respects_driver_call|].
  intros _ d0 w [D S]. split; [exact D|].
  cbn. intros s E. injection E as <-. exact D.
Qed.

Lemma respects_close : respects R close.
Proof. intros d0 w [D S]. split; [exact D|]. cbn. discriminate. Qed.

Lemma respects_execute_query {Q : Type} (q : Database -> list Q) :
  respects R (execute_query q).
Proof.
  apply respects_bind; [apply respects_driver_call|].
  intros _ d0 w I. cbv beta. destruct (session w); exact I.
Qed.

Lemma respects_execute_update (f : Database -> exn + Database) :
  (forall d0 s s', R d0 s -> f s = inr s' -> R d0 s') ->
  respects R (execute_update f).
Proof.
  intros Hf. apply respects_bind; [apply respects_driver_call|].
  intros _ d0 w [D S]. cbv beta.
  destruct (session w) as [s|] eqn:E.
  - destruct (f s) as [e|s'] eqn:F; cbn [snd].
    + split; [exact D|]. rewrite E. exact S.
    + split; [exact D|]. cbn. intros s1 E1. injection E1 as <-.
      eapply Hf; [apply S; reflexivity|exact F].
  - cbn [snd]. split; [exact D|]. rewrite E. exact S.
Qed.

Lemma respects_fetchone {Q : Type} (cursor : list Q) :
  respects R (fetchone cursor).
Proof.
  apply respects_bind; [apply respects_driver_call|].
  intros _. apply respects_ret.
Qed.

Lemma respects_fetchall {Q : Type} (cursor : list Q) :
  respects R (fetchall cursor).
Proof.
  apply respects_bind; [apply respects_driver_call|].
  intros _. apply respects_ret.
Qed.

Lemma respects_commit : respects R commit.
Proof.
  apply respects_bind; [apply respects_driver_call|].
  intros _ d0 w [D S]. cbv beta.
  destruct (session w) as [s|] eqn:E; cbn [snd].
  - split; [cbn; now apply S|]. cbn. rewrite E. exact S.
  - split; [exact D|]. rewrite E. exact S.
Qed.

Lemma respects_async_with {A : Type} (body : M A) :
  respects R body -> respects R (async_with_connect body).
Proof.
  intros Hb. unfold async_with_connect.
  apply respects_bind; [apply respects_connect|].
  intros _ d0 w I. specialize (Hb d0 w I).
  destruct (body w) as [r w1]. cbn [snd] in *.
  now apply respects_close.
Qed.

Lemma respects_datetime_now : respects R datetime_now.
Proof. intros d0 w I. exact I. Qed.

Lemma respects_sqlite_now `{Runtime} : respects R sqlite_now.
Proof. intros d0 w I. exact I. Qed.

Lemma respects_print (s : string) : respects R (print s).
Proof. intros d0 w I. exact I. Qed.

Lemma respects_urandom_byte : respects R urandom_byte.
Proof. intros d0 w I. exact I. Qed.

(** At the start of a request no connection is open. *)
Lemma respects_from_start {A : Type} (m : M A) (w : World) :
  R (disk w) (disk w) -> session w = None -> respects R m ->
  R (disk w) (disk (snd (m w))).
Proof.
  intros Rr S Hm. destruct (Hm (disk w) w) as [G _]; [|exact G].
  split; [exact Rr|]. rewrite S. discriminate.
Qed.

End Within.

Create HintDb within.

#[local] Hint Resolve respects_ret respects_raise respects_lift
  respects_driver_call respects_connect respects_close
  respects_execute_query respects_fetchone respects_fetchall
  respects_commit respects_datetime_now respects_sqlite_now respects_print
  respects_urandom_byte : within.

(** Composition of computations that respect a relation. *)
Ltac respect :=
  repeat first
    [ solve [auto with within]
    | apply respects_if
    | apply respects_async_with
    | apply respects_bind; [|intros ?] ].

Section FramesMore.

Lemma keeps_disk_clock `{Runtime} : keeps_disk sqlite_now.
Proof. intros w; reflexivity. Qed.

Lemma keeps_disk_fetchall {Q : Type} (cursor : list Q) :
  keeps_disk (fetchall cursor).
Proof.
  apply keeps_disk_bind; [apply keeps_disk_driver_call|].
  intros _. apply keeps_disk_ret.
Qed.

End FramesMore.

#[local] Hint Resolve keeps_disk_clock keeps_disk_fetchall : frames.

Section RegistrationMore.
Context `{Runtime}.

(** The answer to a call of the driver that raised, none before it having
    raised. *)
Ltac fault i :=
  eexists; split; [reflexivity|]; right; exists i; eexists;
  split; [eassumption|];
  split;
  [ intros j Lj;
    repeat (destruct j as [|j]; [cbn [Nat.add]; assumption|]);
    exfalso; lia
  | split; reflexivity ].

Ltac next_call E :=
  match goal with
  | |- context [match ?f ?n with Some _ => _ | None => _ end] =>
      destruct (f n) as [?|] eqn:E;
      cbn -[String.append select_instance_version insert_instance]
  end.

(** X1. A registration never raises: it answers either the success
    message, or HTTP 500 with the text of the exception that the driver
    raised, which is the first that any of its calls raised, and in that
    case the committed database is as before. *)
Theorem register_instance_answers
    (reg : InstanceRegistration.t) (w : World) :
  exists resp,
    fst (register_instance reg w) = inr resp /\
    (resp = mkResponse 200 [("status", JStr "success");
                            ("message", JStr "Instance registered")] \/
     exists i e,
       outcome w i = Some e /\
       (forall j, (j < i)%nat -> outcome w j = None) /\
       resp = mkResponse 500 [("status", JStr "error");
                              ("message", JStr (str_exn e))] /\
       disk (snd (register_instance reg w)) = disk w).
Proof.
  destruct w as [d s [f u] c r o].
  unfold register_instance, outcome. unfold_run.
  cbn -[String.append select_instance_version insert_instance].
  next_call E0; [fault 0%nat|].
  next_call E1; [fault 1%nat|].
  next_call E2; [fault 2%nat|].
  destruct (hd_error (select_instance_version _ d)) as [old|] eqn:Hv;
    cbn -[String.append select_instance_version insert_instance].
  - next_call E3; [fault 3%nat|].
    destruct (negb (old == InstanceRegistration.version reg));
      cbn -[String.append select_instance_version insert_instance].
    + next_call E4; [fault 4%nat|].
      next_call E5; [fault 5%nat|].
      eexists; split; [reflexivity|]. now left.
    + next_call E4; [fault 4%nat|].
      eexists; split; [reflexivity|]. now left.
  - next_call E3; [fault 3%nat|].
    unfold insert_instance, select_instance_version in *.
    rewrite (no_row_no_match _ _ _ Hv).
    cbn -[String.append].
    next_call E4; [fault 4%nat|].
    eexists; split; [reflexivity|]. now left.
Qed.

(** A first registration, on a driver that does not raise. *)
Lemma register_new_run (reg : InstanceRegistration.t) (w : World) :
  healthy w ->
  stored_version (InstanceRegistration.customer_id reg) (disk w) = None ->
  fst (register_instance reg w) =
    inr (dict_response [("status", JStr "success");
                        ("message", JStr "Instance registered")]) /\
  disk (snd (register_instance reg w)) =
    mkDatabase
      (customer_instances (disk w) ++
         [CustomerInstance.mk (InstanceRegistration.customer_id reg)
            (InstanceRegistration.version reg)
            (InstanceRegistration.url reg)
            (Some (InstanceRegistration.health reg))
            (numeric_affinity (InstanceRegistration.timestamp reg))
            (Some (CURRENT_TIMESTAMP (reading w 0)))
            (Some (InstanceRegistration.total_users reg))
            (Some (InstanceRegistration.total_messages reg))])
      (version_history (disk w)) (version_history_seq (disk w))
      (licenses (disk w)).
Proof.
  intros Hh Hv. unfold register_instance, stored_version, reading in *.
  run_healthy Hh. rewrite Hv. run_healthy Hh.
  unfold insert_instance, select_instance_version in *.
  rewrite (no_row_no_match _ _ _ Hv). run_healthy Hh.
  split; reflexivity.
Qed.

(** X2. A first registration adds exactly one row, which carries the
    submitted fields and the database's clock as [first_seen]; the rows of
    the other customers, the history and the licences are as before.  The
    row's [last_heartbeat] is what the column makes of the submitted
    timestamp: the text itself when it is no number literal, and the
    integer when it is an integer literal of 64 bits. *)
Theorem register_instance_first_registration
    (reg : InstanceRegistration.t) (w : World) :
  healthy w ->
  lookup_instance (InstanceRegistration.customer_id reg) (disk w) = None ->
  let w' := snd (register_instance reg w) in
  let timestamp := InstanceRegistration.timestamp reg in
  exists heartbeat,
    customer_instances (disk w') =
      List.app (customer_instances (disk w))
        [CustomerInstance.mk (InstanceRegistration.customer_id reg)
           (InstanceRegistration.version reg) (InstanceRegistration.url reg)
           (Some (InstanceRegistration.health reg))
           heartbeat
           (Some (CURRENT_TIMESTAMP (reading w 0)))
           (Some (InstanceRegistration.total_users reg))
           (Some (InstanceRegistration.total_messages reg))] /\
    heartbeat = numeric_affinity timestamp /\
    (read_literal timestamp = None -> heartbeat = SqlText timestamp) /\
    (forall l,
        read_literal timestamp = Some l ->
        is_integer l = true ->
        int64_min <= literal_value l <= int64_max ->
        heartbeat = SqlInteger (literal_value l)) /\
    version_history (disk w') = version_history (disk w) /\
    licenses (disk w') = licenses (disk w).
Proof.
  intros Hh Hl w' timestamp. subst w' timestamp.
  assert (Hv : stored_version (InstanceRegistration.customer_id reg) (disk w)
               = None).
  { unfold stored_version, select_instance_version, lookup_instance in *.
    rewrite hd_error_map, Hl. reflexivity. }
  destruct (register_new_run reg Hh Hv) as [_ D]. rewrite D.
  eexists. split; [reflexivity|]. split; [reflexivity|].
  split; [apply numeric_affinity_text|].
  split; [apply numeric_affinity_integer|].
  split; reflexivity.
Qed.

Lemma filter_customer_updated (version url health timestamp : string)
    (users messages : Z) (cid k : string) (l : list CustomerInstance.t) :
  filter (fun r => CustomerInstance.customer_id r == k)
         (map (update_instance_row version url health timestamp users
                 messages cid) l) =
  map (update_instance_row version url health timestamp users messages cid)
      (filter (fun r => CustomerInstance.customer_id r == k) l).
Proof.
  induction l as [|r l IH]; [reflexivity|]. cbn [map filter].
  assert (E : CustomerInstance.customer_id
                (update_instance_row version url health timestamp users
                   messages cid r) = CustomerInstance.customer_id r).
  { unfold update_instance_row.
    destruct (CustomerInstance.customer_id r == cid); reflexivity. }
  rewrite E. destruct (CustomerInstance.customer_id r == k); cbn [map];
    now rewrite IH.
Qed.

Lemma stored_version_lookup (cid : string) (db : Database) :
  stored_version cid db =
  option_map CustomerInstance.version (lookup_instance cid db).
Proof.
  unfold stored_version, select_instance_version, lookup_instance.
  apply hd_error_map.
Qed.

(** The row of the customer after a registration that went through. *)
Lemma register_instance_row (reg : InstanceRegistration.t) (w : World) :
  healthy w ->
  exists first_seen,
    lookup_instance (InstanceRegistration.customer_id reg)
      (disk (snd (register_instance reg w))) =
    Some (CustomerInstance.mk (InstanceRegistration.customer_id reg)
            (InstanceRegistration.version reg) (InstanceRegistration.url reg)
            (Some (InstanceRegistration.health reg))
            (numeric_affinity (InstanceRegistration.timestamp reg))
            first_seen
            (Some (InstanceRegistration.total_users reg))
            (Some (InstanceRegistration.total_messages reg))).
Proof.
  intros Hh.
  destruct (lookup_instance (InstanceRegistration.customer_id reg) (disk w))
    as [r|] eqn:L.
  - assert (Hv : stored_version (InstanceRegistration.customer_id reg)
                   (disk w) = Some (CustomerInstance.version r))
      by (now rewrite stored_version_lookup, L).
    destruct (register_existing_run reg Hh Hv) as (_ & E & _).
    exists (CustomerInstance.first_seen r).
    unfold lookup_instance in *. rewrite E, filter_customer_updated.
    rewrite hd_error_map, L. cbn [option_map]. unfold update_instance_row.
    destruct (hd_error_filter _ _ L) as [K _]. rewrite K.
    apply String.eqb_eq in K. now rewrite K.
  - assert (Hv : stored_version (InstanceRegistration.customer_id reg)
                   (disk w) = None)
      by (now rewrite stored_version_lookup, L).
    destruct (register_new_run reg Hh Hv) as [_ D].
    exists (Some (CURRENT_TIMESTAMP (reading w 0))).
    unfold lookup_instance in *. rewrite D. cbn [customer_instances].
    rewrite filter_app.
    destruct (filter _ (customer_instances (disk w))) as [|x l];
      [|discriminate L].
    cbn. now rewrite String.eqb_refl.
Qed.

(** X3. Registering and looking up: after a registration that the driver
    let through, the customer's row, new or not, holds the submitted
    version, URL, health and gauges, and as heartbeat what the column
    makes of the submitted timestamp: the text itself when it is no
    number literal, and the integer when it is an integer literal of 64
    bits. *)
Theorem register_instance_stores_submission
    (reg : InstanceRegistration.t) (w : World) :
  healthy w ->
  let timestamp := InstanceRegistration.timestamp reg in
  exists row,
    lookup_instance (InstanceRegistration.customer_id reg)
      (disk (snd (register_instance reg w))) = Some row /\
    CustomerInstance.version row = InstanceRegistration.version reg /\
    CustomerInstance.url row = InstanceRegistration.url reg /\
    CustomerInstance.health_status row =
      Some (InstanceRegistration.health reg) /\
    CustomerInstance.last_heartbeat row = numeric_affinity timestamp /\
    (read_literal timestamp = None ->
     CustomerInstance.last_heartbeat row = SqlText timestamp) /\
    (forall l,
        read_literal timestamp = Some l ->
        is_integer l = true ->
        int64_min <= literal_value l <= int64_max ->
        CustomerInstance.last_heartbeat row = SqlInteger (literal_value l)) /\
    CustomerInstance.total_users row =
      Some (InstanceRegistration.total_users reg) /\
    CustomerInstance.total_messages row =
      Some (InstanceRegistration.total_messages reg).
Proof.
  intros Hh timestamp. subst timestamp.
  destruct (register_instance_row reg Hh) as [fs E].
  eexists. split; [exact E|].
  cbn [CustomerInstance.version CustomerInstance.url
       CustomerInstance.health_status CustomerInstance.last_heartbeat
       CustomerInstance.total_users CustomerInstance.total_messages].
  repeat split.
  - apply numeric_affinity_text.
  - apply numeric_affinity_integer.
Qed.

End RegistrationMore.

Section RegistrationInvariants.
Context `{Runtime}.

Lemma update_instance_row_idempotent (version url health timestamp : string)
    (users messages : Z) (cid : string) (r : CustomerInstance.t) :
  update_instance_row version url health timestamp users messages cid
    (update_instance_row version url health timestamp users messages cid r) =
  update_instance_row version url health timestamp users messages cid r.
Proof.
  unfold update_instance_row.
  destruct (CustomerInstance.customer_id r == cid) eqn:E; cbn; now rewrite E.
Qed.

Lemma update_instance_row_other (version url health timestamp : string)
    (users messages : Z) (cid : string) (l : list CustomerInstance.t) :
  filter (fun r => CustomerInstance.customer_id r == cid) l = [] ->
  map (update_instance_row version url health timestamp users messages cid) l
  = l.
Proof.
  induction l as [|r l IH]; [reflexivity|]. cbn [filter map].
  unfold update_instance_row at 1.
  destruct (CustomerInstance.customer_id r == cid); [discriminate|].
  intros E. now rewrite IH.
Qed.

(** X4. The registration is an idempotent upsert: sending the same
    registration again changes no instance row and adds no history. *)
Theorem register_instance_idempotent
    (reg : InstanceRegistration.t) (w w2 : World) :
  healthy w -> healthy w2 ->
  disk w2 = disk (snd (register_instance reg w)) ->
  let w3 := snd (register_instance reg w2) in
  customer_instances (disk w3) = customer_instances (disk w2) /\
  version_history (disk w3) = version_history (disk w2) /\
  licenses (disk w3) = licenses (disk w2).
Proof.
  intros Hh Hh2 D w3. subst w3.
  destruct (register_instance_row reg Hh) as [fs L]. rewrite <- D in L.
  assert (Hv : stored_version (InstanceRegistration.customer_id reg)
                 (disk w2) = Some (InstanceRegistration.version reg))
    by (now rewrite stored_version_lookup, L).
  destruct (register_existing_run reg Hh2 Hv) as (_ & E & Li & Vh).
  rewrite String.eqb_refl in Vh. split; [|split; assumption].
  rewrite E, D.
  destruct (lookup_instance (InstanceRegistration.customer_id reg) (disk w))
    as [r|] eqn:L0.
  - assert (Hv0 : stored_version (InstanceRegistration.customer_id reg)
                    (disk w) = Some (CustomerInstance.version r))
      by (now rewrite stored_version_lookup, L0).
    destruct (register_existing_run reg Hh Hv0) as (_ & E0 & _).
    rewrite E0, map_map. apply map_ext. intros a.
    apply update_instance_row_idempotent.
  - assert (Hv0 : stored_version (InstanceRegistration.customer_id reg)
                    (disk w) = None)
      by (now rewrite stored_version_lookup, L0).
    destruct (register_new_run reg Hh Hv0) as [_ D0]. rewrite D0.
    cbn [customer_instances]. rewrite map_app. f_equal.
    + apply update_instance_row_other. unfold lookup_instance in L0.
      destruct (filter _ _); [reflexivity|discriminate L0].
    + cbn. unfold update_instance_row. cbn.
      now rewrite String.eqb_refl.
Qed.

Lemma registry_extended_refl (d : Database) : registry_extended d d.
Proof.
  repeat split; exists []; now rewrite app_nil_r.
Qed.

Lemma identity_of_updated (version url health timestamp : string)
    (users messages : Z) (cid : string) (l : list CustomerInstance.t) :
  map identity_of
    (map (update_instance_row version url health timestamp users messages
            cid) l) = map identity_of l.
Proof.
  rewrite map_map. apply map_ext. intros r. unfold update_instance_row.
  destruct (CustomerInstance.customer_id r == cid); reflexivity.
Qed.

Lemma register_instance_respects (reg : InstanceRegistration.t) :
  respects registry_extended (register_instance reg).
Proof.
  unfold register_instance. apply respects_try; [|intros e; respect].
  apply respects_bind; [|intros _; respect].
  apply respects_async_with.
  apply respects_bind; [respect|intros cursor].
  apply respects_bind; [respect|intros [old|]].
  - apply respects_bind; [|intros _].
    { apply respects_execute_update.
      intros d0 s s' (L & V & (more & I)) E.
      unfold update_instance in E. injection E as <-.
      repeat split; cbn; [exact L|exact V|].
      exists more. now rewrite identity_of_updated. }
    apply respects_bind; [|intros _; respect].
    apply respects_if; [|respect].
    apply respects_bind; [respect|intros now].
    apply respects_execute_update.
    intros d0 s s' (L & (more & V) & I) E.
    unfold insert_version_history in E. injection E as <-.
    repeat split; cbn; [exact L| |exact I].
    eexists. rewrite V, <- app_assoc. reflexivity.
  - apply respects_bind; [respect|intros now].
    apply respects_bind; [|intros _; respect].
    apply respects_execute_update.
    intros d0 s s' (L & V & (more & I)) E.
    unfold insert_instance in E.
    destruct (existsb _ _); [discriminate E|]. injection E as <-.
    repeat split; cbn; [exact L|exact V|].
    eexists. rewrite map_app, I, <- app_assoc. reflexivity.
Qed.

(** X5. On every run, also when the driver raises, a registration leaves
    the licences alone, only appends to the version history, and keeps
    every instance row in its place with its customer and its
    [first_seen]: nothing is deleted. *)
Theorem register_instance_never_deletes
    (reg : InstanceRegistration.t) (w : World) :
  session w = None ->
  let w' := snd (register_instance reg w) in
  licenses (disk w') = licenses (disk w) /\
  (exists more,
      version_history (disk w') = List.app (version_history (disk w)) more) /\
  (exists more,
      map identity_of (customer_instances (disk w')) =
      List.app (map identity_of (customer_instances (disk w))) more).
Proof.
  intros S w'. subst w'.
  apply (@respects_from_start registry_extended _ (register_instance reg) w
           (registry_extended_refl _) S (register_instance_respects reg)).
Qed.

End RegistrationInvariants.

Section AnswersWithin.

Lemma answers_ret (codes : list Z) (a : Response) :
  In (status_code a) codes -> answers_within codes (ret a).
Proof. intros I w b E. cbn in E. now injection E as <-. Qed.

Lemma answers_bind {A : Type} (codes : list Z) (m : M A)
    (k : A -> M Response) :
  (forall a, answers_within codes (k a)) -> answers_within codes (bind m k).
Proof.
  intros Hk w b. unfold bind.
  destruct (m w) as [[e|a] w1]; [discriminate|]. apply Hk.
Qed.

Lemma answers_if (codes : list Z) (c : bool) (a b : M Response) :
  answers_within codes a -> answers_within codes b ->
  answers_within codes (if c then a else b).
Proof. destruct c; auto. Qed.

Lemma answers_async_with (codes : list Z) (body : M Response) :
  answers_within codes body -> answers_within codes (async_with_connect body).
Proof.
  intros Hb. unfold async_with_connect. apply answers_bind.
  intros _ w b. specialize (Hb w b). destruct (body w) as [r w1]. exact Hb.
Qed.

End AnswersWithin.

Section ValidationMore.
Context `{Runtime}.

(** X6. A validation never raises, its answer is HTTP 200, 401 or 500, and
    unless it is 200 the committed database is as before: an error of the
    driver or of the date library costs the caller a 500 and writes
    nothing. *)
Theorem validate_license_answers (v : LicenseValidation.t) (w : World) :
  exists resp,
    fst (validate_license v w) = inr resp /\
    In (status_code resp) [200; 401; 500] /\
    (status_code resp <> 200 ->
     disk (snd (validate_license v w)) = disk w).
Proof.
  assert (T : exists resp,
             fst (validate_license v w) = inr resp /\
             In (status_code resp) [200; 401; 500]).
  { unfold validate_license, try_except.
    match goal with
    | |- context [async_with_connect ?body w] =>
        assert (A : answers_within [200; 401] (async_with_connect body));
        [|specialize (A w);
          destruct (async_with_connect body w) as [[e|a] w1]]
    end.
    - apply answers_async_with.
      apply answers_bind; intros cursor.
      apply answers_bind; intros [row|];
        [|apply answers_ret; cbn; tauto].
      apply answers_if; [apply answers_ret; cbn; tauto|].
      apply answers_bind; intros [d|]; [apply answers_ret; cbn; tauto|].
      apply answers_if; [apply answers_ret; cbn; tauto|].
      apply answers_bind; intros now.
      apply answers_bind; intros _.
      apply answers_bind; intros _.
      apply answers_ret; cbn; tauto.
    - eexists. split; [reflexivity|]. cbn. tauto.
    - exists a. split; [reflexivity|].
      specialize (A a eq_refl). cbn in A |- *. tauto. }
  destruct T as (resp & E & I). exists resp. split; [exact E|].
  split; [exact I|]. intros N. exact (failure_keeps_disk v w E N).
Qed.

(** X7. An active licence whose [expires_at] the date library cannot read
    cannot be validated: the answer is HTTP 500 VALIDATION_ERROR with the
    library's message, whoever the customer is, and nothing is written. *)
Theorem validate_license_unreadable_expiry
    (v : LicenseValidation.t) (w : World) (row : License.t)
    (text : string) (e : exn) :
  healthy w ->
  lookup_license (LicenseValidation.license_key v) (disk w) = Some row ->
  License.status row = Some "active" ->
  License.expires_at row = Some text ->
  text <> "" ->
  fromisoformat text = inl e ->
  fst (validate_license v w) =
    inr (mkResponse 500
           [("valid", JBool false); ("error", JStr "VALIDATION_ERROR");
            ("message", JStr (str_exn e))]) /\
  disk (snd (validate_license v w)) = disk w.
Proof.
  intros Hh Hl Hs He Ht Hp.
  unfold validate_license, lookup_license in *.
  run_healthy Hh. rewrite Hl. cbn -[String.append].
  rewrite (status_inactive_false _ Hs). unfold check_expired. rewrite He.
  destruct text as [|c text]; [contradiction|]. cbn [truthy_str].
  run. rewrite Hp. cbn. split; reflexivity.
Qed.

(** X8. An active licence whose [expires_at] carries a UTC offset cannot
    be validated either: the naive current time does not compare with it,
    and the answer is HTTP 500 VALIDATION_ERROR. *)
Theorem validate_license_aware_expiry
    (v : LicenseValidation.t) (w : World) (row : License.t)
    (text : string) (t offset : Z) :
  healthy w ->
  lookup_license (LicenseValidation.license_key v) (disk w) = Some row ->
  License.status row = Some "active" ->
  License.expires_at row = Some text ->
  fromisoformat text = inr (Aware t offset) ->
  fst (validate_license v w) =
    inr (mkResponse 500
           [("valid", JBool false); ("error", JStr "VALIDATION_ERROR");
            ("message",
             JStr "can't compare offset-naive and offset-aware datetimes")])
  /\ disk (snd (validate_license v w)) = disk w.
Proof.
  intros Hh Hl Hs He Hp.
  unfold validate_license, lookup_license in *.
  run_healthy Hh. rewrite Hl. cbn -[String.append].
  rewrite (status_inactive_false _ Hs). unfold check_expired. rewrite He.
  rewrite (parsed_text_truthy _ Hp).
  run. rewrite Hp. cbn. split; reflexivity.
Qed.

Lemma same_but_last_validated_refl (d : Database) :
  same_but_last_validated d d.
Proof. repeat split. Qed.

Lemma forget_updated (ts key : string) (l : list License.t) :
  map forget_last_validated (map (update_last_validated_row ts key) l) =
  map forget_last_validated l.
Proof.
  rewrite map_map. apply map_ext. intros r. unfold update_last_validated_row.
  destruct (License.license_key r == key); reflexivity.
Qed.

Lemma keeps_within_check_expired
    (R : Database -> Database -> Prop) (row : License.t) :
  respects R (check_expired row).
Proof.
  unfold check_expired.
  destruct (License.expires_at row) as [text|]; [|respect].
  destruct (truthy_str text); respect.
Qed.

Lemma validate_license_respects (v : LicenseValidation.t) :
  respects same_but_last_validated (validate_license v).
Proof.
  unfold validate_license. apply respects_try; [|intros e; respect].
  apply respects_async_with.
  apply respects_bind; [respect|intros cursor].
  apply respects_bind; [respect|intros [row|]]; [|respect].
  apply respects_if; [respect|].
  apply respects_bind; [apply keeps_within_check_expired|intros [d|]];
    [respect|].
  apply respects_if; [respect|].
  apply respects_bind; [respect|intros now].
  apply respects_bind; [|intros _; respect].
  apply respects_execute_update.
  intros d0 s s' (I & V & Q & L) E.
  unfold update_last_validated in E. injection E as <-.
  repeat split; cbn; [exact I|exact V|exact Q|].
  now rewrite forget_updated.
Qed.

Lemma filter_forgotten (k : string) (l : list License.t) :
  map forget_last_validated
    (filter (fun r => License.license_key r == k) l) =
  filter (fun r => License.license_key r == k)
    (map forget_last_validated l).
Proof.
  induction l as [|r l IH]; [reflexivity|]. cbn [map filter].
  change (License.license_key (forget_last_validated r))
    with (License.license_key r).
  destruct (License.license_key r == k); cbn [map]; now rewrite IH.
Qed.

(** X9. On every run, a validation neither creates nor removes a licence
    and changes nothing of a licence but its [last_validated]: key,
    customer, plan, status and expiry are as before, and so are the
    instances and the version history. *)
Theorem validate_license_changes_last_validated_only
    (v : LicenseValidation.t) (w : World) :
  session w = None ->
  let w' := snd (validate_license v w) in
  customer_instances (disk w') = customer_instances (disk w) /\
  version_history (disk w') = version_history (disk w) /\
  List.length (licenses (disk w')) = List.length (licenses (disk w)) /\
  forall k,
    option_map forget_last_validated (lookup_license k (disk w')) =
    option_map forget_last_validated (lookup_license k (disk w)).
Proof.
  intros S w'. subst w'.
  destruct (@respects_from_start same_but_last_validated _
              (validate_license v) w (same_but_last_validated_refl _) S
              (validate_license_respects v)) as (I & V & _ & L).
  split; [exact I|]. split; [exact V|]. split.
  - rewrite <- (length_map forget_last_validated), L. apply length_map.
  - intros k. unfold lookup_license, select_license.
    rewrite <- !hd_error_map, !filter_forgotten. now rewrite L.
Qed.

(** X10. Validating again: after a validation that passed, the same request
    passes again with the same payload, as long as the licence has not
    expired by then. *)
Theorem validate_license_again
    (v : LicenseValidation.t) (w w2 : World) (row : License.t) :
  healthy w ->
  lookup_license (LicenseValidation.license_key v) (disk w) = Some row ->
  License.status row = Some "active" ->
  unexpired row (reading w 0) ->
  License.customer_id row = LicenseValidation.customer_id v ->
  healthy w2 ->
  disk w2 = disk (snd (validate_license v w)) ->
  unexpired row (reading w2 0) ->
  fst (validate_license v w2) = fst (validate_license v w) /\
  fst (validate_license v w2) = inr (success_payload row).
Proof.
  intros Hh Hl Hs Hu Hc Hh2 D Hu2.
  pose proof (@passing_run _ v w row (Hh _) (Hh _) (Hh _) Hl Hs Hu Hc) as P.
  unfold outcome in P. rewrite !Hh in P. cbn zeta in P.
  destruct P as [R U].
  pose proof (lookup_after_update (LicenseValidation.license_key v) U) as L2.
  rewrite Hl, <- D in L2. cbn [option_map] in L2.
  set (row2 := update_last_validated_row _ _ row) in L2.
  assert (F : forget_last_validated row2 = forget_last_validated row).
  { unfold row2, update_last_validated_row.
    destruct (License.license_key row == _); reflexivity. }
  pose proof (f_equal License.status F) as Fs.
  pose proof (f_equal License.customer_id F) as Fc.
  pose proof (f_equal License.expires_at F) as Fe.
  pose proof (f_equal License.customer_name F) as Fn.
  pose proof (f_equal License.plan F) as Fp.
  cbn [forget_last_validated License.status License.customer_id
       License.expires_at License.customer_name License.plan]
    in Fs, Fc, Fe, Fn, Fp.
  assert (Hu2' : unexpired row2 (reading w2 0))
    by (unfold unexpired in *; now rewrite Fe).
  pose proof (@passing_run _ v w2 row2 (Hh2 _) (Hh2 _) (Hh2 _) L2
                (eq_trans Fs Hs) Hu2' (eq_trans Fc Hc)) as P2.
  unfold outcome in P2. rewrite !Hh2 in P2. cbn zeta in P2.
  destruct P2 as [R2 _].
  assert (S2 : success_payload row2 = success_payload row)
    by (unfold success_payload; now rewrite Fe, Fn, Fp).
  rewrite R2, R, S2. split; reflexivity.
Qed.

End ValidationMore.

Section KeyEntropy.

Lemma set_urandom_skip_0 (w : World) : set_urandom (skip 0 (urandom w)) w = w.
Proof. destruct w as [d s dr c [f u] o]. reflexivity. Qed.

Lemma token_bytes_run (n : nat) (w : World) :
  token_bytes n w =
  (inr (next_bytes n w), set_urandom (skip n (urandom w)) w).
Proof.
  revert w. induction n as [|n IH]; intros w.
  - cbn [token_bytes]. unfold ret. now rewrite set_urandom_skip_0.
  - cbn [token_bytes]. unfold bind at 1. unfold urandom_byte, draw.
    unfold bind at 1. rewrite IH. unfold ret, next_bytes, skip, advance.
    cbn [urandom set_urandom feed used seq map Nat.add].
    rewrite <- seq_shift, map_map. f_equal; [|now rewrite Nat.add_succ_r].
    f_equal. f_equal. apply map_ext. intros i. now rewrite Nat.add_succ_r.
Qed.

Lemma generate_license_key_run (w : World) :
  generate_license_key w =
  (inr (key_of_bytes (next_bytes 16 w)),
   set_urandom (skip 16 (urandom w)) w).
Proof.
  unfold generate_license_key, comprehension, token_hex.
  unfold bind, ret. rewrite !token_bytes_run. reflexivity.
Qed.

(** X11. A key takes exactly sixteen bytes from the random source, 128
    bits, and is a function of these bytes; generating it changes nothing
    else in the world. *)
Theorem generate_license_key_entropy (w : World) :
  fst (generate_license_key w) = inr (key_of_bytes (next_bytes 16 w)) /\
  used (urandom (snd (generate_license_key w))) =
    (used (urandom w) + 16)%nat /\
  feed (urandom (snd (generate_license_key w))) = feed (urandom w) /\
  disk (snd (generate_license_key w)) = disk w /\
  session (snd (generate_license_key w)) = session w /\
  driver (snd (generate_license_key w)) = driver w /\
  clock (snd (generate_license_key w)) = clock w /\
  stdout (snd (generate_license_key w)) = stdout w.
Proof.
  rewrite generate_license_key_run. destruct w as [d s dr c [f u] o].
  cbn. repeat split. lia.
Qed.

Lemma byte_of_digits (b : byte) :
  Byte.of_N (16 * hex_value (upper_char (hex_digit (Byte.to_N b / 16))) +
             hex_value (upper_char (hex_digit (Byte.to_N b mod 16)))) =
  Some b.
Proof. destruct b; reflexivity. Qed.

Lemma digits_injective (b c : byte) :
  upper_char (hex_digit (Byte.to_N b / 16)) =
    upper_char (hex_digit (Byte.to_N c / 16)) ->
  upper_char (hex_digit (Byte.to_N b mod 16)) =
    upper_char (hex_digit (Byte.to_N c mod 16)) ->
  b = c.
Proof.
  intros Hi Lo. pose proof (byte_of_digits b) as B.
  rewrite Hi, Lo, byte_of_digits in B. now injection B.
Qed.

Lemma key_of_bytes_injective (bs cs : list byte) :
  List.length bs = 16%nat -> List.length cs = 16%nat ->
  key_of_bytes bs = key_of_bytes cs -> bs = cs.
Proof.
  intros Lb Lc.
  do 16 (destruct bs as [|? bs]; [discriminate Lb|]).
  destruct bs; [|discriminate Lb].
  do 16 (destruct cs as [|? cs]; [discriminate Lc|]).
  destruct cs; [|discriminate Lc].
  unfold key_of_bytes.
  cbn -[upper_char hex_digit Byte.to_N N.div N.modulo].
  intros E. injection E. intros.
  repeat (f_equal; [apply digits_injective; assumption|]).
  f_equal. apply digits_injective; assumption.
Qed.

Lemma next_bytes_length (n : nat) (w : World) :
  List.length (next_bytes n w) = n.
Proof. unfold next_bytes. now rewrite length_map, length_seq. Qed.

(** X12. Two generated keys are equal exactly when the sixteen random
    bytes behind them are: the formatting of a key loses none of its
    entropy. *)
Theorem generate_license_key_injective (w1 w2 : World) :
  fst (generate_license_key w1) = fst (generate_license_key w2) <->
  next_bytes 16 w1 = next_bytes 16 w2.
Proof.
  rewrite !generate_license_key_run. cbn [fst]. split.
  - intros E.
    apply (f_equal (fun r : exn + string =>
                      match r with inr k => k | inl _ => "" end)) in E.
    cbv beta iota in E.
    apply key_of_bytes_injective;
      [apply next_bytes_length|apply next_bytes_length|exact E].
  - now intros ->.
Qed.

End KeyEntropy.

Section SteppingMore.

Lemma bind_raises {A B : Type} (m : M A) (k : A -> M B) (w w1 : World)
    (e : exn) :
  m w = (inl e, w1) -> bind m k w = (inl e, w1).
Proof. intros E. unfold bind. rewrite E. reflexivity. Qed.

Lemma execute_update_refused (f : Database -> exn + Database) (w : World)
    (db : Database) (e : exn) :
  healthy w -> session w = Some db -> f db = inl e ->
  execute_update f w = (inl e, set_driver (advance (driver w)) w).
Proof.
  intros Hh Hs Hf. unfold_run. cbn. rewrite Hh. cbn. rewrite Hs, Hf.
  reflexivity.
Qed.

(** A computation that leaves the database and the connection alone
    respects every relation. *)
Lemma respects_of_frame (R : Database -> Database -> Prop) {A : Type}
    (m : M A) :
  (forall w, disk (snd (m w)) = disk w /\ session (snd (m w)) = session w) ->
  respects R m.
Proof.
  intros F d0 w [D S]. destruct (F w) as [Fd Fs]. split.
  - now rewrite Fd.
  - now rewrite Fs.
Qed.

Lemma respects_generate_license_key (R : Database -> Database -> Prop) :
  respects R generate_license_key.
Proof.
  apply respects_of_frame. intros w.
  rewrite generate_license_key_run. split; reflexivity.
Qed.

End SteppingMore.

Section CreateLicenseMore.
Context `{Runtime}.

Lemma existing_key_matches (key : string) (db : Database) (row : License.t) :
  lookup_license key db = Some row ->
  existsb (fun r => License.license_key r == key) (licenses db) = true.
Proof.
  intros L. destruct (hd_error_filter _ _ L) as [P I].
  apply existsb_exists. now exists row.
Qed.

(** X13. A generated key that is already in use is refused by the store:
    [create_license] returns no key, reports the violated UNIQUE
    constraint as a database error, and writes nothing. *)
Theorem create_license_key_collision
    (customer_id customer_name : string) (plan : arg string)
    (months : arg (option Z)) (w : World) (key : string) (row : License.t) :
  healthy w ->
  license_key_of customer_id (disk w) = None ->
  fst (generate_license_key w) = inr key ->
  lookup_license key (disk w) = Some row ->
  representable (with_default (Some 12) months) (reading w 0) ->
  let r := create_license customer_id customer_name plan months w in
  fst r = inr None /\
  disk (snd r) = disk w /\
  stdout (snd r) =
    List.app (stdout w)
      ["❌ Database error: UNIQUE constraint failed: licenses.license_key"].
Proof.
  intros Hh Hc Hk Hf Hr r. subst r. unfold create_license, try_except.
  rewrite (open_and_fetch_healthy _ _ Hh).
  unfold license_key_of in Hc. rewrite Hc.
  destruct (generate_license_key_elsewhere (fetched w) Hk eq_refl) as [o Eg].
  rewrite (@bind_inr _ _ generate_license_key _ _ _ _ Eg).
  rewrite (@bind_inr _ _ (compute_expiration _) _ _ _ _
             (compute_expiration_run _ (set_urandom o (fetched w)) Hr)).
  rewrite (@bind_inr _ _ sqlite_now _ _ _ _ eq_refl).
  erewrite (@bind_raises _ _ (execute_update _));
    [|eapply execute_update_refused;
      [intros n; apply Hh | reflexivity
      | unfold insert_license;
        rewrite (existing_key_matches _ _ Hf); reflexivity]].
  repeat split.
Qed.

(** The store after a creation that went through. *)
Lemma created_lookup
    (customer_id customer_name : string) (plan : arg string)
    (months : arg (option Z)) (w : World) (key : string) :
  healthy w ->
  license_key_of customer_id (disk w) = None ->
  fst (generate_license_key w) = inr key ->
  lookup_license key (disk w) = None ->
  representable (with_default (Some 12) months) (reading w 0) ->
  let w' := snd (create_license customer_id customer_name plan months w) in
  lookup_license key (disk w') =
    Some (created_license customer_id customer_name plan months key w) /\
  license_key_of customer_id (disk w') = Some key.
Proof.
  intros Hh Hc Hk Hf Hr w'. subst w'.
  rewrite (@create_license_fresh_run _ customer_id customer_name plan months
             w key Hh Hc Hk Hf Hr).
  unfold lookup_license, license_key_of, select_license,
    select_license_key_of in *. cbn [licenses].
  rewrite !filter_app.
  destruct (filter (fun r => License.license_key r == key) (licenses (disk w)));
    [|discriminate Hf].
  destruct (filter (fun r => License.customer_id r == customer_id)
              (licenses (disk w))); [|discriminate Hc].
  cbn. rewrite !String.eqb_refl. split; reflexivity.
Qed.

(** A creation for a customer who has a licence. *)
Lemma create_license_refuses
    (customer_id customer_name : string) (plan : arg string)
    (months : arg (option Z)) (w : World) (existing : string) :
  license_key_of customer_id (disk w) = Some existing ->
  fst (create_license customer_id customer_name plan months w) = inr None /\
  disk (snd (create_license customer_id customer_name plan months w)) =
  disk w.
Proof.
  intros He. unfold license_key_of in He.
  unfold create_license, try_except.
  edestruct (@open_and_fetch string (option string)
               (select_license_key_of customer_id)) as [(e & w1 & E & D) | E];
    rewrite E.
  - cbn [snd]. rewrite <- D. apply create_license_except_run.
  - rewrite He. split; reflexivity.
Qed.

(** X14. One licence per customer: after a creation that went through, any
    further creation for the same customer, whatever its name, plan and
    duration, returns no key and leaves the store as it is. *)
Theorem create_license_twice
    (customer_id customer_name name2 : string) (plan plan2 : arg string)
    (months months2 : arg (option Z)) (w w2 : World) (key : string) :
  healthy w ->
  license_key_of customer_id (disk w) = None ->
  fst (generate_license_key w) = inr key ->
  lookup_license key (disk w) = None ->
  representable (with_default (Some 12) months) (reading w 0) ->
  disk w2 =
    disk (snd (create_license customer_id customer_name plan months w)) ->
  fst (create_license customer_id name2 plan2 months2 w2) = inr None /\
  disk (snd (create_license customer_id name2 plan2 months2 w2)) = disk w2.
Proof.
  intros Hh Hc Hk Hf Hr D.
  destruct (@created_lookup customer_id customer_name plan months w key
              Hh Hc Hk Hf Hr) as [_ L].
  rewrite <- D in L.
  exact (@create_license_refuses customer_id name2 plan2 months2 w2 key L).
Qed.

(** X15. Creating, then validating: the key of a creation that went through
    validates for its customer, with the stored plan and expiry, at any
    time up to the expiry (at any time for a licence without expiry), and
    is refused for any other customer, with HTTP 401, the error
    CUSTOMER_MISMATCH and its message.  The date library must read back
    the expiry that it wrote. *)
Theorem create_then_validate
    (customer_id customer_name : string) (plan : arg string)
    (months : arg (option Z)) (w w2 : World) (key : string)
    (v : LicenseValidation.t) :
  healthy w ->
  license_key_of customer_id (disk w) = None ->
  fst (generate_license_key w) = inr key ->
  lookup_license key (disk w) = None ->
  representable (with_default (Some 12) months) (reading w 0) ->
  (forall t,
      expected_expiry (with_default (Some 12) months) (reading w 0) = Some t ->
      fromisoformat (isoformat (Naive t)) = inr (Naive t) /\
      reading w2 0 <= t) ->
  healthy w2 ->
  disk w2 =
    disk (snd (create_license customer_id customer_name plan months w)) ->
  LicenseValidation.license_key v = key ->
  (LicenseValidation.customer_id v = customer_id ->
   fst (validate_license v w2) =
     inr (mkResponse 200
            [("valid", JBool true); ("customer_name", JStr customer_name);
             ("plan", JStr (with_default "standard" plan));
             ("expires_at",
              json_of_cell
                (option_map (fun t => isoformat (Naive t))
                   (expected_expiry (with_default (Some 12) months)
                      (reading w 0))));
             ("message", JStr "License valid")])) /\
  (LicenseValidation.customer_id v <> customer_id ->
   fst (validate_license v w2) =
     inr (mkResponse 401
            [("valid", JBool false); ("error", JStr "CUSTOMER_MISMATCH");
             ("message", JStr "License key does not match customer ID")])).
Proof.
  intros Hh Hc Hk Hf Hr Hrt Hh2 D Kv.
  destruct (@created_lookup customer_id customer_name plan months w key
              Hh Hc Hk Hf Hr) as [L _].
  rewrite <- D, <- Kv in L.
  set (row := created_license customer_id customer_name plan months
                (LicenseValidation.license_key v) w) in *.
  assert (U : unexpired row (reading w2 0)).
  { unfold unexpired, row, created_license. cbn [License.expires_at].
    destruct (expected_expiry _ _) as [t|] eqn:E; cbn [option_map]; [|exact I].
    right. exists t. now apply Hrt. }
  split; intros C.
  - pose proof (@passing_run _ v w2 row (Hh2 _) (Hh2 _) (Hh2 _) L eq_refl U
                  (eq_sym C)) as P.
    unfold outcome in P. rewrite !Hh2 in P. cbn zeta in P.
    destruct P as [P _]. exact P.
  - apply (customer_mismatch v Hh2 L eq_refl U).
    intros E. apply C. now rewrite <- E.
Qed.

(** X16. A negative duration is not refused: the licence is stored with an
    expiry before its creation, and from then on its validation answers
    HTTP 401 with the error LICENSE_EXPIRED and the day of that expiry. *)
Theorem create_license_negative_months
    (customer_id customer_name : string) (plan : arg string)
    (m : Z) (w w2 : World) (key : string) (v : LicenseValidation.t) :
  healthy w ->
  license_key_of customer_id (disk w) = None ->
  fst (generate_license_key w) = inr key ->
  lookup_license key (disk w) = None ->
  m < 0 ->
  representable (Some m) (reading w 0) ->
  let expiry := reading w 0 + m * 30 * us_per_day in
  let w' := snd (create_license customer_id customer_name plan
                   (Given (Some m)) w) in
  expiry < reading w 0 /\
  option_map License.expires_at (lookup_license key (disk w')) =
    Some (Some (isoformat (Naive expiry))) /\
  (fromisoformat (isoformat (Naive expiry)) = inr (Naive expiry) ->
   healthy w2 -> disk w2 = disk w' -> reading w 0 <= reading w2 0 ->
   LicenseValidation.license_key v = key ->
   fst (validate_license v w2) =
     inr (mkResponse 401
            [("valid", JBool false); ("error", JStr "LICENSE_EXPIRED");
             ("message",
              JStr ("License expired on " ++
                    strftime_ymd (Naive expiry)))])).
Proof.
  intros Hh Hc Hk Hf Neg Hr expiry w'. subst expiry w'.
  destruct (@created_lookup customer_id customer_name plan (Given (Some m))
              w key Hh Hc Hk Hf Hr) as [L _].
  assert (E : expected_expiry (Some m) (reading w 0) =
              Some (reading w 0 + m * 30 * us_per_day)).
  { unfold expected_expiry.
    replace (m =? 0) with false by (symmetry; apply Z.eqb_neq; lia).
    reflexivity. }
  split; [unfold us_per_day; lia|]. split.
  - rewrite L. unfold created_license. cbn [with_default option_map
      License.expires_at]. now rewrite E.
  - intros Rt Hh2 D Late Kv. rewrite <- D, <- Kv in L.
    eapply (license_expired v Hh2 L eq_refl).
    + unfold created_license. cbn [with_default License.expires_at].
      rewrite E. reflexivity.
    + exact Rt.
    + unfold us_per_day. lia.
Qed.

End CreateLicenseMore.

Section Yields.

Lemma yields_ret {A : Type} (P : A -> Prop) (a : A) : P a -> yields P (ret a).
Proof. intros Pa w b E. cbn in E. now injection E as <-. Qed.

Lemma yields_bind {A B : Type} (P : B -> Prop) (m : M A) (k : A -> M B) :
  (forall a, yields P (k a)) -> yields P (bind m k).
Proof.
  intros Hk w b. unfold bind.
  destruct (m w) as [[e|a] w1]; [discriminate|]. apply Hk.
Qed.

Lemma execute_update_returned (f : Database -> exn + Database)
    (w w' : World) (u : unit) :
  execute_update f w = (inr u, w') ->
  exists db db',
    session w = Some db /\ f db = inr db' /\
    session w' = Some db' /\ disk w' = disk w.
Proof.
  unfold_run. cbn.
  destruct (feed (driver w) (used (driver w))); [discriminate|]. cbn.
  destruct (session w) as [db|]; [|discriminate].
  destruct (f db) as [e|db'] eqn:F; [discriminate|].
  intros E. injection E as _ <-. exists db, db'. repeat split. exact F.
Qed.

Lemma commit_returned (w w' : World) (u : unit) :
  commit w = (inr u, w') -> session w = Some (disk w').
Proof.
  unfold_run. cbn.
  destruct (feed (driver w) (used (driver w))); [discriminate|]. cbn.
  destruct (session w) as [db|]; [|discriminate].
  intros E. now injection E as _ <-.
Qed.

End Yields.

Section CreateLicenseInvariants.
Context `{Runtime}.

Lemma respects_compute_expiration
    (R : Database -> Database -> Prop) (months : option Z) :
  respects R (compute_expiration months).
Proof.
  unfold compute_expiration. destruct months as [m|]; [|respect].
  destruct (negb (m =? 0)); respect.
Qed.

Lemma respects_create_license_except
    (R : Database -> Database -> Prop) (e : exn) :
  respects R (create_license_except e).
Proof.
  unfold create_license_except. destruct (is_sqlite3_error e); respect.
Qed.

Lemma insert_license_extends (now key cid name plan : string)
    (expires_at : option string) (d0 s s' : Database) :
  licenses_extended d0 s ->
  insert_license now key cid name plan expires_at s = inr s' ->
  licenses_extended d0 s'.
Proof.
  intros (I & V & more & L) E. unfold insert_license in E.
  destruct (existsb _ _); [discriminate E|].
  destruct (existsb _ _); [discriminate E|]. injection E as <-.
  repeat split; cbn; [exact I|exact V|].
  eexists. rewrite L, <- app_assoc. reflexivity.
Qed.

Lemma create_license_respects
    (customer_id customer_name : string) (plan : arg string)
    (months : arg (option Z)) :
  respects licenses_extended
    (create_license customer_id customer_name plan months).
Proof.
  unfold create_license.
  apply respects_try; [|apply respects_create_license_except].
  apply respects_bind; [respect|intros _].
  apply respects_bind; [respect|intros cursor].
  apply respects_bind; [respect|intros [existing|]]; [respect|].
  apply respects_bind; [apply respects_generate_license_key|intros key].
  apply respects_bind; [apply respects_compute_expiration|intros exp].
  apply respects_bind; [respect|intros now].
  apply respects_bind;
    [apply respects_execute_update; intros d0 s s';
     apply insert_license_extends|intros _].
  respect.
Qed.

(** X17. On every run, also when it fails, [create_license] leaves the
    instances and the version history alone and never alters or removes a
    licence: the licences that were there are there, in their place. *)
Theorem create_license_appends_only
    (customer_id customer_name : string) (plan : arg string)
    (months : arg (option Z)) (w : World) :
  session w = None ->
  let w' := snd (create_license customer_id customer_name plan months w) in
  customer_instances (disk w') = customer_instances (disk w) /\
  version_history (disk w') = version_history (disk w) /\
  exists more, licenses (disk w') = List.app (licenses (disk w)) more.
Proof.
  intros S w'. subst w'.
  assert (Rr : licenses_extended (disk w) (disk w))
    by (repeat split; exists []; now rewrite app_nil_r).
  destruct (@respects_from_start licenses_extended _
              (create_license customer_id customer_name plan months) w
              Rr S (create_license_respects _ _ _ _)) as (I & V & L).
  split; [exact I|]. split; [exact V|exact L].
Qed.

End CreateLicenseInvariants.

(** Sequences of computations that leave the committed database alone. *)
Ltac keeps_chain :=
  repeat first
    [ solve [auto with frames]
    | apply keeps_disk_if
    | apply keeps_disk_bind; [|intros ?] ].

Section ReturnedKey.
Context `{Runtime}.

Lemma try_except_returned {A : Type} (m : M (option A))
    (h : exn -> M (option A)) (w : World) (a : A) :
  (forall e w1, fst (h e w1) = inr None) ->
  fst (try_except m h w) = inr (Some a) ->
  fst (m w) = inr (Some a) /\ snd (try_except m h w) = snd (m w).
Proof.
  intros Hh. unfold try_except. destruct (m w) as [[e|r] w1]; cbn [fst snd].
  - rewrite Hh. discriminate.
  - auto.
Qed.

Lemma compute_expiration_session (months : option Z) (w : World) :
  session (snd (compute_expiration months w)) = session w.
Proof.
  unfold compute_expiration. destruct months as [m|]; [|reflexivity].
  destruct (negb (m =? 0)); [|reflexivity]. unfold_run. cbn.
  destruct (timedelta_days (m * 30)) as [e|d]; [reflexivity|]. cbn.
  destruct (datetime_add _ d); reflexivity.
Qed.

(** X18. A key is returned only for a licence that is in the store: when
    [create_license] returns a key, the committed [licenses] table holds a
    row with that key, for that customer, with status active. *)
Theorem create_license_returned_key_is_stored
    (customer_id customer_name : string) (plan : arg string)
    (months : arg (option Z)) (w : World) (k : string) :
  fst (create_license customer_id customer_name plan months w)
    = inr (Some k) ->
  exists row,
    In row (licenses
              (disk (snd (create_license customer_id customer_name plan
                            months w)))) /\
    License.license_key row = k /\
    License.customer_id row = customer_id /\
    License.customer_name row = customer_name /\
    License.status row = Some "active".
Proof.
  unfold create_license. intros F.
  apply try_except_returned in F;
    [|intros e w1; apply create_license_except_run].
  destruct F as [F ->].
  edestruct (@open_and_fetch string (option string)
               (select_license_key_of customer_id)) as [(e & w1 & E & D) | E];
    rewrite E in F |- *; [discriminate F|].
  destruct (hd_error (select_license_key_of customer_id (disk w)))
    as [existing|]; [discriminate F|].
  rewrite (@bind_inr _ _ generate_license_key _ _ _ _
             (generate_license_key_run (fetched w))) in F |- *.
  set (key := key_of_bytes (next_bytes 16 (fetched w))) in *.
  set (W1 := set_urandom _ (fetched w)) in *.
  pose proof (compute_expiration_session (with_default (Some 12) months) W1)
    as Sx.
  destruct (compute_expiration (with_default (Some 12) months) W1)
    as [[e|exp] W2] eqn:Ec.
  { rewrite (@bind_raises _ _ _ _ _ _ _ Ec) in F. discriminate F. }
  rewrite (@bind_inr _ _ _ _ _ _ _ Ec) in F |- *. cbn [snd] in Sx.
  rewrite (@bind_inr _ _ sqlite_now _ _ _ _ eq_refl) in F |- *.
  set (W3 := set_clock _ W2) in *.
  set (stamp := CURRENT_TIMESTAMP _) in *.
  destruct (execute_update
              (insert_license stamp key customer_id customer_name
                 (with_default "standard" plan) exp) W3)
    as [[e|u] W4] eqn:Eu.
  { rewrite (@bind_raises _ _ _ _ _ _ _ Eu) in F. discriminate F. }
  rewrite (@bind_inr _ _ _ _ _ _ _ Eu) in F |- *.
  apply execute_update_returned in Eu as (db & db' & Sdb & Fdb & S4 & _).
  destruct (commit W4) as [[e|u'] W5] eqn:Eco.
  { rewrite (@bind_raises _ _ _ _ _ _ _ Eco) in F. discriminate F. }
  rewrite (@bind_inr _ _ _ _ _ _ _ Eco) in F |- *.
  apply commit_returned in Eco. rewrite S4 in Eco. injection Eco as Eco.
  match type of F with
  | fst (?m ?W) = _ =>
      assert (Kd : keeps_disk m) by keeps_chain;
      assert (Y : yields (fun r => r = Some key) m)
        by (repeat (apply yields_bind; intros ?); now apply yields_ret);
      rewrite (Kd W); specialize (Y W _ F)
  end.
  injection Y as ->. rewrite <- Eco.
  unfold insert_license in Fdb.
  destruct (existsb _ _); [discriminate Fdb|].
  destruct (existsb _ _); [discriminate Fdb|]. injection Fdb as <-.
  eexists. split; [cbn [licenses]; apply in_or_app; right; now left|].
  repeat split.
Qed.

(** X19. The command line: [create] with [--months 0] stores a licence
    without expiry, and [create] without [--months] stores one that
    expires 360 days after its creation; the plan is the chosen one, or
    standard. *)
Theorem main_create_duration
    (customer_id customer_name : string) (plan : arg plan_choice)
    (months : arg Z) (w : World) (key : string) :
  healthy w ->
  license_key_of customer_id (disk w) = None ->
  fst (generate_license_key w) = inr key ->
  lookup_license key (disk w) = None ->
  0 <= reading w 0 <= datetime_max_us - 360 * us_per_day ->
  let w' := snd (main_create
                   (parse_create customer_id customer_name plan months) w) in
  let stored (created : string) (expires : option string) :=
    List.app (licenses (disk w))
      [License.mk key customer_id customer_name
         (Some (plan_name (with_default standard plan))) (Some "active")
         (Some created) expires None] in
  (months = Given 0 ->
   licenses (disk w') = stored (CURRENT_TIMESTAMP (reading w 0)) None) /\
  (months = Omitted ->
   licenses (disk w') =
     stored (CURRENT_TIMESTAMP (reading w 1))
       (Some (isoformat (Naive (reading w 0 + 360 * us_per_day))))).
Proof.
  intros Hh Hc Hk Hf Hn w' stored. subst w' stored. cbv beta.
  rewrite main_create_runs_create_license.
  split; intros ->; cbn [with_default Z.eqb].
  - rewrite (@create_license_fresh_run _ customer_id customer_name _ _
               w key Hh Hc Hk Hf); [reflexivity|exact I].
  - rewrite (@create_license_fresh_run _ customer_id customer_name _ _
               w key Hh Hc Hk Hf); [reflexivity|].
    right. unfold datetime_max_us, us_per_day in *. lia.
Qed.

End ReturnedKey.

Section DashboardProperties.
Context `{SqlEngine}.

Lemma sum_ones_permutation {A : Type} (p : A -> bool) (l l' : list A) :
  Permutation l l' -> sum_ones p l = sum_ones p l'.
Proof.
  induction 1 as [|x l l' P IH|x y l|l l' l'' P1 IH1 P2 IH2]; cbn.
  - reflexivity.
  - now rewrite IH.
  - destruct (p x), (p y); lia.
  - congruence.
Qed.

Lemma sum_ones_bounds {A : Type} (p : A -> bool) (l : list A) :
  0 <= sum_ones p l <= len l.
Proof.
  unfold len. induction l as [|x l IH]; cbn [sum_ones List.length]; [lia|].
  destruct (p x); lia.
Qed.

Lemma sum_ones_app {A : Type} (p : A -> bool) (l l' : list A) :
  sum_ones p (l ++ l') = sum_ones p l + sum_ones p l'.
Proof.
  induction l as [|x l IH]; cbn [sum_ones app]; [reflexivity|].
  destruct (p x); lia.
Qed.

(** The context that the dashboard computes from a database. *)
Lemma dashboard_returned (settings : Settings) (username : string)
    (w : World) (ctx : DashboardContext) :
  fst (master_admin_dashboard settings username w) = inr ctx ->
  ctx =
  mkDashboardContext
    (select_instances_by_heartbeat (disk w))
    (len (select_instances_by_heartbeat (disk w)))
    (sum_ones reports_healthy (select_instances_by_heartbeat (disk w)))
    (sum_ones (is_outdated settings) (select_instances_by_heartbeat (disk w)))
    (select_recent_history (disk w))
    (LATEST_VERSION settings).
Proof.
  unfold master_admin_dashboard, fetchall. unfold_run. cbn.
  destruct (feed (driver w) (used (driver w))); [discriminate|]. cbn.
  destruct (feed (driver w) (S (used (driver w)))); [discriminate|]. cbn.
  destruct (feed (driver w) (S (S (used (driver w))))); [discriminate|]. cbn.
  destruct (feed (driver w) (S (S (S (used (driver w)))))); [discriminate|].
  cbn.
  destruct (feed (driver w) (S (S (S (S (used (driver w)))))));
    [discriminate|].
  cbn. intros E. now injection E as <-.
Qed.

Lemma dashboard_healthy (settings : Settings) (username : string)
    (w : World) :
  healthy w ->
  exists ctx, fst (master_admin_dashboard settings username w) = inr ctx.
Proof.
  intros Hh. unfold master_admin_dashboard, fetchall.
  run_healthy Hh. eexists; reflexivity.
Qed.

Lemma keeps_disk_dashboard (settings : Settings) (username : string) :
  keeps_disk (master_admin_dashboard settings username).
Proof.
  unfold master_admin_dashboard. intros w.
  unfold async_with_connect.
  apply (keeps_disk_bind (m := connect)); [apply keeps_disk_connect|].
  intros _ w1.
  match goal with
  | |- context [let (r, w') := ?body w1 in _] =>
      assert (K : keeps_disk body) by keeps_chain;
      specialize (K w1); destruct (body w1) as [r w2]
  end.
  exact K.
Qed.

(** X20. The dashboard only reads: on every run, with or without access,
    [GET /admin] leaves the committed database as it is. *)
Theorem admin_route_reads_only (settings : Settings)
    (credentials : HTTPBasicCredentials) (w : World) :
  disk (snd (admin_route settings credentials w)) = disk w.
Proof.
  unfold admin_route, bind.
  pose proof (verify_master_admin_pure settings credentials w) as P.
  destruct (verify_master_admin settings credentials w) as [[e|u] w1].
  - cbn in *. now subst.
  - cbn in P. subst w1. apply keeps_disk_dashboard.
Qed.

(** X21. No access, no query: when the credential check does not return,
    [GET /admin] ends with its exception and has not touched the world; in
    particular the driver was never called.  For ASCII credentials that do
    not match, the exception is the HTTP 401. *)
Theorem admin_route_guarded (settings : Settings)
    (credentials : HTTPBasicCredentials) (w : World) :
  (forall e,
      fst (verify_master_admin settings credentials w) = inl e ->
      admin_route settings credentials w = (inl e, w)) /\
  (is_ascii (username credentials) = true ->
   is_ascii (password credentials) = true ->
   is_ascii (MASTER_ADMIN_USERNAME settings) = true ->
   is_ascii (MASTER_ADMIN_PASSWORD settings) = true ->
   ~ (username credentials = MASTER_ADMIN_USERNAME settings /\
      password credentials = MASTER_ADMIN_PASSWORD settings) ->
   admin_route settings credentials w =
   (inl (HTTPException 401 "Incorrect credentials"
           [("WWW-Authenticate", "Basic")]), w)).
Proof.
  assert (G : forall e,
             fst (verify_master_admin settings credentials w) = inl e ->
             admin_route settings credentials w = (inl e, w)).
  { intros e E. unfold admin_route, bind.
    pose proof (verify_master_admin_pure settings credentials w) as P.
    destruct (verify_master_admin settings credentials w) as [r w1].
    cbn in *. now subst. }
  split; [exact G|].
  intros Au Ap Acu Acp N. apply G.
  unfold verify_master_admin, compare_digest. unfold_run.
  rewrite Au, Ap, Acu, Acp. cbn.
  destruct (String.eqb_spec (username credentials)
              (MASTER_ADMIN_USERNAME settings)) as [U|U];
    destruct (String.eqb_spec (password credentials)
                (MASTER_ADMIN_PASSWORD settings)) as [P|P];
    cbn; try reflexivity. tauto.
Qed.

(** X22. The counters of the dashboard: the total is the number of
    instance rows; the healthy and outdated counts lie between 0 and the
    total and do not depend on the order in which SQLite returns the rows;
    at most ten updates are shown, all of them entries of the history. *)
Theorem dashboard_counters (settings : Settings) (username : string)
    (w : World) (ctx : DashboardContext) :
  fst (master_admin_dashboard settings username w) = inr ctx ->
  Permutation (customer_instances (disk w)) (instances ctx) /\
  total_customers ctx = len (customer_instances (disk w)) /\
  healthy_count ctx = sum_ones reports_healthy (customer_instances (disk w)) /\
  outdated_count ctx =
    sum_ones (is_outdated settings) (customer_instances (disk w)) /\
  0 <= healthy_count ctx <= total_customers ctx /\
  0 <= outdated_count ctx <= total_customers ctx /\
  (List.length (recent_updates ctx) <= 10)%nat /\
  (forall u, In u (recent_updates ctx) -> In u (version_history (disk w))).
Proof.
  intros E. apply dashboard_returned in E. subst ctx.
  cbn [instances total_customers healthy_count outdated_count recent_updates].
  unfold select_instances_by_heartbeat, select_recent_history.
  pose proof (order_by_desc_permutation CustomerInstance.last_heartbeat
                (customer_instances (disk w))) as P.
  assert (L : len (order_by_desc CustomerInstance.last_heartbeat
                     (customer_instances (disk w))) =
              len (customer_instances (disk w)))
    by (unfold len; now rewrite <- (Permutation_length P)).
  rewrite L, <- !(sum_ones_permutation _ P).
  repeat split; try apply sum_ones_bounds; try exact P.
  - apply firstn_le_length.
  - intros u I.
    assert (I' : In u (order_by_desc
                         (fun r => text_cell (VersionHistory.updated_at r))
                         (version_history (disk w)))).
    { rewrite <- (firstn_skipn 10). apply in_or_app. now left. }
    clear I. rename I' into I.
    eapply Permutation_in; [symmetry; apply order_by_desc_permutation|exact I].
Qed.

End DashboardProperties.

Section RegisterThenDashboard.
Context `{Runtime} `{SqlEngine}.

(** X23. Registering, then looking at the dashboard: a first registration
    raises the total by one, the healthy count by one if the instance
    reports "healthy", and the outdated count by one unless it runs the
    latest version. *)
Theorem register_then_dashboard (settings : Settings) (username : string)
    (reg : InstanceRegistration.t) (w w2 : World) :
  healthy w ->
  lookup_instance (InstanceRegistration.customer_id reg) (disk w) = None ->
  healthy w2 ->
  disk w2 = disk (snd (register_instance reg w)) ->
  exists ctx,
    fst (master_admin_dashboard settings username w2) = inr ctx /\
    total_customers ctx = len (customer_instances (disk w)) + 1 /\
    healthy_count ctx =
      sum_ones reports_healthy (customer_instances (disk w)) +
      (if InstanceRegistration.health reg == "healthy" then 1 else 0) /\
    outdated_count ctx =
      sum_ones (is_outdated settings) (customer_instances (disk w)) +
      (if InstanceRegistration.version reg == LATEST_VERSION settings
       then 0 else 1).
Proof.
  intros Hh Hl Hh2 D.
  assert (Hv : stored_version (InstanceRegistration.customer_id reg) (disk w)
               = None) by (now rewrite stored_version_lookup, Hl).
  destruct (register_new_run reg Hh Hv) as [_ Dn]. rewrite Dn in D.
  destruct (dashboard_healthy settings username Hh2) as [ctx E].
  exists ctx. split; [exact E|].
  apply dashboard_returned in E. subst ctx.
  cbn [total_customers healthy_count outdated_count].
  unfold select_instances_by_heartbeat.
  pose proof (order_by_desc_permutation CustomerInstance.last_heartbeat
                (customer_instances (disk w2))) as P.
  rewrite <- !(sum_ones_permutation _ P).
  assert (L : len (order_by_desc CustomerInstance.last_heartbeat
                     (customer_instances (disk w2))) =
              len (customer_instances (disk w2)))
    by (unfold len; now rewrite <- (Permutation_length P)).
  rewrite L, D. cbn [customer_instances]. rewrite !sum_ones_app.
  split; [|split].
  - unfold len. rewrite length_app. cbn [List.length]. lia.
  - cbn. unfold reports_healthy. cbn.
    destruct (InstanceRegistration.health reg == "healthy"); lia.
  - cbn. unfold is_outdated. cbn.
    destruct (InstanceRegistration.version reg == LATEST_VERSION settings);
      cbn; lia.
Qed.

End RegisterThenDashboard.

Section ListingProperties.
Context `{Runtime} `{SqlEngine}.

Lemma keeps_disk_try_sqlite3 {A : Type} (m : M A) (h : exn -> M A) :
  keeps_disk m -> (forall e, keeps_disk (h e)) ->
  keeps_disk (try_except_sqlite3 m h).
Proof.
  intros Hm Hh w. unfold try_except_sqlite3. specialize (Hm w).
  destruct (m w) as [[e|a] w1]; cbn [snd] in *; [|exact Hm].
  destruct (is_sqlite3_error e); [|exact Hm]. now rewrite Hh.
Qed.

Lemma keeps_disk_expires_column (lic : License.t) :
  keeps_disk (expires_column lic).
Proof.
  unfold expires_column.
  destruct (License.expires_at lic) as [text|]; [|keeps_chain].
  destruct (truthy_str text); [|keeps_chain].
  apply keeps_disk_bind; [keeps_chain|intros d].
  apply keeps_disk_bind; [keeps_chain|intros now].
  apply keeps_disk_bind; [keeps_chain|intros past].
  destruct past; keeps_chain.
Qed.

Lemma keeps_disk_for_each {A : Type} (items : list A) (body : A -> M unit) :
  (forall x, keeps_disk (body x)) -> keeps_disk (for_each items body).
Proof.
  intros Hb. induction items as [|x items IH]; cbn [for_each].
  - apply keeps_disk_ret.
  - apply keeps_disk_bind; [apply Hb|intros _; exact IH].
Qed.

Lemma keeps_disk_print_license (lic : License.t) :
  keeps_disk (print_license lic).
Proof.
  unfold print_license.
  apply keeps_disk_bind; [apply keeps_disk_expires_column|intros e].
  keeps_chain.
Qed.

(** X24. The listing only reads: on every run, whatever the driver and the
    date library do, [list_licenses] leaves the committed database as it
    is. *)
Theorem list_licenses_reads_only (w : World) :
  disk (snd (list_licenses w)) = disk w.
Proof.
  revert w. change (keeps_disk list_licenses). unfold list_licenses.
  apply keeps_disk_try_sqlite3; [|intros e; keeps_chain].
  apply keeps_disk_bind; [keeps_chain|intros _].
  apply keeps_disk_bind; [keeps_chain|intros cursor].
  apply keeps_disk_bind; [keeps_chain|intros rows].
  apply keeps_disk_bind; [keeps_chain|intros _].
  destruct rows as [|lic rest]; [keeps_chain|].
  do 5 (apply keeps_disk_bind; [keeps_chain|intros _]).
  apply keeps_disk_bind;
    [apply keeps_disk_for_each; apply keeps_disk_print_license|intros _].
  keeps_chain.
Qed.

(** X25. Only errors of sqlite are handled by the listing: when one of its
    three driver calls raises a [sqlite3.Error], [list_licenses] prints it
    as a database error and returns; any other exception leaves
    [list_licenses] with nothing printed. *)
Theorem list_licenses_driver_error (w : World) (i : nat) (e : exn) :
  (i < 3)%nat ->
  (forall j, (j < i)%nat -> outcome w j = None) ->
  outcome w i = Some e ->
  if is_sqlite3_error e then
    fst (list_licenses w) = inr tt /\
    stdout (snd (list_licenses w)) =
      List.app (stdout w) ["❌ Database error: " ++ str_exn e]
  else
    fst (list_licenses w) = inl e /\
    stdout (snd (list_licenses w)) = stdout w.
Proof.
  intros Hi Hp He. unfold outcome in *.
  unfold list_licenses, try_except_sqlite3, fetchall. unfold_run.
  destruct i as [|[|[|i]]]; [| | |lia].
  - cbn in He. cbn -[String.append]. rewrite He. cbn -[String.append].
    destruct (is_sqlite3_error e); split; reflexivity.
  - pose proof (Hp 0%nat ltac:(lia)) as H0'. cbn in He, H0'.
    cbn -[String.append]. rewrite H0'. cbn -[String.append]. rewrite He.
    cbn -[String.append].
    destruct (is_sqlite3_error e); split; reflexivity.
  - pose proof (Hp 0%nat ltac:(lia)) as H0'.
    pose proof (Hp 1%nat ltac:(lia)) as H1'. cbn in He, H0', H1'.
    cbn -[String.append]. rewrite H0'. cbn -[String.append]. rewrite H1'.
    cbn -[String.append]. rewrite He. cbn -[String.append].
    destruct (is_sqlite3_error e); split; reflexivity.
Qed.

(** X26. With no licence in the store, the listing prints the single line
    "No licenses found" and neither a header nor a table. *)
Theorem list_licenses_empty (w : World) :
  healthy w ->
  licenses (disk w) = [] ->
  fst (list_licenses w) = inr tt /\
  stdout (snd (list_licenses w)) =
    List.app (stdout w) [nl ++ "📋 No licenses found" ++ nl].
Proof.
  intros Hh He.
  assert (E : select_licenses_by_creation (disk w) = []).
  { unfold select_licenses_by_creation. rewrite He.
    apply Permutation_nil. apply order_by_desc_permutation. }
  unfold list_licenses, try_except_sqlite3, fetchall.
  run_healthy Hh. rewrite E. cbn -[String.append]. split; reflexivity.
Qed.

(** X27. The listing and the validator agree on expiry.  At the same clock
    reading: a licence that the validator's check finds expired is listed
    as EXPIRED with its date; one that it finds not expired is listed as
    Never when it has no expiry, and else with its date and the whole days
    left at the next clock reading; and when the check raises, the listing
    raises the same exception. *)
Theorem listing_agrees_with_validator (lic : License.t) (w : World) :
  (forall d,
      fst (check_expired lic w) = inr (Some d) ->
      fst (expires_column lic w) = inr ("EXPIRED " ++ strftime_ymd d)) /\
  (fst (check_expired lic w) = inr None ->
   (truthy_cell (License.expires_at lic) = false /\
    fst (expires_column lic w) = inr "Never") \/
   exists text t,
     License.expires_at lic = Some text /\
     fromisoformat text = inr (Naive t) /\
     reading w 0 <= t /\
     fst (expires_column lic w) =
       inr (strftime_ymd (Naive t) ++ " (" ++
            str_int ((t - reading w 1) / us_per_day) ++ "d)")) /\
  (forall e,
      fst (check_expired lic w) = inl e ->
      fst (expires_column lic w) = inl e).
Proof.
  unfold check_expired, expires_column, reading, timedelta_in_days.
  destruct (License.expires_at lic) as [text|]; cbn [truthy_cell];
    [|repeat split; try discriminate; intros _; left; split; reflexivity].
  destruct (truthy_str text);
    [|repeat split; try discriminate; intros _; left; split; reflexivity].
  unfold_run.
  destruct (fromisoformat text) as [e|[t|t off]] eqn:P;
    cbn -[String.append Z.div].
  - repeat split; try discriminate. intros e' E. now injection E as <-.
  - destruct (t <? feed (clock w) (used (clock w))) eqn:L;
      cbn -[String.append Z.div].
    + repeat split; try discriminate.
      intros d E. injection E as <-. reflexivity.
    + repeat split; try discriminate. intros _. right.
      exists text, t. split; [reflexivity|].
      split; [first [reflexivity | exact P]|].
      split; [now apply Z.ltb_ge|reflexivity].
  - repeat split; try discriminate. intros e' E. now injection E as <-.
Qed.

End ListingProperties.

(** * The further properties on the sample data *)

Lemma register_instance_first_registration_witness :
  customer_instances
    (disk (snd (register_instance (H := Reference.runtime)
                  Scenario.hooli_first Sample.world))) =
    [Sample.acme_instance; Sample.globex_instance;
     CustomerInstance.mk "hooli" "1.0.0" "https://hooli.example"
       (Some "healthy") (SqlText "2025-11-03T15:26:00")
       (Some "2025-11-03 15:26:00") (Some 3) (Some 17)] /\
  customer_instances
    (disk (snd (register_instance (H := Reference.runtime)
                  Scenario.hooli_epoch Sample.world))) =
    [Sample.acme_instance; Sample.globex_instance;
     CustomerInstance.mk "hooli" "1.0.0" "https://hooli.example"
       (Some "healthy") (SqlInteger 1762183560)
       (Some "2025-11-03 15:26:00") (Some 3) (Some 17)].
Proof.
  split.
  - destruct (@register_instance_first_registration Reference.runtime
                Scenario.hooli_first Sample.world sample_world_healthy
                eq_refl) as (heartbeat & C & _ & T & _).
    rewrite C, (T eq_refl). reflexivity.
  - destruct (@register_instance_first_registration Reference.runtime
                Scenario.hooli_epoch Sample.world sample_world_healthy
                eq_refl) as (heartbeat & C & _ & _ & I & _).
    rewrite C, (I (mkLiteral false 1762183560 0 true) eq_refl eq_refl).
    + reflexivity.
    + split; discriminate.
Defined.

Lemma register_instance_stores_submission_witness :
  (exists row,
      lookup_instance "acme"
        (disk (snd (register_instance (H := Reference.runtime)
                      Scenario.acme_again Sample.world))) = Some row /\
      CustomerInstance.version row = "1.1.0" /\
      CustomerInstance.url row = "https://chat.acme.example" /\
      CustomerInstance.health_status row = Some "healthy" /\
      CustomerInstance.last_heartbeat row = SqlText "2025-11-03T15:26:00" /\
      CustomerInstance.total_users row = Some 45 /\
      CustomerInstance.total_messages row = Some 1100) /\
  (exists row,
      lookup_instance "acme"
        (disk (snd (register_instance (H := Reference.runtime)
                      Scenario.acme_epoch Sample.world))) = Some row /\
      CustomerInstance.last_heartbeat row = SqlInteger 1762183560).
Proof.
  split.
  - destruct (@register_instance_stores_submission Reference.runtime
                Scenario.acme_again Sample.world sample_world_healthy)
      as (row & L & V & U & Hs & _ & T & _ & Tu & Tm).
    exists row. repeat split; try assumption. exact (T eq_refl).
  - destruct (@register_instance_stores_submission Reference.runtime
                Scenario.acme_epoch Sample.world sample_world_healthy)
      as (row & L & _ & _ & _ & _ & _ & I & _).
    exists row. split; [exact L|].
    apply (I (mkLiteral false 1762183560 0 true) eq_refl eq_refl).
    split; discriminate.
Defined.

Lemma register_instance_idempotent_witness :
  customer_instances
    (disk (snd (register_instance (H := Reference.runtime)
                  Scenario.acme_again
                  (Scenario.next
                     (snd (register_instance (H := Reference.runtime)
                             Scenario.acme_again Sample.world)))))) =
  customer_instances
    (disk (snd (register_instance (H := Reference.runtime)
                  Scenario.acme_again Sample.world))).
Proof.
  exact (proj1 (@register_instance_idempotent Reference.runtime
                  Scenario.acme_again Sample.world
                  (Scenario.next
                     (snd (register_instance (H := Reference.runtime)
                             Scenario.acme_again Sample.world)))
                  sample_world_healthy (fun n => eq_refl) eq_refl)).
Defined.

Lemma register_instance_never_deletes_witness :
  licenses
    (disk (snd (register_instance (H := Reference.runtime)
                  Scenario.acme_again
                  (Sample.failing_at 4 (Sqlite3Error "disk I/O error"))))) =
  licenses Sample.db.
Proof.
  exact (proj1 (@register_instance_never_deletes Reference.runtime
                  Scenario.acme_again
                  (Sample.failing_at 4 (Sqlite3Error "disk I/O error"))
                  eq_refl)).
Defined.

Lemma validate_license_unreadable_expiry_witness :
  fst (validate_license (H := Reference.runtime)
         (Sample.request (License.license_key Scenario.handwritten) "hooli")
         (Scenario.world_of Scenario.odd_db)) =
  inr (mkResponse 500
         [("valid", JBool false); ("error", JStr "VALIDATION_ERROR");
          ("message", JStr "Invalid isoformat string: 'next year'")]).
Proof.
  refine (proj1 (@validate_license_unreadable_expiry Reference.runtime
                   (Sample.request (License.license_key Scenario.handwritten)
                      "hooli")
                   (Scenario.world_of Scenario.odd_db) Scenario.handwritten
                   "next year"
                   (ValueError "Invalid isoformat string: 'next year'")
                   (fun n => eq_refl) eq_refl eq_refl eq_refl _ eq_refl)).
  discriminate.
Defined.

Lemma validate_license_aware_expiry_witness :
  fst (validate_license (H := ReferenceOffset.runtime)
         (Sample.request (License.license_key Scenario.with_offset) "pied")
         (Scenario.world_of Scenario.odd_db)) =
  inr (mkResponse 500
         [("valid", JBool false); ("error", JStr "VALIDATION_ERROR");
          ("message",
           JStr "can't compare offset-naive and offset-aware datetimes")]).
Proof.
  exact (proj1 (@validate_license_aware_expiry ReferenceOffset.runtime
                  (Sample.request (License.license_key Scenario.with_offset)
                     "pied")
                  (Scenario.world_of Scenario.odd_db) Scenario.with_offset
                  "2026-01-05T09:00:00+00:00" 63903200400000000 0
                  (fun n => eq_refl) eq_refl eq_refl eq_refl eq_refl)).
Defined.

Lemma validate_license_changes_last_validated_only_witness :
  customer_instances
    (disk (snd (validate_license (H := Reference.runtime)
                  (Sample.request (License.license_key Sample.acme) "acme")
                  Sample.world))) =
  customer_instances Sample.db.
Proof.
  exact (proj1 (@validate_license_changes_last_validated_only
                  Reference.runtime
                  (Sample.request (License.license_key Sample.acme) "acme")
                  Sample.world eq_refl)).
Defined.

Lemma validate_license_again_witness :
  fst (validate_license (H := Reference.runtime)
         (Sample.request (License.license_key Sample.acme) "acme")
         (Scenario.next
            (snd (validate_license (H := Reference.runtime)
                    (Sample.request (License.license_key Sample.acme) "acme")
                    Sample.world)))) =
  inr (success_payload Sample.acme).
Proof.
  refine (proj2 (@validate_license_again Reference.runtime
                   (Sample.request (License.license_key Sample.acme) "acme")
                   Sample.world
                   (Scenario.next
                      (snd (validate_license (H := Reference.runtime)
                              (Sample.request
                                 (License.license_key Sample.acme) "acme")
                              Sample.world)))
                   Sample.acme sample_world_healthy eq_refl eq_refl
                   acme_unexpired eq_refl (fun n => eq_refl) eq_refl _)).
  right. exists 63903200400250000. split; [reflexivity | discriminate].
Defined.

Lemma create_license_key_collision_witness :
  fst (create_license (H := Reference.runtime) "wayne" "Wayne Enterprises"
         Omitted Omitted (Scenario.world_of Scenario.odd_db)) = inr None /\
  disk (snd (create_license (H := Reference.runtime) "wayne"
               "Wayne Enterprises" Omitted Omitted
               (Scenario.world_of Scenario.odd_db))) = Scenario.odd_db /\
  stdout (snd (create_license (H := Reference.runtime) "wayne"
                 "Wayne Enterprises" Omitted Omitted
                 (Scenario.world_of Scenario.odd_db))) =
  ["❌ Database error: UNIQUE constraint failed: licenses.license_key"].
Proof.
  refine (@create_license_key_collision Reference.runtime "wayne"
            "Wayne Enterprises" Omitted Omitted
            (Scenario.world_of Scenario.odd_db)
            "HL-0F3A9C21-E40F3A9C-21E40F3A-9C21E40F" Scenario.taken
            (fun n => eq_refl) eq_refl eq_refl eq_refl _).
  right. split; [discriminate|split; discriminate].
Defined.

Lemma hooli_representable :
  representable (Some 12) (reading Sample.world 0).
Proof. right. split; [discriminate|split; discriminate]. Qed.

Lemma create_license_twice_witness :
  fst (create_license (H := Reference.runtime) "hooli" "Hooli Inc"
         (Given "enterprise") (Given None)
         (Scenario.next
            (snd (create_license (H := Reference.runtime) "hooli" "Hooli"
                    Omitted Omitted Sample.world)))) = inr None.
Proof.
  exact (proj1 (@create_license_twice Reference.runtime "hooli" "Hooli"
                  "Hooli Inc" Omitted (Given "enterprise") Omitted
                  (Given None) Sample.world
                  (Scenario.next
                     (snd (create_license (H := Reference.runtime) "hooli"
                             "Hooli" Omitted Omitted Sample.world)))
                  "HL-0F3A9C21-E40F3A9C-21E40F3A-9C21E40F"
                  sample_world_healthy eq_refl eq_refl eq_refl
                  hooli_representable eq_refl)).
Defined.

Lemma create_then_validate_witness :
  fst (validate_license (H := Reference.runtime)
         (Sample.request "HL-0F3A9C21-E40F3A9C-21E40F3A-9C21E40F" "hooli")
         (Scenario.next
            (snd (create_license (H := Reference.runtime) "hooli" "Hooli"
                    Omitted Omitted Sample.world)))) =
  inr (mkResponse 200
         [("valid", JBool true); ("customer_name", JStr "Hooli");
          ("plan", JStr "standard");
          ("expires_at", JStr "2026-10-29T15:26:00");
          ("message", JStr "License valid")]) /\
  fst (validate_license (H := Reference.runtime)
         (Sample.request "HL-0F3A9C21-E40F3A9C-21E40F3A-9C21E40F" "acme")
         (Scenario.next
            (snd (create_license (H := Reference.runtime) "hooli" "Hooli"
                    Omitted Omitted Sample.world)))) =
  inr (mkResponse 401
         [("valid", JBool false); ("error", JStr "CUSTOMER_MISMATCH");
          ("message", JStr "License key does not match customer ID")]).
Proof.
  split.
  - refine (proj1 (@create_then_validate Reference.runtime "hooli" "Hooli"
                     Omitted Omitted Sample.world
                     (Scenario.next
                        (snd (create_license (H := Reference.runtime) "hooli"
                                "Hooli" Omitted Omitted Sample.world)))
                     "HL-0F3A9C21-E40F3A9C-21E40F3A-9C21E40F"
                     (Sample.request "HL-0F3A9C21-E40F3A9C-21E40F3A-9C21E40F"
                        "hooli")
                     sample_world_healthy eq_refl eq_refl eq_refl
                     hooli_representable _ (fun n => eq_refl) eq_refl eq_refl)
                  eq_refl).
    intros t E. injection E as <-.
    split; vm_compute; [reflexivity|discriminate].
  - refine (proj2 (@create_then_validate Reference.runtime "hooli" "Hooli"
                     Omitted Omitted Sample.world
                     (Scenario.next
                        (snd (create_license (H := Reference.runtime) "hooli"
                                "Hooli" Omitted Omitted Sample.world)))
                     "HL-0F3A9C21-E40F3A9C-21E40F3A-9C21E40F"
                     (Sample.request "HL-0F3A9C21-E40F3A9C-21E40F3A-9C21E40F"
                        "acme")
                     sample_world_healthy eq_refl eq_refl eq_refl
                     hooli_representable _ (fun n => eq_refl) eq_refl eq_refl)
                  _).
    + intros t E. injection E as <-.
      split; vm_compute; [reflexivity|discriminate].
    + intros E. discriminate E.
Defined.

Lemma create_license_negative_months_witness :
  option_map License.expires_at
    (lookup_license "HL-0F3A9C21-E40F3A9C-21E40F3A-9C21E40F"
       (disk (snd (create_license (H := Reference.runtime) "hooli" "Hooli"
                     Omitted (Given (Some (-1))) Sample.world)))) =
  Some (Some "2025-10-04T15:26:00") /\
  fst (validate_license (H := Reference.runtime)
         (Sample.request "HL-0F3A9C21-E40F3A9C-21E40F3A-9C21E40F" "hooli")
         (Scenario.next
            (snd (create_license (H := Reference.runtime) "hooli" "Hooli"
                    Omitted (Given (Some (-1))) Sample.world)))) =
  inr (mkResponse 401
         [("valid", JBool false); ("error", JStr "LICENSE_EXPIRED");
          ("message", JStr "License expired on 2025-10-04")]).
Proof.
  assert (R : representable (Some (-1)) (reading Sample.world 0)).
  { right. split; [discriminate|split; discriminate]. }
  destruct (@create_license_negative_months Reference.runtime
              "hooli" "Hooli" Omitted (-1) Sample.world
              (Scenario.next
                 (snd (create_license (H := Reference.runtime) "hooli"
                         "Hooli" Omitted (Given (Some (-1))) Sample.world)))
              "HL-0F3A9C21-E40F3A9C-21E40F3A-9C21E40F"
              (Sample.request "HL-0F3A9C21-E40F3A9C-21E40F3A-9C21E40F"
                 "hooli")
              sample_world_healthy eq_refl eq_refl eq_refl eq_refl R)
    as (_ & Stored & Expired).
  split; [exact Stored|].
  refine (Expired _ (fun n => eq_refl) eq_refl _ eq_refl).
  - vm_compute. reflexivity.
  - vm_compute. discriminate.
Defined.

Lemma create_license_appends_only_witness :
  exists more,
    licenses
      (disk (snd (create_license (H := Reference.runtime) "hooli" "Hooli"
                    Omitted Omitted Sample.world))) =
    List.app (licenses Sample.db) more.
Proof.
  exact (proj2 (proj2 (@create_license_appends_only Reference.runtime
                         "hooli" "Hooli" Omitted Omitted Sample.world
                         eq_refl))).
Defined.

Lemma create_license_returned_key_is_stored_witness :
  exists row,
    In row (licenses
              (disk (snd (create_license (H := Reference.runtime) "hooli"
                            "Hooli" Omitted Omitted Sample.world)))) /\
    License.license_key row = "HL-0F3A9C21-E40F3A9C-21E40F3A-9C21E40F" /\
    License.customer_id row = "hooli" /\
    License.customer_name row = "Hooli" /\
    License.status row = Some "active".
Proof.
  exact (@create_license_returned_key_is_stored Reference.runtime "hooli"
           "Hooli" Omitted Omitted Sample.world
           "HL-0F3A9C21-E40F3A9C-21E40F3A-9C21E40F" eq_refl).
Defined.

Lemma main_create_duration_witness :
  licenses
    (disk (snd (main_create (H := Reference.runtime)
                  (parse_create "hooli" "Hooli" (Given pro) (Given 0))
                  Sample.world))) =
  List.app (licenses Sample.db)
    [License.mk "HL-0F3A9C21-E40F3A9C-21E40F3A-9C21E40F" "hooli" "Hooli"
       (Some "pro") (Some "active") (Some "2025-11-03 15:26:00") None None].
Proof.
  refine (proj1 (@main_create_duration Reference.runtime "hooli" "Hooli"
                   (Given pro) (Given 0) Sample.world
                   "HL-0F3A9C21-E40F3A9C-21E40F3A-9C21E40F"
                   sample_world_healthy eq_refl eq_refl eq_refl _) eq_refl).
  split; discriminate.
Defined.

Lemma admin_route_guarded_witness :
  admin_route (H := ReferenceOrder.engine) (load_settings [])
    (mkCredentials "admin" "letmein") Sample.world =
  (inl (HTTPException 401 "Incorrect credentials"
          [("WWW-Authenticate", "Basic")]), Sample.world).
Proof.
  refine (proj2 (@admin_route_guarded ReferenceOrder.engine (load_settings [])
                   (mkCredentials "admin" "letmein") Sample.world)
                eq_refl eq_refl eq_refl eq_refl _).
  intros [_ P]. discriminate P.
Defined.

Lemma dashboard_counters_witness :
  exists ctx,
    fst (master_admin_dashboard (H := ReferenceOrder.engine)
           (load_settings []) "admin" Sample.world) = inr ctx /\
    total_customers ctx = 2 /\
    healthy_count ctx = 1 /\
    outdated_count ctx = 1.
Proof.
  eexists. split; [reflexivity|].
  destruct (@dashboard_counters ReferenceOrder.engine (load_settings [])
              "admin" Sample.world _ eq_refl) as (_ & T & Hc & O & _).
  rewrite T, Hc, O. repeat split.
Defined.

Lemma register_then_dashboard_witness :
  exists ctx,
    fst (master_admin_dashboard (H := ReferenceOrder.engine)
           (load_settings []) "admin"
           (Scenario.next
              (snd (register_instance (H := Reference.runtime)
                      Scenario.hooli_first Sample.world)))) = inr ctx /\
    total_customers ctx = 3 /\
    healthy_count ctx = 2 /\
    outdated_count ctx = 1.
Proof.
  exact (@register_then_dashboard Reference.runtime ReferenceOrder.engine
           (load_settings []) "admin" Scenario.hooli_first Sample.world
           (Scenario.next
              (snd (register_instance (H := Reference.runtime)
                      Scenario.hooli_first Sample.world)))
           sample_world_healthy eq_refl (fun n => eq_refl) eq_refl).
Defined.

Lemma list_licenses_driver_error_witness :
  fst (list_licenses (H := Reference.runtime) (H0 := ReferenceOrder.engine)
         (Sample.failing_at 1 (Sqlite3Error "no such table: licenses"))) =
    inr tt /\
  stdout (snd (list_licenses (H := Reference.runtime)
                 (H0 := ReferenceOrder.engine)
                 (Sample.failing_at 1
                    (Sqlite3Error "no such table: licenses")))) =
    ["❌ Database error: no such table: licenses"].
Proof.
  refine (@list_licenses_driver_error Reference.runtime ReferenceOrder.engine
            (Sample.failing_at 1 (Sqlite3Error "no such table: licenses"))
            1%nat (Sqlite3Error "no such table: licenses") _ _ eq_refl).
  - repeat constructor.
  - intros j L. destruct j as [|j]; [reflexivity|].
    exfalso. inversion L as [|? L']. inversion L'.
Defined.

Lemma list_licenses_empty_witness :
  stdout (snd (list_licenses (H := Reference.runtime)
                 (H0 := ReferenceOrder.engine)
                 (Scenario.world_of Scenario.empty_db))) =
  [nl ++ "📋 No licenses found" ++ nl].
Proof.
  exact (proj2 (@list_licenses_empty Reference.runtime ReferenceOrder.engine
                  (Scenario.world_of Scenario.empty_db)
                  (fun n => eq_refl) eq_refl)).
Defined.

Lemma listing_agrees_with_validator_witness :
  fst (expires_column (H := Reference.runtime) Sample.initech Sample.world) =
    inr "EXPIRED 2025-06-30" /\
  fst (expires_column (H := Reference.runtime) Sample.acme Sample.world) =
    inr "2026-01-05 (62d)".
Proof.
  split.
  - exact (proj1 (@listing_agrees_with_validator Reference.runtime
                    Sample.initech Sample.world) _ eq_refl).
  - destruct (proj1 (proj2 (@listing_agrees_with_validator Reference.runtime
                              Sample.acme Sample.world)) eq_refl)
      as [[F _] | (text & t & Et & P & _ & E)].
    + discriminate F.
    + injection Et as <-. vm_compute in P. injection P as <-. exact E.
Defined.
